(** * sesx2pl: Audition session to playlist (CUE, m3u)

    A shallow embedding of [index.js] and the properties of its
    conversion pipeline: signature check, line scanner, playlist
    builder, sort, and the CUE and M3U renderers.

    Conventions of the embedding.
    - JavaScript strings are [string]s of ASCII characters; case mapping
      and white space are those of the ASCII range.
    - JavaScript numbers are doubles: [NaN], the two infinities and the
      finite doubles, each carried as its exact value, a rational.  The
      arithmetic rounds to the nearest double with overflow and
      underflow; the sign of zero is not represented.  Every number
      that reaches a string goes through [ToInt32] first.
    - [undefined] and [null] are the [None] of an [option]; each use
      says which of the two it stands for.
    - A [TypeError] that escapes the script is the [Throw] of a small
      error monad; console output is an explicit list of lines. *)

From Stdlib Require Import ZArith QArith Qround Lia Lqa.
From Stdlib Require Import Bool List String Ascii.
From Stdlib Require Import Numbers.DecimalString.
From Stdlib Require Import Permutation Sorted.
Import ListNotations.

Local Open Scope list_scope.
Local Open Scope Z_scope.
Local Open Scope string_scope.

(** ** Strings *)

Module Str.

Definition code (c : ascii) : nat := nat_of_ascii c.

(** White space and line terminators stripped by [String.prototype.trim]. *)
Definition isWhiteSpace (c : ascii) : bool :=
  let n := code c in
  (Nat.leb 9 n && Nat.leb n 13) || Nat.eqb n 32.

(** Line terminators: the characters [.] does not match in a regular
    expression without the [s] flag. *)
Definition isLineTerminator (c : ascii) : bool :=
  let n := code c in Nat.eqb n 10 || Nat.eqb n 13.

Fixpoint trimStart (s : string) : string :=
  match s with
  | String c r => if isWhiteSpace c then trimStart r else s
  | EmptyString => EmptyString
  end.

Fixpoint trimEnd (s : string) : string :=
  match s with
  | String c r =>
      let r' := trimEnd r in
      if isWhiteSpace c && (r' =? "")%string then EmptyString
      else String c r'
  | EmptyString => EmptyString
  end.

Definition trim (s : string) : string := trimEnd (trimStart s).

Definition startsWith (s pre : string) : bool := String.prefix pre s.

Definition lowerChar (c : ascii) : ascii :=
  let n := code c in
  if Nat.leb 65 n && Nat.leb n 90 then ascii_of_nat (n + 32) else c.

Definition upperChar (c : ascii) : ascii :=
  let n := code c in
  if Nat.leb 97 n && Nat.leb n 122 then ascii_of_nat (n - 32) else c.

Fixpoint mapChars (f : ascii -> ascii) (s : string) : string :=
  match s with
  | String c r => String (f c) (mapChars f r)
  | EmptyString => EmptyString
  end.

Definition toLowerCase : string -> string := mapChars lowerChar.
Definition toUpperCase : string -> string := mapChars upperChar.

Fixpoint drop (n : nat) (s : string) : string :=
  match n, s with
  | S k, String _ r => drop k r
  | _, _ => s
  end.

(** [s.substr(1)] *)
Definition substr1 (s : string) : string := drop 1 s.

(** [s.split(sep)] for a non-empty separator.  [skip] counts the
    characters of a separator occurrence still to be stepped over and
    [cur] is the segment collected so far. *)
Fixpoint split_go (sep : string) (skip : nat) (cur s : string) : list string :=
  match s with
  | EmptyString => [cur]
  | String c r =>
      match skip with
      | S k => split_go sep k cur r
      | O =>
          if String.prefix sep s
          then cur :: split_go sep (String.length sep - 1) "" r
          else split_go sep 0 (cur ++ String c "") r
      end
  end.

Definition split (s sep : string) : list string := split_go sep 0 "" s.

(** [s.replace(/pat/g, by)] for a literal, non-empty pattern. *)
Fixpoint replace_go (pat by_ : string) (skip : nat) (s : string) : string :=
  match s with
  | EmptyString => EmptyString
  | String c r =>
      match skip with
      | S k => replace_go pat by_ k r
      | O =>
          if String.prefix pat s
          then by_ ++ replace_go pat by_ (String.length pat - 1) r
          else String c (replace_go pat by_ 0 r)
      end
  end.

Definition replaceAll (s pat by_ : string) : string := replace_go pat by_ 0 s.

Fixpoint repeat (c : ascii) (n : nat) : string :=
  match n with
  | O => EmptyString
  | S k => String c (repeat c k)
  end.

(** [s.padStart(n, c)] with a one-character filler. *)
Definition padStart (s : string) (n : nat) (c : ascii) : string :=
  repeat c (n - String.length s) ++ s.

(** [arr.join(sep)] on an array of strings. *)
Definition join (l : list string) (sep : string) : string := String.concat sep l.

(** Decimal rendering of an integer, as [Number.prototype.toString]
    gives for integral values. *)
Definition ofZ (z : Z) : string := NilZero.string_of_int (Z.to_int z).

Definition ofNat (n : nat) : string := ofZ (Z.of_nat n).

(** [s.includes(sub)] *)
Fixpoint includes (s sub : string) : bool :=
  String.prefix sub s
  || match s with
     | String _ r => includes r sub
     | EmptyString => false
     end.

(** Characters and strings with no literal of their own. *)
Definition dquote : ascii := ascii_of_nat 34.
Definition LF : string := String (ascii_of_nat 10) EmptyString.
Definition CRLF : string := String (ascii_of_nat 13) LF.

(** [s] between double quotes. *)
Definition quoted (s : string) : string :=
  String dquote (s ++ String dquote EmptyString).

(** [a || b] on strings that may be [undefined]: the empty string is falsy. *)
Definition orElse (a : option string) (b : string) : string :=
  match a with
  | Some s => if (s =? "")%string then b else s
  | None => b
  end.

End Str.


(** ** Numbers *)

Module Num.

Local Open Scope Z_scope.

Inductive number : Type :=
| NaN
| PInf
| NInf
| Fin (q : Q).

Definition Qltb (x y : Q) : bool := negb (Qle_bool y x).

(** An integer as a number; used below [2^53] only, where every
    integer is a double. *)
Definition ofZ (z : Z) : number := Fin (inject_Z z).

Definition neg (a : number) : number :=
  match a with
  | NaN => NaN
  | PInf => NInf
  | NInf => PInf
  | Fin x => Fin (- x)
  end.

(** *** Rounding

    A finite number of the program is a double: a multiple of
    [2^-1074] with at most 53 significant bits, below [2^1024] in
    magnitude.  The sum, the difference and the quotient of two
    doubles, and the number read from a numeral, are the exact results
    rounded to the nearest double, ties to the even one, with gradual
    underflow and overflow to an infinity.  [Fin q] carries the exact
    value [q] of the double.  The two zeros are one value here: the
    program prints numbers through [x|0] only and never divides by
    zero, so that it cannot tell them apart. *)

(** Nearest integer, ties to the even one. *)
Definition rne (r : Q) : Z :=
  let f := Qfloor r in
  match (r - inject_Z f ?= 1 # 2)%Q with
  | Lt => f
  | Gt => f + 1
  | Eq => if Z.even f then f else f + 1
  end.

(** Doubles are counted in units of [2^-1074], the smallest positive
    one.  A non-negative [x] of [n] bits before the point, in units,
    lies where consecutive doubles are [2 ^ (n - 53)] units apart
    (one unit apart up to 53 bits: the subnormal range and the first
    normal binade). *)
Definition units : positive := 2 ^ 1074.

Definition ulpExp (x : Q) : Z := Z.max 0 (Z.log2 (Qfloor x) - 52).

Definition nearest (x : Q) : Z :=
  let e := ulpExp x in rne (x / inject_Z (2 ^ e)) * 2 ^ e.

(** The double of [k] units; [2^1024] and above is out of range. *)
Definition ofUnits (k : Z) : number :=
  if 2 ^ 2098 <=? k then PInf else Fin (Qred (k # units)).

Definition round (q : Q) : number :=
  match (q ?= 0)%Q with
  | Eq => Fin 0
  | Gt => ofUnits (nearest (q * inject_Z (Zpos units)))
  | Lt => neg (ofUnits (nearest (- q * inject_Z (Zpos units))))
  end.

(** A value on the grid of the doubles; every result of [round] is. *)
Definition double (a : number) : Prop :=
  match a with
  | Fin q => exists k : Z, (q == k # units)%Q
  | _ => True
  end.

Definition add (a b : number) : number :=
  match a, b with
  | NaN, _ | _, NaN => NaN
  | PInf, NInf | NInf, PInf => NaN
  | PInf, _ | _, PInf => PInf
  | NInf, _ | _, NInf => NInf
  | Fin x, Fin y => round (x + y)
  end.

Definition sub (a b : number) : number := add a (neg b).

(** Division.  No call site of the program divides by zero (the sample
    rate is tested first and the other divisor is 60); the zero divisor
    is read as [+0]. *)
Definition div (a b : number) : number :=
  match a, b with
  | NaN, _ | _, NaN => NaN
  | PInf, Fin y => if Qltb y 0 then NInf else PInf
  | NInf, Fin y => if Qltb y 0 then PInf else NInf
  | Fin _, PInf | Fin _, NInf => Fin 0
  | Fin x, Fin y =>
      if Qeq_bool y 0
      then (if Qeq_bool x 0 then NaN else if Qltb x 0 then NInf else PInf)
      else round (x / y)
  | _, _ => NaN
  end.

(** Integral part, rounding toward zero. *)
Definition trunc (q : Q) : Z := Z.quot (Qnum q) (Zpos (Qden q)).

(** The remainder operator [%]: the result has the sign of the dividend.
    The remainder of two doubles is a double, so that nothing is
    rounded. *)
Definition rem (a b : number) : number :=
  match a, b with
  | Fin x, Fin y =>
      if Qeq_bool y 0 then NaN
      else Fin (x - y * inject_Z (trunc (x / y)))
  | Fin x, PInf | Fin x, NInf => Fin x
  | _, _ => NaN
  end.

Definition wrap32 (z : Z) : Z :=
  let m := z mod 2 ^ 32 in
  if m >=? 2 ^ 31 then m - 2 ^ 32 else m.

(** [x|0] on a number. *)
Definition ToInt32 (a : number) : Z :=
  match a with
  | Fin q => wrap32 (trunc q)
  | _ => 0
  end.

(** [ToBoolean] on a number: what [!x] and [x ? .. : ..] test. *)
Definition truthy (a : number) : bool :=
  match a with
  | NaN => false
  | Fin q => negb (Qeq_bool q 0)
  | _ => true
  end.

(** Strictly positive: what [Array.prototype.sort] asks of a comparator
    result to put the second argument first. *)
Definition positive (a : number) : bool :=
  match a with
  | PInf => true
  | Fin q => Qltb 0 q
  | _ => false
  end.

(** Numeric order and equality on the numbers that have one; [NaN]
    compares with nothing. *)
Definition le (a b : number) : Prop :=
  match a, b with
  | NaN, _ | _, NaN => False
  | NInf, _ | _, PInf => True
  | Fin x, Fin y => (x <= y)%Q
  | _, _ => False
  end.

Definition eqb (a b : number) : bool :=
  match a, b with
  | PInf, PInf | NInf, NInf => true
  | Fin x, Fin y => Qeq_bool x y
  | _, _ => false
  end.

(** *** String to number *)

Definition digitVal (base : Z) (c : ascii) : option Z :=
  let n := Z.of_nat (Str.code c) in
  let v :=
    if (48 <=? n) && (n <=? 57) then Some (n - 48)
    else if (97 <=? n) && (n <=? 102) then Some (n - 87)
    else if (65 <=? n) && (n <=? 70) then Some (n - 55)
    else None in
  match v with
  | Some d => if d <? base then Some d else None
  | None => None
  end.

(** Value of a string made of digits of [base] only. *)
Fixpoint digits (base acc : Z) (s : string) : option Z :=
  match s with
  | EmptyString => Some acc
  | String c r =>
      match digitVal base c with
      | Some d => digits base (acc * base + d) r
      | None => None
      end
  end.

(** [0x..], [0o..], [0b..] literals. *)
Definition nonDecimal (s : string) : option Z :=
  match s with
  | String "0" (String p (String _ _ as r)) =>
      if (p =? "x")%char || (p =? "X")%char then digits 16 0 r
      else if (p =? "o")%char || (p =? "O")%char then digits 8 0 r
      else if (p =? "b")%char || (p =? "B")%char then digits 2 0 r
      else None
  | _ => None
  end.

Definition isDigit (c : ascii) : bool :=
  match digitVal 10 c with Some _ => true | None => false end.

(** Longest prefix of decimal digits, and what follows it. *)
Fixpoint spanDigits (s : string) : string * string :=
  match s with
  | String c r =>
      if isDigit c then let (d, t) := spanDigits r in (String c d, t)
      else (EmptyString, s)
  | EmptyString => (EmptyString, EmptyString)
  end.

Definition decValue (d : string) : Z :=
  match digits 10 0 d with Some v => v | None => 0 end.

(** What may follow the mantissa: nothing, or [e], an optional sign and
    at least one digit. *)
Definition exponentPart (s : string) : option Z :=
  match s with
  | EmptyString => Some 0
  | String e r =>
      if (e =? "e")%char || (e =? "E")%char then
        let (sgn, r') :=
          match r with
          | String "+" t => (1, t)
          | String "-" t => (-1, t)
          | _ => (1, r)
          end in
        match r' with
        | EmptyString => None
        | _ => option_map (Z.mul sgn) (digits 10 0 r')
        end
      else None
  end.

Definition unsignedDecimal (s : string) : option Q :=
  let (ip, r1) := spanDigits s in
  let (fp, r2) :=
    match r1 with
    | String "." t => spanDigits t
    | _ => (EmptyString, r1)
    end in
  if (ip =? "")%string && (fp =? "")%string then None
  else
    match exponentPart r2 with
    | Some e =>
        Some (Qred ((inject_Z (decValue (ip ++ fp))
                     / inject_Z (10 ^ Z.of_nat (String.length fp)))
                    * Qpower (inject_Z 10) e))
    | None => None
    end.

(** [ToNumber] on a string: what unary [+] and [|0] apply to a
    string.  The value of the numeral is rounded to a double: a numeral
    too small reads as zero and one too large as an infinity. *)
Definition ofString (s : string) : number :=
  let t := Str.trim s in
  if (t =? "")%string then Fin 0
  else
    match nonDecimal t with
    | Some v => round (inject_Z v)
    | None =>
        let (negative, u) :=
          match t with
          | String "+" r => (false, r)
          | String "-" r => (true, r)
          | _ => (false, t)
          end in
        if (u =? "Infinity")%string then (if negative then NInf else PInf)
        else
          match unsignedDecimal u with
          | Some q => round (if negative then - q else q)
          | None => NaN
          end
    end.

(** [ToNumber] on a value that is a string or [undefined] ([None]). *)
Definition ofValue (v : option string) : number :=
  match v with
  | Some s => ofString s
  | None => NaN
  end.

End Num.


(** ** Exceptions *)

Inductive error : Type := TypeError.

Inductive result (A : Type) : Type :=
| Ok (a : A)
| Throw (e : error).

Arguments Ok {A} a.
Arguments Throw {A} e.

Definition bind {A B : Type} (c : result A) (k : A -> result B) : result B :=
  match c with
  | Ok a => k a
  | Throw e => Throw e
  end.

Notation "x <- c ;; k" := (bind c (fun x => k))
  (at level 61, c at next level, right associativity).

(** ** Field extractor *)

(** The eight patterns all have the shape [/prefix(.*?)stop/]: a literal
    prefix, a lazy capture of characters other than line terminators,
    and one closing character. *)
Record regexp : Type := { rx_prefix : string; rx_stop : ascii }.

Definition attribute (key : string) : regexp :=
  {| rx_prefix := key ++ "=" ++ String Str.dquote EmptyString;
     rx_stop := Str.dquote |}.

Definition rxSampleRate : regexp := attribute "sampleRate".
Definition rxTrackName : regexp := {| rx_prefix := ">"; rx_stop := "<" |}.
Definition rxPath : regexp := attribute "absolutePath".
Definition rxName : regexp := attribute "name".
Definition rxId : regexp := attribute "id".
Definition rxStartPoint : regexp := attribute "startPoint".
Definition rxEndPoint : regexp := attribute "endPoint".
Definition rxFileId : regexp := attribute "fileID".

(** [(.*?)stop] from the head of [s]: the capture ends at the first
    [stop]; a line terminator before it makes the attempt fail. *)
Fixpoint lazyUntil (stop : ascii) (s : string) : option string :=
  match s with
  | EmptyString => None
  | String c r =>
      if (c =? stop)%char then Some EmptyString
      else if Str.isLineTerminator c then None
      else option_map (String c) (lazyUntil stop r)
  end.

Definition matchAt (rx : regexp) (s : string) : option string :=
  if String.prefix (rx_prefix rx) s
  then lazyUntil (rx_stop rx) (Str.drop (String.length (rx_prefix rx)) s)
  else None.

(** [rx.exec(str)], reduced to its first capture group: the leftmost
    position where the pattern matches. *)
Fixpoint exec (rx : regexp) (s : string) : option string :=
  match matchAt rx s with
  | Some v => Some v
  | None =>
      match s with
      | String _ r => exec rx r
      | EmptyString => None
      end
  end.

(** [getRX(rx, str)]; [None] is [undefined].  None of the patterns has
    the [g] or [y] flag, so [exec] always starts at index 0 and the
    [lastIndex] the source bumps is never read. *)
Definition getRX (rx : regexp) (str : string) : option string := exec rx str.

(** ** Data model *)

(** [track_name] is [None] when the assigned value is [undefined]. *)
Record track : Type :=
  { track_name : option string; track_line : nat; track_clips : list nat }.

(** [file_id] is [None] for [null]. *)
Record file : Type := { file_path : string; file_id : option string }.

(** [path] is [None] for [null]. *)
Record entry : Type :=
  { startPoint : Num.number; duration : Num.number;
    path : option string; name : string }.

(** The mutable variables of the scanning loop.  [_track] refers to an
    object that is also an element of [tracks]; it is kept as the index
    of that element, so that a write through [_track] is a write into
    [tracks]. *)
Record scanner : Type :=
  { tracks : list track; files : list file; sampleRate : Num.number;
    _track : option nat; _name : bool }.

Definition scanner0 : scanner :=
  {| tracks := []; files := []; sampleRate := Num.ofZ 0;
     _track := None; _name := false |}.

Fixpoint update {A : Type} (k : nat) (f : A -> A) (l : list A) : list A :=
  match l, k with
  | [], _ => []
  | x :: r, O => f x :: r
  | x :: r, S k' => x :: update k' f r
  end.

Definition setName (v : option string) (t : track) : track :=
  {| track_name := v; track_line := track_line t; track_clips := track_clips t |}.

Definition pushClip (i : nat) (t : track) : track :=
  {| track_name := track_name t; track_line := track_line t;
     track_clips := (track_clips t ++ [i])%list |}.

(** ** Record scanner (lines 81 to 98) *)

Definition scanLine (st : scanner) (i : nat) (raw : string) : result scanner :=
  let line := Str.trim raw in
  if Str.startsWith line "<audioTrack " then
    Ok {| tracks := (tracks st ++
                     [{| track_name := Some EmptyString; track_line := i;
                         track_clips := [] |}])%list;
          files := files st; sampleRate := sampleRate st;
          _track := Some (List.length (tracks st)); _name := false |}
  else if negb (_name st) && Str.startsWith line "<name>" then
    match _track st with
    | Some k =>
        Ok {| tracks := update k (setName (getRX rxTrackName line)) (tracks st);
              files := files st; sampleRate := sampleRate st;
              _track := _track st; _name := true |}
    | None => Throw TypeError
    end
  else
    match _track st, Str.startsWith line "<audioClip " with
    | Some k, true =>
        Ok {| tracks := update k (pushClip i) (tracks st);
              files := files st; sampleRate := sampleRate st;
              _track := _track st; _name := _name st |}
    | _, _ =>
        if Str.startsWith line "<file " then
          let id :=
            match getRX rxId line with
            | Some s => if (s =? "")%string then None else Some s
            | None => None
            end in
          match getRX rxPath line with
          | Some p =>
              if (p =? "")%string then Ok st
              else
                Ok {| tracks := tracks st;
                      files := (files st ++ [{| file_path := p; file_id := id |}])%list;
                      sampleRate := sampleRate st;
                      _track := _track st; _name := _name st |}
          | None => Ok st
          end
        else if Str.startsWith line "<session " then
          Ok {| tracks := tracks st; files := files st;
                sampleRate := Num.ofValue (getRX rxSampleRate line);
                _track := _track st; _name := _name st |}
        else Ok st
    end.

Fixpoint scanFrom (st : scanner) (i : nat) (lines : list string) : result scanner :=
  match lines with
  | [] => Ok st
  | l :: r => st' <- scanLine st i l ;; scanFrom st' (S i) r
  end.

Definition scan (sesx : list string) : result scanner := scanFrom scanner0 0 sesx.

(** ** Signature check (line 56): [true] when the file is refused.
    [sesx[0]] always exists; [sesx[1]] is [undefined] in a one-line
    file and [.trim()] on it throws. *)
Definition notValid (sesx : list string) : result bool :=
  if Str.startsWith (Str.toLowerCase (Str.trim (nth 0 sesx EmptyString))) "<?xml"
  then Ok false
  else
    match nth_error sesx 1 with
    | Some l1 => Ok (negb (Str.startsWith (Str.trim l1) "<!DOCTYPE sesx>"))
    | None => Throw TypeError
    end.

(** ** Playlist builder (lines 115 to 130) *)

(** [f.id === id]: [f.id] is a string or [null], [id] a string or
    [undefined]; only two equal strings are strictly equal. *)
Definition sameId (fid id : option string) : bool :=
  match fid, id with
  | Some a, Some b => (a =? b)%string
  | _, _ => false
  end.

Fixpoint getFilePathById (fs : list file) (id : option string) : option string :=
  match fs with
  | [] => None
  | f :: r => if sameId (file_id f) id then Some (file_path f) else getFilePathById r id
  end.

(** [sesx[i]] as the string [exec] sees: [undefined] reads as its name. *)
Definition lineAt (sesx : list string) (i : nat) : string :=
  match nth_error sesx i with
  | Some l => l
  | None => "undefined"
  end.

(** Body of the inner loop: the entry of the clip on line [i]. *)
Definition clipEntry (sesx : list string) (fs : list file) (rate : Num.number)
    (i : nat) : entry :=
  let line := lineAt sesx i in
  let fileID := getRX rxFileId line in
  let start := Num.div (Num.ofValue (getRX rxStartPoint line)) rate in
  let endPoint := Num.div (Num.ofValue (getRX rxEndPoint line)) rate in
  {| startPoint := start;
     duration := Num.sub endPoint start;
     path := getFilePathById fs fileID;
     name := Str.orElse (getRX rxName line) EmptyString |}.

(** [tracks[t]] for an int32 [t]. *)
Definition trackAt (ts : list track) (t : Z) : option track :=
  if (t <? 0)%Z then None else nth_error ts (Z.to_nat t).

(** [(options.track || '0').split(',').map(e => e|0)] *)
Definition selection (trackOpt : option string) : list Z :=
  map (fun e => Num.ToInt32 (Num.ofString e)) (Str.split (Str.orElse trackOpt "0") ",").

Definition noTrack (t : Z) : string := "Project has no track " ++ Str.ofZ t.

(** One round of the outer loop: the lines logged and the entries pushed. *)
Definition buildTrack (sesx : list string) (st : scanner) (t : Z)
    : list string * list entry :=
  match trackAt (tracks st) t with
  | Some tr => ([], map (clipEntry sesx (files st) (sampleRate st)) (track_clips tr))
  | None => ([noTrack t], [])
  end.

Definition build (sesx : list string) (st : scanner) (sel : list Z)
    : list string * list entry :=
  let rounds := map (buildTrack sesx st) sel in
  (List.concat (map fst rounds), List.concat (map snd rounds)).

(** [(a, b) => a.startPoint - b.startPoint] *)
Definition byStart (a b : entry) : Num.number :=
  Num.sub (startPoint a) (startPoint b).

(** [Array.prototype.sort].  For a consistent comparator the language
    fixes the result: the stable sort, computed here by stable
    insertion.  [byStart] is consistent on entries whose start points
    are numbers.  When it returns [NaN] for some pair the order is left
    to the engine; [sort] then still gives a rearrangement of the
    entries, which need not be the engine's, and the properties below
    that speak of the order assume start points that are numbers. *)
Fixpoint insert {A : Type} (cmp : A -> A -> Num.number) (x : A) (l : list A) : list A :=
  match l with
  | [] => [x]
  | y :: r => if Num.positive (cmp x y) then y :: insert cmp x r else x :: l
  end.

Definition sort {A : Type} (cmp : A -> A -> Num.number) (l : list A) : list A :=
  fold_right (insert cmp) [] l.

(** ** Command line and host primitives *)

(** [options] as commander leaves it: an option that was not given is
    [undefined] ([None]); [args] are the positional arguments. *)
Record options : Type :=
  { opt_track : option string; opt_source : option string;
    opt_delta : option string; opt_info : bool; args : list string }.

(** The host functions the script calls, on string arguments.
    [readFileSync] gives [None] and [writeFileSync] gives [false] when
    the call throws. *)
Record Host : Type :=
  { Path_basename : string -> string;
    Path_extname : string -> string;
    Path_join : string -> string -> string;
    Path_win32_basename : string -> string;
    readFileSync : string -> option string;
    writeFileSync : string -> string -> bool }.

(** [const delta = options.delta|0] (line 75) *)
Definition delta (opts : options) : Num.number :=
  Num.ofZ (Num.ToInt32 (Num.ofValue (opt_delta opts))).

(** ** Renderers *)

Definition toCueTS (t : Num.number) : string :=
  let min := Str.ofZ (Num.ToInt32 (Num.div t (Num.ofZ 60))) in
  let sec := Str.ofZ (Num.ToInt32 (Num.rem t (Num.ofZ 60))) in
  Str.padStart min 2 "0" ++ ":" ++ Str.padStart sec 2 "0" ++ ":00".

(** [toCueTS(e.startPoint + delta)] (line 167) *)
Definition cueIndex (d : Num.number) (e : entry) : string :=
  toCueTS (Num.add (startPoint e) d).

(** [e.name.split(' - ').map(e => e ? e.trim() : '')] *)
Definition nameParts (n : string) : list string :=
  map (fun p => if (p =? "")%string then EmptyString else Str.trim p)
      (Str.split n " - ").

Definition unescapeAmp (s : string) : string := Str.replaceAll s "&amp;" "&".

(** Body of the loop of [makeCue] for the entry at index [i].  With
    fewer than two parts [title] is [undefined] and [title.replace]
    throws. *)
Definition cueTrack (d : Num.number) (i : nat) (e : entry) : result (list string) :=
  match nameParts (name e) with
  | artist :: title :: _ =>
      Ok [ "  TRACK " ++ Str.padStart (Str.ofNat (i + 1)) 2 "0" ++ " AUDIO";
           "    TITLE " ++ Str.quoted (unescapeAmp title);
           "    PERFORMER " ++ Str.quoted (unescapeAmp artist);
           "    INDEX 01 " ++ cueIndex d e ]
  | _ => Throw TypeError
  end.

Fixpoint cueTracks (d : Num.number) (i : nat) (playlist : list entry)
    : result (list string) :=
  match playlist with
  | [] => Ok []
  | e :: r =>
      ls <- cueTrack d i e ;;
      rest <- cueTracks d (S i) r ;;
      Ok (ls ++ rest)%list
  end.

Definition makeCue (h : Host) (opts : options) (playlist : list entry)
    : result string :=
  let src := Path_basename h (Str.orElse (opt_source opts) "INSERT-FILENAME-TO-SOURCE.mp3") in
  let type := Str.toUpperCase (Str.substr1 (Path_extname h src)) in
  let head :=
    [ "PERFORMER " ++ Str.quoted "sesx2pl";
      "TITLE " ++ Str.quoted "Playlist";
      "FILE " ++ Str.quoted src ++ " " ++ type ] in
  body <- cueTracks (delta opts) 0 playlist ;;
  Ok (Str.join (head ++ body ++ [EmptyString])%list Str.CRLF).

(** [subs ? Path.join(subs, Path.win32.basename(e.path)) : e.path];
    the path primitive throws on [null].  The result is [None] for a
    [null] pushed as it is. *)
Definition m3uPath (h : Host) (subs : option string) (e : entry)
    : result (option string) :=
  match subs with
  | Some dir =>
      if (dir =? "")%string then Ok (path e)
      else
        match path e with
        | Some p => Ok (Some (Path_join h dir (Path_win32_basename h p)))
        | None => Throw TypeError
        end
  | None => Ok (path e)
  end.

(** The EXTINF line as line 181 writes it. *)
Definition extinf (e : entry) : string :=
  "#EXTINF:" ++ Str.ofZ (Num.ToInt32 (duration e)) ++ ",e.name".

(** The two lines one entry adds; [join] prints [null] as nothing. *)
Definition m3uEntry (h : Host) (subs : option string) (e : entry)
    : result (list string) :=
  p <- m3uPath h subs e ;;
  Ok [ extinf e; match p with Some s => s | None => EmptyString end ].

Fixpoint m3uEntries (h : Host) (subs : option string) (playlist : list entry)
    : result (list string) :=
  match playlist with
  | [] => Ok []
  | e :: r =>
      ls <- m3uEntry h subs e ;;
      rest <- m3uEntries h subs r ;;
      Ok (ls ++ rest)%list
  end.

Definition makeM3U (h : Host) (opts : options) (playlist : list entry)
    : result string :=
  body <- m3uEntries h (opt_source opts) playlist ;;
  Ok (Str.join (["#EXTM3U"] ++ body ++ [EmptyString])%list Str.CRLF).

(** ** Info reporter (lines 105 to 112) *)

Definition trackNames (ts : list track) : string :=
  Str.join (map (fun t => match track_name t with Some s => s | None => EmptyString end) ts) ", ".

Fixpoint entryCounts (i : nat) (ts : list track) : list string :=
  match ts with
  | [] => []
  | t :: r =>
      ("  # of entries in track " ++ Str.ofNat i ++ ": "
       ++ Str.ofNat (List.length (track_clips t))) :: entryCounts (S i) r
  end.

Definition report (ts : list track) : list string :=
  let head :=
    [ "Audition sesx information:" ++ Str.LF;
      "Number of tracks: " ++ Str.ofNat (List.length ts)
        ++ " - (" ++ trackNames ts ++ ")" ] in
  (head ++ entryCounts 0 ts ++ [EmptyString])%list.

(** ** The script *)

(** How the process ends: the script returned or ran to its last
    line, commander showed its help text and exited, or an exception
    was not caught. *)
Inductive status : Type :=
| Completed
| Usage
| Uncaught (e : error).

(** What a run leaves behind: the lines sent to the console, the file
    written if any, and how the process ended. *)
Record outcome : Type :=
  { stdout : list string; written : option (string * string); exit : status }.

Definition msgNoOpen : string := "Could not open sesx infile." ++ Str.LF.
Definition msgNotValid : string := "Not a valid Audition sesx file." ++ Str.LF.
Definition msgNoRate : string := "Could not detect sample rate.".
Definition msgNoWrite : string := "Error: Could not write to out file!".
Definition msgDone : string := "Done." ++ Str.LF.

Definition extOf (h : Host) (p : string) : string :=
  Str.toLowerCase (Path_extname h p).

(** Lines 42 to 45: [true] when the help text is shown instead. *)
Definition badArgs (h : Host) (a : list string) : bool :=
  match a with
  | a0 :: a1 :: _ =>
      negb (extOf h a0 =? ".sesx")%string
      || (negb (extOf h a1 =? ".m3u")%string && negb (extOf h a1 =? ".cue")%string)
  | _ => true
  end.

(** Lines 137 and 138; [None] is the [undefined] of an unassigned
    [data], which the test of lines 42 to 45 excludes. *)
Definition render (h : Host) (opts : options) (outfile : string)
    (playlist : list entry) : result (option string) :=
  if (extOf h outfile =? ".cue")%string then
    d <- makeCue h opts playlist ;; Ok (Some d)
  else if (extOf h outfile =? ".m3u")%string then
    d <- makeM3U h opts playlist ;; Ok (Some d)
  else Ok None.

(** Lines 140 to 149.  A write that throws is caught and reported; the
    write of an [undefined] is taken to throw. *)
Definition save (h : Host) (log : list string) (outfile : string)
    (data : option string) : outcome :=
  let saving := "Saving to: " ++ outfile in
  let log := (log ++ [saving])%list in
  match data with
  | Some d =>
      if writeFileSync h outfile d
      then {| stdout := (log ++ [msgDone])%list;
              written := Some (outfile, d); exit := Completed |}
      else {| stdout := (log ++ [msgNoWrite; msgDone])%list;
              written := None; exit := Completed |}
  | None => {| stdout := (log ++ [msgNoWrite; msgDone])%list;
               written := None; exit := Completed |}
  end.

Definition stop (log : list string) (s : status) : outcome :=
  {| stdout := log; written := None; exit := s |}.

(** Lines 100 to 149, once the scan has returned. *)
Definition convert (h : Host) (opts : options) (sesx : list string)
    (st : scanner) (outfile : string) : outcome :=
  if negb (Num.truthy (sampleRate st)) then stop [EmptyString; msgNoRate] Completed
  else if opt_info opts then stop (EmptyString :: report (tracks st)) Completed
  else
    let (warnings, raw) := build sesx st (selection (opt_track opts)) in
    let playlist := sort byStart raw in
    match render h opts outfile playlist with
    | Ok data => save h (EmptyString :: warnings) outfile data
    | Throw e => stop (EmptyString :: warnings) (Uncaught e)
    end.

(** Lines 56 to 98 and on, once the file has been read. *)
Definition process (h : Host) (opts : options) (sesx : list string)
    (outfile : string) : outcome :=
  match notValid sesx with
  | Ok true => stop [EmptyString; msgNotValid] Completed
  | Ok false =>
      match scan sesx with
      | Ok st => convert h opts sesx st outfile
      | Throw e => stop [EmptyString] (Uncaught e)
      end
  | Throw e => stop [EmptyString] (Uncaught e)
  end.

Definition main (h : Host) (opts : options) : outcome :=
  if badArgs h (args opts) then stop [EmptyString] Usage
  else
    match args opts with
    | infile :: outfile :: _ =>
        match readFileSync h infile with
        | Some text => process h opts (Str.split text Str.LF) outfile
        | None => stop [EmptyString; msgNoOpen] Completed
        end
    | _ => stop [EmptyString] Usage
    end.

(** ** An example host and session

    Used to run the script on concrete inputs.  The path functions are
    those of plain file names (no trailing separators, no dot
    segments); the disk holds one readable file and accepts every
    write. *)

Module Sample.

(** What follows the last character satisfying [sep]. *)
Fixpoint afterLast (sep : ascii -> bool) (cur s : string) : string :=
  match s with
  | EmptyString => cur
  | String c r =>
      if sep c then afterLast sep EmptyString r
      else afterLast sep (cur ++ String c EmptyString) r
  end.

Definition basename (p : string) : string :=
  afterLast (fun c => (c =? "/")%char) EmptyString p.

Definition win32_basename (p : string) : string :=
  afterLast (fun c => (c =? "/")%char || (c =? "\")%char) EmptyString p.

(** From the last dot on; [None] while no dot was seen. *)
Fixpoint fromLastDot (cur : option string) (s : string) : option string :=
  match s with
  | EmptyString => cur
  | String c r =>
      if (c =? ".")%char then fromLastDot (Some (String c EmptyString)) r
      else fromLastDot (option_map (fun e => e ++ String c EmptyString) cur) r
  end.

Definition extname (p : string) : string :=
  match fromLastDot None (Str.drop 1 (basename p)) with
  | Some e => e
  | None => EmptyString
  end.

Definition join (a b : string) : string := a ++ "/" ++ b.

Definition host (text : string) : Host :=
  {| Path_basename := basename;
     Path_extname := extname;
     Path_join := join;
     Path_win32_basename := win32_basename;
     readFileSync := fun p => if (p =? "in.sesx")%string then Some text else None;
     writeFileSync := fun _ _ => true |}.

(** [ key="value"] *)
Definition attr (key value : string) : string :=
  " " ++ key ++ "=" ++ Str.quoted value.

Definition lines (l : list string) : string := Str.join l Str.LF.

Definition xmlLine : string := "<?xml" ++ attr "version" "1.0" ++ " ?>".

Definition header : list string :=
  [ xmlLine; "<!DOCTYPE sesx>"; "<sesx" ++ attr "version" "1.9" ++ ">" ].

Definition sessionLine (rate : string) : string :=
  "  <session" ++ attr "sampleRate" rate ++ ">".

Definition trackLine (index : string) : string :=
  "    <audioTrack" ++ attr "index" index ++ ">".

Definition nameLine (n : string) : string := "      <name>" ++ n ++ "</name>".

Definition clip (fileID name startPoint endPoint : string) : string :=
  "      <audioClip" ++ attr "fileID" fileID ++ attr "name" name
  ++ attr "startPoint" startPoint ++ attr "endPoint" endPoint ++ "/>".

Definition fileRef (absolutePath id : string) : string :=
  "    <file" ++ attr "absolutePath" absolutePath ++ attr "id" id ++ "/>".

Definition fileRefs : list string :=
  [ fileRef "C:\music\a.wav" "0"; fileRef "C:\music\b.wav" "1" ].

(** One track, two clips, sample rate 44100; the second clip's name
    has no separator. *)
Definition body : list string :=
  ([ sessionLine "44100"; trackLine "1"; nameLine "Track 1";
     clip "0" "Art - Song" "0" "44100";
     clip "1" "X" "88200" "132300" ] ++ fileRefs)%list.

Definition session : string := lines (header ++ body)%list.

(** The same with a separator in both names. *)
Definition duo : string :=
  lines (header ++
         [ sessionLine "44100"; trackLine "1"; nameLine "Track 1";
           clip "0" "Art - Song" "0" "44100";
           clip "1" "X &amp; Y - Z" "88200" "132300" ] ++ fileRefs)%list.

(** Second line is not the DOCTYPE line. *)
Definition noDoctype : string := lines (xmlLine :: "<sesx>" :: body).

(** First line is not the XML declaration. *)
Definition noXml : string := lines ("<sesx>" :: "<!DOCTYPE sesx>" :: body).

(** Neither marker. *)
Definition noMarker : string := lines ("<sesx>" :: "<sesx>" :: body).

(** A sample rate that is not a number. *)
Definition noRate : string :=
  lines (header ++
         [ sessionLine "n/a"; trackLine "1"; nameLine "Track 1";
           clip "0" "Art - Song" "0" "44100" ] ++ fileRefs)%list.

(** A name line ahead of every track header. *)
Definition nameFirst : string :=
  lines (header ++ nameLine "Mix" :: body)%list.

(** A clip whose file id matches no file reference. *)
Definition orphan : string :=
  lines (header ++
         [ sessionLine "44100"; trackLine "1"; nameLine "Track 1";
           clip "7" "Art - Song" "0" "44100" ] ++ fileRefs)%list.

(** Two tracks; two clips start at the same time. *)
Definition mix : string :=
  lines (header ++
         [ sessionLine "44100";
           trackLine "1"; nameLine "A";
           clip "0" "a1" "88200" "132300";
           clip "0" "a2" "0" "44100";
           trackLine "2"; nameLine "B";
           clip "1" "b1" "88200" "132300";
           clip "1" "b2" "44100" "88200" ] ++ fileRefs)%list.

Definition sesxOf (text : string) : list string := Str.split text Str.LF.

Definition scanned (text : string) : scanner :=
  match scan (sesxOf text) with
  | Ok st => st
  | Throw _ => scanner0
  end.

Definition opts (out : string) : options :=
  {| opt_track := None; opt_source := None; opt_delta := None;
     opt_info := false; args := ["in.sesx"; out] |}.

Definition withTrack (t : string) (o : options) : options :=
  {| opt_track := Some t; opt_source := opt_source o; opt_delta := opt_delta o;
     opt_info := opt_info o; args := args o |}.

Definition withSource (s : string) (o : options) : options :=
  {| opt_track := opt_track o; opt_source := Some s; opt_delta := opt_delta o;
     opt_info := opt_info o; args := args o |}.

(** The M3U text and the run that saves it for [session]. *)
Definition m3uOfSession : string :=
  Str.join [ "#EXTM3U";
             "#EXTINF:1,e.name"; "C:\music\a.wav";
             "#EXTINF:1,e.name"; "C:\music\b.wav";
             EmptyString ] Str.CRLF.

Definition savedM3U : outcome :=
  {| stdout := [EmptyString; "Saving to: out.m3u"; msgDone];
     written := Some ("out.m3u", m3uOfSession); exit := Completed |}.

Definition entryAt (start : Num.number) (n : string) : entry :=
  {| startPoint := start; duration := Num.ofZ 1; path := None; name := n |}.

End Sample.

(** ** Reference definitions for the statements *)

(** The selected indices that name a track: positions in the track
    list, counted from zero. *)
Definition inRange (ts : list track) (t : Z) : bool :=
  (0 <=? t)%Z && (t <? Z.of_nat (List.length ts))%Z.

Definition noClips : track :=
  {| track_name := None; track_line := O; track_clips := [] |}.

(** The clip lines of the track at position [t], none out of range. *)
Definition clipsAt (ts : list track) (t : Z) : list nat :=
  if inRange ts t then track_clips (nth (Z.to_nat t) ts noClips) else [].


Definition missing (ts : list track) (t : Z) : bool := negb (inRange ts t).

(** Entries in insertion order: the selected indices in the order
    given, and under each the clips of that track in file order. *)
Definition insertionOrder (sesx : list string) (st : scanner) (sel : list Z)
    : list entry :=
  flat_map
    (fun t => map (clipEntry sesx (files st) (sampleRate st)) (clipsAt (tracks st) t))
    sel.

Definition byStartLe (a b : entry) : Prop := Num.le (startPoint a) (startPoint b).

(** An entry whose start point is a number. *)
Definition numeric (e : entry) : Prop := startPoint e <> Num.NaN.

Definition startsAt (v : Num.number) (e : entry) : bool := Num.eqb (startPoint e) v.

Definition pad2 (z : Z) : string := Str.padStart (Str.ofZ z) 2 "0".

(** [Math.floor] on a finite number. *)
Definition floorOf (a : Num.number) : Z :=
  match a with
  | Num.Fin q => Qfloor q
  | _ => 0%Z
  end.

(** The timestamp of the time [t = start + shift] by the formula
    [floor(t / 60)] and [floor(t % 60)], with the sum, the quotient and
    the remainder of the language. *)
Definition floorTS (start shift : Num.number) : string :=
  let t := Num.add start shift in
  pad2 (floorOf (Num.div t (Num.ofZ 60))) ++ ":"
  ++ pad2 (floorOf (Num.rem t (Num.ofZ 60))) ++ ":00".

(** The delta option as the integer [options.delta|0]. *)
Definition deltaZ (o : options) : Z := Num.ToInt32 (Num.ofValue (opt_delta o)).

Definition withDelta (d : option string) (o : options) : options :=
  {| opt_track := opt_track o; opt_source := opt_source o; opt_delta := d;
     opt_info := opt_info o; args := args o |}.

Definition nullPath (e : entry) : Prop := path e = None.

Definition noSeparator (e : entry) : Prop := Str.includes (name e) " - " = false.

Definition isTrackHeader (raw : string) : bool :=
  Str.startsWith (Str.trim raw) "<audioTrack ".

Definition isNameLine (raw : string) : bool :=
  Str.startsWith (Str.trim raw) "<name>".

Definition aborted : outcome :=
  {| stdout := [EmptyString]; written := None; exit := Uncaught TypeError |}.

(** ** Reference definitions for the scanner *)

Definition isClipLine (raw : string) : bool :=
  Str.startsWith (Str.trim raw) "<audioClip ".

Definition isFileLine (raw : string) : bool :=
  Str.startsWith (Str.trim raw) "<file ".

Definition isSessionLine (raw : string) : bool :=
  Str.startsWith (Str.trim raw) "<session ".

(** The states the five branches of the scanning loop lead to. *)
Definition openTrack (st : scanner) (i : nat) : scanner :=
  {| tracks := (tracks st ++
                [{| track_name := Some EmptyString; track_line := i;
                    track_clips := [] |}])%list;
     files := files st; sampleRate := sampleRate st;
     _track := Some (List.length (tracks st)); _name := false |}.

Definition nameTrack (st : scanner) (k : nat) (v : option string) : scanner :=
  {| tracks := update k (setName v) (tracks st);
     files := files st; sampleRate := sampleRate st;
     _track := _track st; _name := true |}.

Definition addClip (st : scanner) (k i : nat) : scanner :=
  {| tracks := update k (pushClip i) (tracks st);
     files := files st; sampleRate := sampleRate st;
     _track := _track st; _name := _name st |}.

Definition addFile (st : scanner) (p : string) (id : option string) : scanner :=
  {| tracks := tracks st;
     files := (files st ++ [{| file_path := p; file_id := id |}])%list;
     sampleRate := sampleRate st;
     _track := _track st; _name := _name st |}.

Definition setRate (st : scanner) (r : Num.number) : scanner :=
  {| tracks := tracks st; files := files st; sampleRate := r;
     _track := _track st; _name := _name st |}.

(** [getRX(rxId, line) || null] *)
Definition fileIdOf (line : string) : option string :=
  match getRX rxId line with
  | Some s => if (s =? "")%string then None else Some s
  | None => None
  end.

(** Indices, counted from [i], of the lines that satisfy [p]. *)
Fixpoint positions (p : string -> bool) (i : nat) (lines : list string) : list nat :=
  match lines with
  | [] => []
  | l :: r => if p l then i :: positions p (S i) r else positions p (S i) r
  end.

(** Number of clip lines that come after a track header; [opened] tells
    whether a header was already seen. *)
Fixpoint clipLinesAfterHeader (opened : bool) (lines : list string) : nat :=
  match lines with
  | [] => O
  | l :: r =>
      if isTrackHeader l then clipLinesAfterHeader true r
      else if opened && isClipLine l then S (clipLinesAfterHeader opened r)
      else clipLinesAfterHeader opened r
  end.

Definition totalClips (ts : list track) : nat :=
  list_sum (map (fun t => List.length (track_clips t)) ts).

(** The sample rate the session lines leave, starting from [r]. *)
Fixpoint rateOf (r : Num.number) (lines : list string) : Num.number :=
  match lines with
  | [] => r
  | l :: rest =>
      rateOf (if isSessionLine l
              then Num.ofValue (getRX rxSampleRate (Str.trim l))
              else r) rest
  end.

(** [_track] is the last element of [tracks], or nothing when there is none. *)
Definition trackOK (st : scanner) : Prop :=
  match _track st with
  | Some k => S k = List.length (tracks st)
  | None => tracks st = []
  end.

(** Every clip index of [tr] is the index of a clip line below [i] that
    comes after the header of [tr] with no other header in between. *)
Definition clipsOK (sesx : list string) (i : nat) (tr : track) : Prop :=
  Forall
    (fun c =>
       (track_line tr < c < i)%nat
       /\ isClipLine (nth c sesx EmptyString) = true
       /\ forall j, (track_line tr < j <= c)%nat ->
                    isTrackHeader (nth j sesx EmptyString) = false)
    (track_clips tr).

Definition fileOK (f : file) : Prop :=
  file_path f <> EmptyString /\ file_id f <> Some EmptyString.

(** A captured value: no closing character and no line terminator. *)
Fixpoint clean (stop : ascii) (v : string) : bool :=
  match v with
  | EmptyString => true
  | String c r =>
      negb (c =? stop)%char && negb (Str.isLineTerminator c) && clean stop r
  end.

(** The line of a clip whose file id names no file reference. *)
Definition noFileFor (fs : list file) (id : option string) : Prop :=
  Forall (fun f => sameId (file_id f) id = false) fs.

(** What a step that returns has done. *)
Inductive stepped (st : scanner) (i : nat) (l : string) : scanner -> Prop :=
| step_header : isTrackHeader l = true -> stepped st i l (openTrack st i)
| step_name k :
    isNameLine l = true -> _name st = false -> _track st = Some k ->
    stepped st i l (nameTrack st k (getRX rxTrackName (Str.trim l)))
| step_clip k :
    isClipLine l = true -> _track st = Some k -> stepped st i l (addClip st k i)
| step_file p :
    isFileLine l = true -> getRX rxPath (Str.trim l) = Some p -> p <> EmptyString ->
    stepped st i l (addFile st p (fileIdOf (Str.trim l)))
| step_session :
    isSessionLine l = true ->
    stepped st i l (setRate st (Num.ofValue (getRX rxSampleRate (Str.trim l))))
| step_skip :
    isTrackHeader l = false -> isSessionLine l = false ->
    (isClipLine l = true -> _track st = None) ->
    stepped st i l st.

Definition opened (st : scanner) : bool :=
  match _track st with
  | Some _ => true
  | None => false
  end.

(** The file references the file lines give, in order. *)
Fixpoint filesOf (lines : list string) : list file :=
  match lines with
  | [] => []
  | l :: r =>
      if isFileLine l then
        match getRX rxPath (Str.trim l) with
        | Some p =>
            if (p =? "")%string then filesOf r
            else {| file_path := p; file_id := fileIdOf (Str.trim l) |} :: filesOf r
        | None => filesOf r
        end
      else filesOf r
  end.

(** The track [_track] refers to was opened below line [i] and no
    header follows it below [i]. *)
Definition currentOK (sesx : list string) (i : nat) (st : scanner) : Prop :=
  forall k tr, _track st = Some k -> nth_error (tracks st) k = Some tr ->
    (track_line tr < i)%nat
    /\ forall j, (track_line tr < j < i)%nat ->
                 isTrackHeader (nth j sesx EmptyString) = false.

Definition scanInv (sesx : list string) (i : nat) (st : scanner) : Prop :=
  trackOK st /\ currentOK sesx i st /\ Forall (clipsOK sesx i) (tracks st).

(** [p] starts at no position of [a] in the text [a ++ p]: the
    occurrence of [p] after [a] is the leftmost one. *)
Fixpoint noEarlier (p a : string) : bool :=
  match a with
  | EmptyString => true
  | String _ r => negb (String.prefix p (a ++ p)) && noEarlier p r
  end.

(** An entry whose name holds the separator. *)
Definition hasSeparator (e : entry) : Prop := Str.includes (name e) " - " = true.

Definition hasPath (e : entry) : Prop := path e <> None.

Definition cueHead (h : Host) (opts : options) : list string :=
  let src := Path_basename h (Str.orElse (opt_source opts) "INSERT-FILENAME-TO-SOURCE.mp3") in
  [ "PERFORMER " ++ Str.quoted "sesx2pl";
    "TITLE " ++ Str.quoted "Playlist";
    "FILE " ++ Str.quoted src ++ " "
    ++ Str.toUpperCase (Str.substr1 (Path_extname h src)) ].

(** ** Further example inputs *)

Module More.

(** A session with no session line. *)
Definition noSession : string :=
  Sample.lines
    (Sample.header ++
     [ Sample.trackLine "1"; Sample.nameLine "Track 1";
       Sample.clip "0" "Art - Song" "0" "44100" ] ++ Sample.fileRefs)%list.

(** What stands in a clip line before its name attribute. *)
Definition beforeName : string :=
  "      <audioClip" ++ Sample.attr "fileID" "0" ++ " ".

Definition afterName : string :=
  Sample.attr "startPoint" "0" ++ Sample.attr "endPoint" "44100" ++ "/>".

Definition fileA : file := {| file_path := "C:\music\a.wav"; file_id := Some "0" |}.
Definition fileB : file := {| file_path := "C:\music\b.wav"; file_id := Some "1" |}.
Definition fileB' : file := {| file_path := "D:\other\b.wav"; file_id := Some "1" |}.

Definition inOrder : list entry :=
  [ Sample.entryAt (Num.Fin 0) "Art - Song"; Sample.entryAt (Num.Fin 2) "X - Y" ].

Definition infoOpts : options :=
  {| opt_track := None; opt_source := None; opt_delta := None;
     opt_info := true; args := ["in.sesx"; "out.cue"] |}.

(** A track whose second clip has a start point that is not a number,
    between a clip at 5 seconds and a clip at 1 second. *)
Definition gap : string :=
  Sample.lines
    (Sample.header ++
     [ Sample.sessionLine "44100"; Sample.trackLine "1"; Sample.nameLine "Track 1";
       Sample.clip "0" "A - a" "220500" "264600";
       Sample.clip "0" "B - b" "unknown" "44100";
       Sample.clip "1" "C - c" "44100" "88200" ] ++ Sample.fileRefs)%list.

Definition gapEntries : list entry :=
  snd (build (Sample.sesxOf gap) (Sample.scanned gap) (selection None)).

(** A session whose sample rate is too small a numeral for a double. *)
Definition tinyRate : string :=
  Sample.lines
    (Sample.header ++
     [ Sample.sessionLine "1e-400"; Sample.trackLine "1"; Sample.nameLine "Track 1";
       Sample.clip "0" "Art - Song" "0" "44100" ] ++ Sample.fileRefs)%list.

(** A clip from sample 9 to sample 44109, and its entry. *)
Definition offBeat : string :=
  Sample.lines
    (Sample.header ++
     [ Sample.sessionLine "44100"; Sample.trackLine "1"; Sample.nameLine "Track 1";
       Sample.clip "0" "Art - Song" "9" "44109" ] ++ Sample.fileRefs)%list.

Definition offBeatEntry : entry :=
  clipEntry (Sample.sesxOf offBeat) [] (Num.Fin 44100) 6.

(** Options with a delta and a CUE file to write. *)
Definition shifted (d : string) : options :=
  {| opt_track := None; opt_source := None; opt_delta := Some d;
     opt_info := false; args := ["in.sesx"; "out.cue"] |}.

End More.

(** * Properties *)

(** ** Numbers *)

Lemma Qltb_true (x y : Q) : Num.Qltb x y = true <-> (x < y)%Q.
Proof.
  unfold Num.Qltb. rewrite negb_true_iff.
  split; intro H.
  - apply Qnot_le_lt. intro L. apply Qle_bool_iff in L. congruence.
  - apply not_true_is_false. intro L. apply Qle_bool_iff in L.
    exact (Qlt_not_le _ _ H L).
Qed.

Lemma Qltb_false (x y : Q) : Num.Qltb x y = false <-> (y <= x)%Q.
Proof.
  unfold Num.Qltb. rewrite negb_false_iff. apply Qle_bool_iff.
Qed.

Lemma le_trans (a b c : Num.number) : Num.le a b -> Num.le b c -> Num.le a c.
Proof.
  destruct a as [| | |x], b as [| | |y], c as [| | |z]; simpl; auto;
    try contradiction.
  apply Qle_trans.
Qed.

(** ** Rounding *)

Lemma rne_bounds (r : Q) : Qfloor r <= Num.rne r <= Qfloor r + 1.
Proof.
  unfold Num.rne. destruct (_ ?= _)%Q; [destruct (Z.even _)|..]; lia.
Qed.

Lemma Qfloor_bounds (r : Q) :
  (inject_Z (Qfloor r) <= r /\ r < inject_Z (Qfloor r + 1))%Q.
Proof. split; [apply Qfloor_le | apply Qlt_floor]. Qed.

Lemma rne_mono (r s : Q) : (r <= s)%Q -> Num.rne r <= Num.rne s.
Proof.
  intros Hrs.
  pose proof (Qfloor_resp_le _ _ Hrs) as Hf.
  pose proof (rne_bounds r) as Br. pose proof (rne_bounds s) as Bs.
  destruct (Z.eq_dec (Qfloor r) (Qfloor s)) as [E | N]; [| lia].
  unfold Num.rne in *. rewrite <- E in *.
  destruct (r - inject_Z (Qfloor r) ?= 1 # 2)%Q eqn:Cr;
    destruct (s - inject_Z (Qfloor r) ?= 1 # 2)%Q eqn:Cs;
    try (destruct (Z.even (Qfloor r))); try lia; exfalso;
    repeat match goal with
    | H : (_ ?= _)%Q = Eq |- _ => apply <- Qeq_alt in H
    | H : (_ ?= _)%Q = Lt |- _ => apply <- Qlt_alt in H
    | H : (_ ?= _)%Q = Gt |- _ => apply <- Qgt_alt in H
    end; lra.
Qed.

Lemma rne_inject (z : Z) : Num.rne (inject_Z z) = z.
Proof.
  unfold Num.rne. rewrite Qfloor_Z.
  assert (H : (inject_Z z - inject_Z z ?= 1 # 2)%Q = Lt).
  { apply -> Qlt_alt. lra. }
  now rewrite H.
Qed.

Lemma ulpExp_nonneg (x : Q) : 0 <= Num.ulpExp x.
Proof. unfold Num.ulpExp. lia. Qed.

Lemma inject_pow_pos (e : Z) : 0 <= e -> (0 < inject_Z (2 ^ e))%Q.
Proof.
  intros He. replace 0%Q with (inject_Z 0) by reflexivity.
  rewrite <- Zlt_Qlt. apply Z.pow_pos_nonneg; lia.
Qed.

(** Where [ulpExp x] is not zero, [x] has 53 bits in units of
    [2 ^ ulpExp x]: [2 ^ 52 <= x / 2 ^ ulpExp x < 2 ^ 53]. *)
Lemma ulpExp_upper (x : Q) : (x < inject_Z (2 ^ (Num.ulpExp x + 53)))%Q.
Proof.
  destruct (Qfloor_bounds x) as [_ Hx].
  eapply Qlt_le_trans; [exact Hx |].
  rewrite <- Zle_Qle.
  assert (Hlt : Qfloor x < 2 ^ (Num.ulpExp x + 53)).
  { unfold Num.ulpExp.
    destruct (Z_lt_le_dec 0 (Qfloor x)) as [Hp | Hn].
    - apply Z.log2_lt_pow2; lia.
    - assert (0 < 2 ^ (Z.max 0 (Z.log2 (Qfloor x) - 52) + 53))
        by (apply Z.pow_pos_nonneg; lia). lia. }
  lia.
Qed.

Lemma ulpExp_lower (x : Q) :
  0 < Num.ulpExp x -> (inject_Z (2 ^ (Num.ulpExp x + 52)) <= x)%Q.
Proof.
  intros He.
  destruct (Qfloor_bounds x) as [Hx _].
  eapply Qle_trans; [| exact Hx].
  rewrite <- Zle_Qle. unfold Num.ulpExp in *.
  assert (Hl : 52 < Z.log2 (Qfloor x)) by lia.
  assert (Hp : 0 < Qfloor x).
  { destruct (Z_lt_le_dec 0 (Qfloor x)); [assumption |].
    rewrite Z.log2_nonpos in Hl by assumption. lia. }
  replace (Z.max 0 (Z.log2 (Qfloor x) - 52) + 52) with (Z.log2 (Qfloor x)) by lia.
  apply Z.log2_spec. assumption.
Qed.

Lemma ulpExp_mono (x y : Q) : (x <= y)%Q -> Num.ulpExp x <= Num.ulpExp y.
Proof.
  intros Hxy. unfold Num.ulpExp.
  pose proof (Qfloor_resp_le _ _ Hxy) as Hf.
  pose proof (Z.log2_le_mono _ _ Hf). lia.
Qed.

Lemma ulp_le (x : Q) : (1 <= x)%Q -> (inject_Z (2 ^ Num.ulpExp x) <= x)%Q.
Proof.
  intros Hx.
  destruct (Z.eq_dec (Num.ulpExp x) 0) as [E | N].
  - rewrite E. exact Hx.
  - pose proof (ulpExp_nonneg x).
    eapply Qle_trans; [| apply ulpExp_lower; lia].
    rewrite <- Zle_Qle. apply Z.pow_le_mono_r; lia.
Qed.

Lemma Qdiv_le_iff (a b c : Q) : (0 < c)%Q -> (a <= b / c <-> a * c <= b)%Q.
Proof.
  intros Hc. split; intros H.
  - apply Qle_shift_div_l in H || idtac.
    apply (Qmult_le_r _ _ c Hc) in H.
    setoid_replace (b / c * c)%Q with b in H by (field; lra). exact H.
  - apply Qle_shift_div_l; assumption.
Qed.

Lemma Qdiv_lt_iff (a b c : Q) : (0 < c)%Q -> (b / c < a <-> b < a * c)%Q.
Proof.
  intros Hc. split; intros H.
  - apply (Qmult_lt_r _ _ c Hc) in H.
    setoid_replace (b / c * c)%Q with b in H by (field; lra). exact H.
  - apply Qlt_shift_div_r; assumption.
Qed.

Lemma nearest_nonneg (x : Q) : (0 <= x)%Q -> 0 <= Num.nearest x.
Proof.
  intros Hx. unfold Num.nearest.
  pose proof (ulpExp_nonneg x) as He.
  pose proof (inject_pow_pos _ He) as Hp.
  apply Z.mul_nonneg_nonneg; [| apply Z.pow_nonneg; lia].
  etransitivity; [| apply rne_bounds].
  assert (H0 : (inject_Z 0 <= x / inject_Z (2 ^ Num.ulpExp x))%Q).
  { apply Qdiv_le_iff; [assumption |]. change (inject_Z 0) with 0%Q. lra. }
  apply Qfloor_resp_le in H0. now rewrite Qfloor_Z in H0.
Qed.

Lemma nearest_pos (x : Q) : (1 <= x)%Q -> 1 <= Num.nearest x.
Proof.
  intros Hx. unfold Num.nearest.
  pose proof (ulpExp_nonneg x) as He.
  pose proof (inject_pow_pos _ He) as Hp.
  assert (H1 : 1 <= Num.rne (x / inject_Z (2 ^ Num.ulpExp x))).
  { etransitivity; [| apply rne_bounds].
    assert (H0 : (inject_Z 1 <= x / inject_Z (2 ^ Num.ulpExp x))%Q).
    { apply Qdiv_le_iff; [assumption |].
      pose proof (ulp_le x Hx). change (inject_Z 1) with 1%Q. lra. }
    apply Qfloor_resp_le in H0. now rewrite Qfloor_Z in H0. }
  assert (H2 : 1 <= 2 ^ Num.ulpExp x) by (pose proof (Z.pow_pos_nonneg 2 (Num.ulpExp x)); lia).
  nia.
Qed.

Lemma nearest_upper (x : Q) : (0 <= x)%Q -> Num.nearest x <= 2 ^ (Num.ulpExp x + 53).
Proof.
  intros Hx. unfold Num.nearest.
  pose proof (ulpExp_nonneg x) as He.
  pose proof (inject_pow_pos _ He) as Hp.
  rewrite Z.pow_add_r by lia. rewrite (Z.mul_comm (2 ^ Num.ulpExp x)).
  apply Z.mul_le_mono_nonneg_r; [apply Z.pow_nonneg; lia |].
  rewrite <- (rne_inject (2 ^ 53)). apply rne_mono.
  apply Qlt_le_weak, Qdiv_lt_iff; [assumption |].
  rewrite <- inject_Z_mult, <- Z.pow_add_r, Z.add_comm by lia.
  apply ulpExp_upper.
Qed.

Lemma nearest_lower (x : Q) : 0 < Num.ulpExp x -> 2 ^ (Num.ulpExp x + 52) <= Num.nearest x.
Proof.
  intros He. unfold Num.nearest.
  pose proof (inject_pow_pos (Num.ulpExp x) (Z.lt_le_incl _ _ He)) as Hp.
  rewrite Z.pow_add_r by lia. rewrite (Z.mul_comm (2 ^ Num.ulpExp x)).
  apply Z.mul_le_mono_nonneg_r; [apply Z.pow_nonneg; lia |].
  rewrite <- (rne_inject (2 ^ 52)). apply rne_mono.
  apply Qdiv_le_iff; [assumption |].
  rewrite <- inject_Z_mult, <- Z.pow_add_r, Z.add_comm by lia.
  apply ulpExp_lower. assumption.
Qed.

Lemma nearest_mono (x y : Q) : (0 <= x)%Q -> (x <= y)%Q -> Num.nearest x <= Num.nearest y.
Proof.
  intros Hx Hxy.
  pose proof (ulpExp_mono _ _ Hxy) as He.
  pose proof (ulpExp_nonneg x) as Hex.
  destruct (Z.eq_dec (Num.ulpExp x) (Num.ulpExp y)) as [E | N].
  - unfold Num.nearest. rewrite <- E.
    apply Z.mul_le_mono_nonneg_r; [apply Z.pow_nonneg; lia |].
    apply rne_mono.
    pose proof (inject_pow_pos _ Hex) as Hp.
    apply Qdiv_le_iff; [assumption |].
    setoid_replace (x / inject_Z (2 ^ Num.ulpExp x) * inject_Z (2 ^ Num.ulpExp x))%Q with x
      by (field; lra).
    assumption.
  - etransitivity; [apply nearest_upper; assumption |].
    etransitivity; [| apply nearest_lower; lia].
    apply Z.pow_le_mono_r; lia.
Qed.

Lemma rne_comp (r s : Q) : (r == s)%Q -> Num.rne r = Num.rne s.
Proof.
  intros E. apply Z.le_antisymm; apply rne_mono; rewrite E; apply Qle_refl.
Qed.

Lemma nearest_comp (x y : Q) : (x == y)%Q -> Num.nearest x = Num.nearest y.
Proof.
  intros E. unfold Num.nearest, Num.ulpExp. rewrite (Qfloor_comp _ _ E).
  f_equal. apply rne_comp. now rewrite E.
Qed.

Lemma units_pos : (0 < inject_Z (Zpos Num.units))%Q.
Proof. reflexivity. Qed.

Lemma ofUnits_le (j k : Z) : j <= k -> Num.le (Num.ofUnits j) (Num.ofUnits k).
Proof.
  intros H. unfold Num.ofUnits.
  destruct (2 ^ 2098 <=? j)%Z eqn:Hj; destruct (2 ^ 2098 <=? k)%Z eqn:Hk; cbn [Num.le]; trivial.
  - apply Z.leb_le in Hj. apply Z.leb_gt in Hk. lia.
  - rewrite !Qred_correct. unfold Qle. cbn [Qnum Qden].
    apply Z.mul_le_mono_nonneg_r; [apply Pos2Z.is_nonneg | assumption].
Qed.

Lemma ofUnits_double (k : Z) : Num.double (Num.ofUnits k).
Proof.
  unfold Num.ofUnits. destruct (_ <=? _)%Z; cbn [Num.double]; trivial.
  exists k. apply Qred_correct.
Qed.

Lemma neg_double (a : Num.number) : Num.double a -> Num.double (Num.neg a).
Proof.
  destruct a as [| | | q]; simpl; trivial.
  intros [k Hk]. exists (- k). rewrite Hk. reflexivity.
Qed.

Lemma round_double (q : Q) : Num.double (Num.round q).
Proof.
  unfold Num.round. destruct (q ?= 0)%Q.
  - exists 0. reflexivity.
  - apply neg_double, ofUnits_double.
  - apply ofUnits_double.
Qed.

Lemma Qcompare_cases (q : Q) :
  ((q ?= 0)%Q = Eq /\ (q == 0)%Q) \/ ((q ?= 0)%Q = Lt /\ (q < 0)%Q)
  \/ ((q ?= 0)%Q = Gt /\ (0 < q)%Q).
Proof.
  destruct (q ?= 0)%Q eqn:C.
  - left. split; [reflexivity | now apply Qeq_alt].
  - right; left. split; [reflexivity | now apply Qlt_alt].
  - right; right. split; [reflexivity | now apply Qgt_alt].
Qed.

Lemma scaled_nonneg (q : Q) : (0 <= q)%Q -> (0 <= q * inject_Z (Zpos Num.units))%Q.
Proof. intros H. apply Qmult_le_0_compat; [assumption | discriminate]. Qed.

Lemma ofUnits_nonneg (k : Z) : 0 <= k -> Num.le (Num.Fin 0) (Num.ofUnits k).
Proof.
  intros H. unfold Num.ofUnits. destruct (_ <=? _)%Z; cbn [Num.le]; trivial.
  rewrite Qred_correct. unfold Qle. cbn [Qnum Qden]. lia.
Qed.

Lemma le_neg (a b : Num.number) : Num.le a b -> Num.le (Num.neg b) (Num.neg a).
Proof.
  destruct a, b; simpl; trivial. intros H. lra.
Qed.

(** Rounding keeps the order. *)
Lemma round_mono (x y : Q) : (x <= y)%Q -> Num.le (Num.round x) (Num.round y).
Proof.
  intros Hxy. unfold Num.round.
  destruct (Qcompare_cases x) as [[Cx Hx] | [[Cx Hx] | [Cx Hx]]];
    destruct (Qcompare_cases y) as [[Cy Hy] | [[Cy Hy] | [Cy Hy]]];
    rewrite Cx, Cy; try (exfalso; lra).
  - simpl. apply Qle_refl.
  - apply ofUnits_nonneg, nearest_nonneg, scaled_nonneg. lra.
  - apply (le_neg (Num.Fin 0)). apply ofUnits_nonneg, nearest_nonneg, scaled_nonneg. lra.
  - apply le_neg, ofUnits_le, nearest_mono.
    + apply scaled_nonneg. lra.
    + apply Qmult_le_compat_r; [lra | discriminate].
  - eapply le_trans.
    + apply (le_neg (Num.Fin 0)). apply ofUnits_nonneg, nearest_nonneg, scaled_nonneg. lra.
    + apply ofUnits_nonneg, nearest_nonneg, scaled_nonneg. lra.
  - apply ofUnits_le, nearest_mono.
    + apply scaled_nonneg. lra.
    + apply Qmult_le_compat_r; [lra | discriminate].
Qed.

(** Rounding never changes a sign to the opposite one. *)
Lemma round_positive (q : Q) : Num.positive (Num.round q) = true -> (0 < q)%Q.
Proof.
  intros H.
  destruct (Qlt_le_dec 0 q) as [Hq | Hq]; [assumption | exfalso].
  pose proof (round_mono q 0 Hq) as Hle.
  change (Num.round 0) with (Num.Fin 0) in Hle.
  destruct (Num.round q) as [| | | r]; simpl in *; try discriminate; try contradiction.
  apply negb_true_iff in H. rewrite <- not_true_iff_false, Qle_bool_iff in H. auto.
Qed.

(** The difference of two distinct doubles does not round to zero. *)
Lemma round_grid_positive (x y : Q) :
  Num.double (Num.Fin x) -> Num.double (Num.Fin y) -> (y < x)%Q ->
  Num.positive (Num.round (x + - y)) = true.
Proof.
  intros [j Hj] [k Hk] Hlt.
  assert (Hjk : k < j).
  { rewrite Hj, Hk in Hlt. unfold Qlt in Hlt. simpl in Hlt.
    apply Z.mul_lt_mono_pos_r in Hlt; [assumption | reflexivity]. }
  unfold Num.round.
  destruct (Qcompare_cases (x + - y)) as [[C H] | [[C H] | [C H]]]; try (exfalso; lra).
  rewrite C.
  assert (Hn : 1 <= Num.nearest ((x + - y) * inject_Z (Zpos Num.units))).
  { apply nearest_pos.
    assert (E : ((x + - y) * inject_Z (Zpos Num.units) == inject_Z (j - k))%Q).
    { rewrite Hj, Hk, !Qmake_Qdiv. unfold Z.sub.
      rewrite inject_Z_plus, inject_Z_opp. field. discriminate. }
    rewrite E. change 1%Q with (inject_Z 1). rewrite <- Zle_Qle. lia. }
  unfold Num.ofUnits. destruct (_ <=? _)%Z; [reflexivity |].
  cbn [Num.positive]. apply negb_true_iff. rewrite <- not_true_iff_false, Qle_bool_iff.
  rewrite Qred_correct. unfold Qle. cbn [Qnum Qden]. lia.
Qed.

Lemma round_nonneg (q : Q) : (0 <= q)%Q -> Num.le (Num.Fin 0) (Num.round q).
Proof. intros H. apply (round_mono 0 q H). Qed.

Lemma round_never_NaN (q : Q) : Num.round q <> Num.NaN.
Proof.
  unfold Num.round, Num.ofUnits.
  destruct (q ?= 0)%Q; [discriminate| |]; destruct (_ <=? _)%Z; discriminate.
Qed.

Lemma add_double (a b : Num.number) : Num.double (Num.add a b).
Proof.
  destruct a as [| | |x], b as [| | |y]; cbn [Num.add Num.double]; trivial.
  apply round_double.
Qed.

Lemma div_double (a b : Num.number) : Num.double (Num.div a b).
Proof.
  destruct a as [| | |x], b as [| | |y]; cbn [Num.div Num.double]; trivial;
    try (destruct (Num.Qltb y 0); exact I).
  - exists 0. reflexivity.
  - exists 0. reflexivity.
  - destruct (Qeq_bool y 0); [|apply round_double].
    destruct (Qeq_bool x 0); [exact I|]. destruct (Num.Qltb x 0); exact I.
Qed.

(** ** Order and the sign of a difference *)

Lemma positive_sub_le (a b : Num.number) :
  Num.positive (Num.sub a b) = true -> Num.le b a.
Proof.
  destruct a as [| | |x], b as [| | |y];
    cbn [Num.sub Num.neg Num.add Num.positive Num.le]; try discriminate; auto.
  intro H. apply round_positive in H. lra.
Qed.

(** Between doubles a difference that is not positive means the first
    is not the larger one: a difference of doubles that is not zero
    does not round to zero. *)
Lemma not_positive_sub_le (a b : Num.number) :
  a <> Num.NaN -> b <> Num.NaN -> Num.double a -> Num.double b ->
  Num.positive (Num.sub a b) = false -> Num.le a b.
Proof.
  destruct a as [| | |x], b as [| | |y];
    cbn [Num.sub Num.neg Num.add Num.positive Num.le]; try discriminate; auto;
    try congruence.
  intros _ _ Dx Dy H.
  destruct (Qlt_le_dec y x) as [L|L]; [|exact L].
  rewrite (round_grid_positive x y Dx Dy L) in H. discriminate H.
Qed.

Lemma eqb_not_positive (a b v : Num.number) :
  Num.eqb a v = true -> Num.eqb b v = true ->
  Num.positive (Num.sub a b) = false.
Proof.
  destruct a as [| | |x], b as [| | |y], v as [| | |z];
    cbn [Num.eqb Num.sub Num.neg Num.add Num.positive];
    try discriminate; auto.
  intros Hx Hy. apply Qeq_bool_iff in Hx, Hy.
  apply not_true_is_false. intro P. apply round_positive in P. lra.
Qed.

(** ** Sorting *)

Section Sorting.

Variable A : Type.
Variable cmp : A -> A -> Num.number.

Lemma insert_perm (x : A) (l : list A) : Permutation (x :: l) (insert cmp x l).
Proof.
  induction l as [|y r IH]; simpl.
  - apply Permutation_refl.
  - destruct (Num.positive (cmp x y)).
    + eapply perm_trans; [apply perm_swap|]. apply perm_skip, IH.
    + apply Permutation_refl.
Qed.

Lemma sort_perm (l : list A) : Permutation l (sort cmp l).
Proof.
  induction l as [|x r IH]; simpl.
  - apply perm_nil.
  - eapply perm_trans; [apply perm_skip, IH|]. apply insert_perm.
Qed.


(** An element moves past another only on a positive comparison: a
    predicate that never holds on both sides of a positive comparison
    selects the same subsequence before and after. *)
Lemma insert_filter (p : A -> bool) (x : A) (l : list A) :
  (forall y, p x = true -> p y = true -> Num.positive (cmp x y) = false) ->
  filter p (insert cmp x l) = filter p (x :: l).
Proof.
  intro Hp. induction l as [|y r IH]; [reflexivity|].
  simpl insert. destruct (Num.positive (cmp x y)) eqn:E; [|reflexivity].
  simpl filter at 1. rewrite IH. simpl.
  specialize (Hp y). destruct (p x), (p y); try reflexivity.
  rewrite Hp in E by reflexivity. discriminate.
Qed.

Lemma sort_filter (p : A -> bool) (l : list A) :
  (forall x y, p x = true -> p y = true -> Num.positive (cmp x y) = false) ->
  filter p (sort cmp l) = filter p l.
Proof.
  intro Hp. induction l as [|x r IH]; [reflexivity|].
  simpl sort. rewrite insert_filter by (apply Hp).
  simpl. now rewrite IH.
Qed.

Variable le : A -> A -> Prop.
Variable ok : A -> Prop.
Hypothesis le_transitive : forall a b c, le a b -> le b c -> le a c.
Hypothesis cmp_after : forall a b, Num.positive (cmp a b) = true -> le b a.
Hypothesis cmp_before :
  forall a b, ok a -> ok b -> Num.positive (cmp a b) = false -> le a b.

Lemma insert_sorted (x : A) (l : list A) :
  ok x -> Forall ok l -> StronglySorted le l -> StronglySorted le (insert cmp x l).
Proof.
  intros Hx Hl Hs. induction Hs as [|y r Hs IH Hy]; simpl.
  - repeat constructor.
  - inversion Hl as [|? ? Oy Or]; subst.
    destruct (Num.positive (cmp x y)) eqn:E.
    + constructor; [apply IH, Or|].
      eapply Permutation_Forall; [apply insert_perm|].
      constructor; [apply cmp_after, E|exact Hy].
    + constructor; [constructor; assumption|].
      assert (Lxy : le x y) by (apply cmp_before; assumption).
      constructor; [exact Lxy|].
      eapply Forall_impl; [|exact Hy]. intros z Lyz.
      eapply le_transitive; eassumption.
Qed.

Lemma sort_sorted (l : list A) : Forall ok l -> StronglySorted le (sort cmp l).
Proof.
  induction 1 as [|x r Hx Hr IH]; simpl.
  - constructor.
  - apply insert_sorted; [exact Hx| |exact IH].
    eapply Permutation_Forall; [apply sort_perm|exact Hr].
Qed.

End Sorting.

(** ** Playlist builder *)

(** [tracks[t]] is a track exactly for the positions of the list. *)
Lemma trackAt_inRange (ts : list track) (t : Z) :
  trackAt ts t
  = if inRange ts t then Some (nth (Z.to_nat t) ts noClips) else None.
Proof.
  unfold trackAt, inRange.
  destruct (Z.ltb_spec t 0) as [N|P].
  - destruct (Z.leb_spec 0 t); [lia|reflexivity].
  - destruct (Z.leb_spec 0 t); [|lia]. cbn [andb].
    destruct (Z.ltb_spec t (Z.of_nat (List.length ts))) as [L|G].
    + apply nth_error_nth'. lia.
    + apply nth_error_None. lia.
Qed.

Lemma buildTrack_clipsAt (sesx : list string) (st : scanner) (t : Z) :
  buildTrack sesx st t
  = (if missing (tracks st) t then [noTrack t] else [],
     map (clipEntry sesx (files st) (sampleRate st)) (clipsAt (tracks st) t)).
Proof.
  unfold buildTrack, missing, clipsAt. rewrite trackAt_inRange.
  now destruct (inRange (tracks st) t).
Qed.

Lemma build_entries (sesx : list string) (st : scanner) (sel : list Z) :
  snd (build sesx st sel) = insertionOrder sesx st sel.
Proof.
  unfold build, insertionOrder. cbn [snd].
  induction sel as [|t r IH]; [reflexivity|].
  cbn [map List.concat flat_map]. rewrite IH. f_equal.
  now rewrite buildTrack_clipsAt.
Qed.

Lemma build_warnings (sesx : list string) (st : scanner) (sel : list Z) :
  fst (build sesx st sel) = map noTrack (filter (missing (tracks st)) sel).
Proof.
  unfold build. cbn [fst].
  induction sel as [|t r IH]; [reflexivity|].
  cbn [map List.concat filter]. rewrite IH, buildTrack_clipsAt. cbn [fst].
  now destruct (missing (tracks st) t).
Qed.



Lemma byStart_ties (v : Num.number) (x y : entry) :
  startsAt v x = true -> startsAt v y = true ->
  Num.positive (byStart x y) = false.
Proof. unfold startsAt, byStart. apply eqb_not_positive. Qed.

(** A clip whose [startPoint] attribute reads as a finite number gets a
    start point that is a number, the sample rate being finite and not
    zero. *)
Lemma clipEntry_numeric (sesx : list string) (fs : list file) (rate x : Q)
    (i : nat) :
  Num.ofValue (getRX rxStartPoint (lineAt sesx i)) = Num.Fin x ->
  ~ (rate == 0)%Q ->
  numeric (clipEntry sesx fs (Num.Fin rate) i).
Proof.
  intros Hx Hr. unfold numeric, clipEntry. cbn [startPoint]. rewrite Hx.
  unfold Num.div. destruct (Qeq_bool rate 0) eqn:E; [|apply round_never_NaN].
  apply Qeq_bool_iff in E. contradiction.
Qed.

(** Every start point the builder computes is a quotient, hence a
    double. *)
Lemma build_doubles (sesx : list string) (st : scanner) (sel : list Z) :
  Forall (fun e => Num.double (startPoint e)) (snd (build sesx st sel)).
Proof.
  rewrite build_entries. unfold insertionOrder.
  apply Forall_flat_map, Forall_forall. intros t _.
  apply Forall_map, Forall_forall. intros i _.
  unfold clipEntry. cbn [startPoint]. apply div_double.
Qed.

(** In a sorted sequence any two entries are ordered one way or the
    other. *)
Lemma sorted_comparable (l : list entry) (a b : entry) :
  StronglySorted byStartLe l -> In a l -> In b l ->
  a = b \/ byStartLe a b \/ byStartLe b a.
Proof.
  induction 1 as [|x r Hs IH Hx]; intros Ha Hb; [contradiction|].
  rewrite Forall_forall in Hx.
  destruct Ha as [<-|Ha], Hb as [<-|Hb]; auto.
Qed.

(** C8, as amended.  The entries are built in insertion order, the
    selected tracks in the order given and under each its clips in file
    order.  When every start point built is a number, the playlist
    after the sort is a rearrangement of these entries, non-decreasing
    in start point, and the entries that start at any one time stand in
    it in their insertion order. *)
Theorem playlist_sorted_stable (sesx : list string) (st : scanner) (sel : list Z) :
  let raw := snd (build sesx st sel) in
  let playlist := sort byStart raw in
  raw = insertionOrder sesx st sel
  /\ (Forall numeric raw ->
      Permutation raw playlist
      /\ StronglySorted byStartLe playlist
      /\ forall v, filter (startsAt v) playlist = filter (startsAt v) raw).
Proof.
  cbv zeta. split; [apply build_entries|]. intro Hn.
  split; [apply sort_perm|]. split.
  - apply (sort_sorted entry byStart byStartLe
             (fun e => numeric e /\ Num.double (startPoint e))).
    + intros a b c. apply le_trans.
    + intros a b. apply positive_sub_le.
    + intros a b [Na Da] [Nb Db]. now apply not_positive_sub_le.
    + pose proof (build_doubles sesx st sel) as Hd.
      rewrite Forall_forall in *. intros e He. split; [apply Hn|apply Hd]; exact He.
  - intro v. apply sort_filter. intros x y. apply byStart_ties.
Qed.

(** C8, as stated, fails.  The session [More.gap] has one track with
    clips that start at 5 seconds, at no number ([NaN]) and at 1
    second.  The playlist after the sort is in that same order, and no
    rearrangement of these entries is non-decreasing in start point. *)
Lemma playlist_sorted_counterexample :
  map startPoint More.gapEntries = [Num.Fin 5; Num.NaN; Num.Fin 1]
  /\ map startPoint (sort byStart More.gapEntries) = [Num.Fin 5; Num.NaN; Num.Fin 1]
  /\ ~ StronglySorted byStartLe (sort byStart More.gapEntries)
  /\ (forall p, Permutation More.gapEntries p -> ~ StronglySorted byStartLe p).
Proof.
  assert (Hall : forall p, Permutation More.gapEntries p ->
                           ~ StronglySorted byStartLe p).
  { intros p Hp Hs.
    assert (E : exists a b c, More.gapEntries = [a; b; c]
                              /\ startPoint a = Num.Fin 5
                              /\ startPoint b = Num.NaN).
    { vm_compute. eexists _, _, _. repeat split. }
    destruct E as [a [b [c [E [Ha Hb]]]]]. rewrite E in Hp.
    assert (Ia : In a p) by (eapply Permutation_in; [exact Hp|now left]).
    assert (Ib : In b p) by (eapply Permutation_in; [exact Hp|right; now left]).
    destruct (sorted_comparable p a b Hs Ia Ib) as [Eab|[L|L]].
    - rewrite Eab, Hb in Ha. discriminate Ha.
    - unfold byStartLe in L. rewrite Ha, Hb in L. exact L.
    - unfold byStartLe in L. rewrite Ha, Hb in L. exact L. }
  split; [vm_compute; reflexivity|]. split; [vm_compute; reflexivity|].
  split; [apply Hall, sort_perm|exact Hall].
Qed.

(** ** Strings *)

Lemma append_snoc (a : string) (c : ascii) (b : string) :
  (a ++ String c EmptyString) ++ b = a ++ String c b.
Proof. induction a as [|x a IH]; simpl; [reflexivity|now rewrite IH]. Qed.

Lemma append_empty (a : string) : a ++ EmptyString = a.
Proof. induction a as [|x a IH]; simpl; [reflexivity|now rewrite IH]. Qed.

(** A string that does not contain the separator is its own single segment. *)
Lemma split_go_whole (sep cur s : string) :
  Str.includes s sep = false -> Str.split_go sep 0 cur s = [cur ++ s].
Proof.
  revert cur. induction s as [|c r IH]; intros cur H.
  - simpl. now rewrite append_empty.
  - simpl in H. apply orb_false_iff in H. destruct H as [Hp Hr].
    simpl. rewrite Hp. rewrite (IH _ Hr). now rewrite append_snoc.
Qed.

Lemma split_whole (s sep : string) :
  Str.includes s sep = false -> Str.split s sep = [s].
Proof. intro H. unfold Str.split. now rewrite split_go_whole. Qed.

(** ** CUE renderer *)

Lemma cueTrack_without_separator (d : Num.number) (i : nat) (e : entry) :
  noSeparator e -> cueTrack d i e = Throw TypeError.
Proof.
  unfold noSeparator, cueTrack, nameParts. intro H.
  now rewrite (split_whole _ _ H).
Qed.

Lemma cueTracks_without_separator (d : Num.number) (playlist : list entry) :
  Exists noSeparator playlist ->
  forall i, cueTracks d i playlist = Throw TypeError.
Proof.
  induction 1 as [e r He|e r _ IH]; intro i; simpl.
  - now rewrite cueTrack_without_separator.
  - destruct (cueTrack d i e) as [ls|[]]; simpl; [|reflexivity].
    now rewrite IH.
Qed.

(** C2. When some entry's name holds no separator, [makeCue] does not
    render an empty title for it: reading the second part throws and
    no CUE text is produced. *)
Theorem makeCue_without_separator (h : Host) (opts : options) (playlist : list entry) :
  Exists noSeparator playlist -> makeCue h opts playlist = Throw TypeError.
Proof.
  intro H. unfold makeCue. now rewrite cueTracks_without_separator.
Qed.

(** With the separator present the first part is the performer and the
    second the title, each trimmed and with the entity unescaped. *)
Lemma cueTrack_with_parts (d : Num.number) (i : nat) (e : entry)
    (artist title : string) (more : list string) :
  nameParts (name e) = artist :: title :: more ->
  cueTrack d i e =
  Ok [ "  TRACK " ++ Str.padStart (Str.ofNat (i + 1)) 2 "0" ++ " AUDIO";
       "    TITLE " ++ Str.quoted (unescapeAmp title);
       "    PERFORMER " ++ Str.quoted (unescapeAmp artist);
       "    INDEX 01 " ++ cueIndex d e ].
Proof. unfold cueTrack. now intros ->. Qed.

(** ** M3U renderer *)

Lemma m3uEntries_null_path (h : Host) (dir : string) (playlist : list entry) :
  dir <> EmptyString -> Exists nullPath playlist ->
  m3uEntries h (Some dir) playlist = Throw TypeError.
Proof.
  intros Hd. apply String.eqb_neq in Hd.
  induction 1 as [e r He|e r _ IH]; simpl; unfold m3uEntry, m3uPath; rewrite Hd.
  - unfold nullPath in He. now rewrite He.
  - destruct (path e); simpl; [|reflexivity]. now rewrite IH.
Qed.

Lemma makeM3U_null_path (h : Host) (opts : options) (dir : string)
    (playlist : list entry) :
  opt_source opts = Some dir -> dir <> EmptyString ->
  Exists nullPath playlist -> makeM3U h opts playlist = Throw TypeError.
Proof.
  intros Hs Hd He. unfold makeM3U. rewrite Hs.
  now rewrite m3uEntries_null_path.
Qed.

(** C10. With a non-empty substitution directory and an entry whose
    path is [null], the M3U renderer throws a [TypeError]; the run ends
    there, after the builder's warnings, with nothing saved. *)
Theorem m3u_null_path_aborts (h : Host) (opts : options) (sesx : list string)
    (st : scanner) (outfile dir : string) :
  Num.truthy (sampleRate st) = true ->
  opt_info opts = false ->
  extOf h outfile = ".m3u" ->
  opt_source opts = Some dir -> dir <> EmptyString ->
  Exists nullPath (snd (build sesx st (selection (opt_track opts)))) ->
  makeM3U h opts (sort byStart (snd (build sesx st (selection (opt_track opts)))))
  = Throw TypeError
  /\ convert h opts sesx st outfile
     = {| stdout := EmptyString :: fst (build sesx st (selection (opt_track opts)));
          written := None; exit := Uncaught TypeError |}.
Proof.
  intros Hr Hi Hx Hs Hd He.
  assert (Hm : makeM3U h opts
                 (sort byStart (snd (build sesx st (selection (opt_track opts)))))
               = Throw TypeError).
  { apply (makeM3U_null_path h opts dir); [assumption..|].
    apply Exists_exists in He. destruct He as [e [Hin Hn]].
    apply Exists_exists. exists e. split; [|exact Hn].
    eapply Permutation_in; [apply sort_perm|exact Hin]. }
  split; [exact Hm|].
  unfold convert. rewrite Hr, Hi. cbn [negb]. revert Hm. clear He.
  destruct (build sesx st (selection (opt_track opts))) as [warnings raw].
  cbn [fst snd]. intro Hm. unfold render. rewrite Hx, Hm. reflexivity.
Qed.

(** ** Record scanner *)

Lemma prefix_cons (a : ascii) (s : string) (b : ascii) (t : string) :
  String.prefix (String a s) (String b t) = ((a =? b)%char && String.prefix s t).
Proof.
  change (String.prefix (String a s) (String b t))
    with (if ascii_dec a b then String.prefix s t else false).
  destruct (ascii_dec a b) as [->|N].
  - now rewrite Ascii.eqb_refl.
  - apply Ascii.eqb_neq in N. now rewrite N.
Qed.

Lemma name_line_not_header (l : string) :
  isNameLine l = true -> isTrackHeader l = false.
Proof.
  unfold isNameLine, isTrackHeader, Str.startsWith.
  destruct (Str.trim l) as [|a [|b s]]; intro H.
  - discriminate H.
  - rewrite prefix_cons in H. apply andb_true_iff in H.
    destruct H as [_ H]. discriminate H.
  - rewrite !prefix_cons in H. apply andb_true_iff in H.
    destruct H as [Ha H]. apply andb_true_iff in H. destruct H as [Hb _].
    apply Ascii.eqb_eq in Ha, Hb. subst a b.
    rewrite !prefix_cons. reflexivity.
Qed.

Lemma scanLine_name_no_track (st : scanner) (i : nat) (l : string) :
  _track st = None -> _name st = false -> isNameLine l = true ->
  scanLine st i l = Throw TypeError.
Proof.
  intros Ht Hn Hl. unfold scanLine.
  pose proof (name_line_not_header l Hl) as Hh.
  unfold isNameLine in Hl. unfold isTrackHeader in Hh.
  rewrite Hh, Hn, Hl, Ht. reflexivity.
Qed.

(** Before the first track header each line either throws or leaves
    the scanner without a current track and without a captured name. *)
Lemma scanLine_no_track (st : scanner) (i : nat) (l : string) :
  _track st = None -> _name st = false -> isTrackHeader l = false ->
  scanLine st i l = Throw TypeError
  \/ exists st', scanLine st i l = Ok st' /\ _track st' = None /\ _name st' = false.
Proof.
  intros Ht Hn Hh. unfold scanLine. unfold isTrackHeader in Hh.
  rewrite Hh, Hn, Ht. cbn [negb andb].
  destruct (Str.startsWith (Str.trim l) "<name>"); [now left|right].
  lazy beta iota zeta.
  destruct (Str.startsWith (Str.trim l) "<file ").
  - destruct (getRX rxPath (Str.trim l)) as [p|];
      [destruct (p =? "")%string|]; eexists; repeat split; assumption.
  - destruct (Str.startsWith (Str.trim l) "<session ");
      eexists; repeat split; assumption.
Qed.

Lemma scanFrom_name_before_track (pre : list string) (l : string) (post : list string) :
  Forall (fun x => isTrackHeader x = false) pre ->
  isNameLine l = true ->
  forall st i, _track st = None -> _name st = false ->
  scanFrom st i (pre ++ l :: post) = Throw TypeError.
Proof.
  intros Hpre Hl. induction Hpre as [|x r Hx Hr IH]; intros st i Ht Hn; simpl.
  - now rewrite scanLine_name_no_track.
  - destruct (scanLine_no_track st i x Ht Hn Hx) as [E|[st' [E [Ht' Hn']]]];
      rewrite E; simpl; [reflexivity|].
    now apply IH.
Qed.

(** C9. A file that passes the signature check and has a [<name>] line
    before any track header makes the scanner assign through an
    undefined [_track]: the scan throws and the run ends on the
    uncaught [TypeError], with no diagnostic and nothing written. *)
Theorem name_before_track_aborts (h : Host) (opts : options)
    (pre : list string) (l : string) (post : list string) (outfile : string) :
  notValid (pre ++ l :: post) = Ok false ->
  Forall (fun x => isTrackHeader x = false) pre ->
  isNameLine l = true ->
  scan (pre ++ l :: post) = Throw TypeError
  /\ process h opts (pre ++ l :: post) outfile = aborted.
Proof.
  intros Hv Hpre Hl.
  assert (Hs : scan (pre ++ l :: post) = Throw TypeError)
    by (apply scanFrom_name_before_track; auto).
  split; [exact Hs|]. unfold process. now rewrite Hv, Hs.
Qed.

(** ** Sample rate test *)

Lemma truthy_false (a : Num.number) :
  Num.truthy a = false <->
  a = Num.NaN \/ exists q, a = Num.Fin q /\ (q == 0)%Q.
Proof.
  destruct a as [| | |q]; simpl; split; intro H; auto; try discriminate.
  - destruct H as [H|[q [H _]]]; discriminate H.
  - destruct H as [H|[q [H _]]]; discriminate H.
  - right. exists q. split; [reflexivity|].
    apply Qeq_bool_iff. now apply negb_false_iff.
  - destruct H as [H|[q' [H Hq]]]; [discriminate H|].
    injection H as ->. apply negb_false_iff. now apply Qeq_bool_iff.
Qed.

Lemma truthy_positive (q : Q) : (0 < q)%Q -> Num.truthy (Num.Fin q) = true.
Proof.
  intro H. simpl. apply negb_true_iff. apply not_true_is_false.
  intro E. apply Qeq_bool_iff in E. rewrite E in H.
  exact (Qlt_irrefl _ H).
Qed.

Lemma other_initial (c : ascii) (s : string) :
  c <> "C"%char -> String c s <> msgNoRate.
Proof. intros N E. apply N. unfold msgNoRate in E. now injection E. Qed.

Lemma empty_not_msgNoRate : EmptyString <> msgNoRate.
Proof. discriminate. Qed.

Lemma entryCounts_not_msgNoRate (ts : list track) :
  forall i x, In x (entryCounts i ts) -> x <> msgNoRate.
Proof.
  induction ts as [|t r IH]; intros i x; simpl In; [contradiction|].
  intros [<-|H]; [|eapply IH, H].
  apply other_initial. discriminate.
Qed.

Lemma report_not_msgNoRate (ts : list track) (x : string) :
  In x (report ts) -> x <> msgNoRate.
Proof.
  unfold report. cbv zeta. rewrite !in_app_iff. simpl In.
  intros [[<-|[<-|[]]]|[H|[<-|[]]]].
  - apply other_initial. discriminate.
  - apply other_initial. discriminate.
  - eapply entryCounts_not_msgNoRate, H.
  - apply empty_not_msgNoRate.
Qed.

Lemma warnings_not_msgNoRate (sesx : list string) (st : scanner) (sel : list Z)
    (x : string) :
  In x (fst (build sesx st sel)) -> x <> msgNoRate.
Proof.
  rewrite build_warnings, in_map_iff. intros [t [<- _]].
  apply other_initial. discriminate.
Qed.

Lemma save_not_msgNoRate (h : Host) (log : list string) (outfile : string)
    (data : option string) :
  (forall x, In x log -> x <> msgNoRate) ->
  forall x, In x (stdout (save h log outfile data)) -> x <> msgNoRate.
Proof.
  intros Hlog. apply Forall_forall. apply Forall_forall in Hlog.
  unfold save. cbv zeta.
  assert (Hs : ("Saving to: " ++ outfile) <> msgNoRate)
    by (apply other_initial; discriminate).
  assert (Hw : msgNoWrite <> msgNoRate) by discriminate.
  assert (Hd : msgDone <> msgNoRate) by discriminate.
  destruct data as [d|]; [destruct (writeFileSync h outfile d)|];
    cbn [stdout]; repeat (apply Forall_app; split);
    repeat constructor; assumption.
Qed.

Lemma convert_with_rate (h : Host) (opts : options) (sesx : list string)
    (st : scanner) (outfile : string) :
  Num.truthy (sampleRate st) = true ->
  ~ In msgNoRate (stdout (convert h opts sesx st outfile)).
Proof.
  intros Hr Hin. unfold convert in Hin. rewrite Hr in Hin. cbn [negb] in Hin.
  destruct (opt_info opts).
  - cbn [stop stdout] in Hin. destruct Hin as [E|Hin].
    + now apply empty_not_msgNoRate.
    + now apply (report_not_msgNoRate _ _ Hin).
  - pose proof (warnings_not_msgNoRate sesx st (selection (opt_track opts))) as Hw.
    destruct (build sesx st (selection (opt_track opts))) as [warnings raw].
    cbn [fst] in Hw.
    assert (Hlog : forall x, In x (EmptyString :: warnings) -> x <> msgNoRate).
    { intros x [<-|H]; [apply empty_not_msgNoRate|apply Hw, H]. }
    destruct (render h opts outfile (sort byStart raw)) as [data|e].
    + now apply (save_not_msgNoRate h _ outfile data Hlog msgNoRate).
    + cbn [stop stdout] in Hin. now apply (Hlog msgNoRate).
Qed.

(** C6. After a scan that returned, a sample rate that is zero or not
    a number (no session line, no attribute, or text that is not a
    number) ends the run on the sample-rate message alone, before any
    entry is built and with nothing written; with a positive sample
    rate that message is never printed. *)
Theorem sample_rate_gate (h : Host) (opts : options) (sesx : list string)
    (st : scanner) (outfile : string) :
  notValid sesx = Ok false -> scan sesx = Ok st ->
  (sampleRate st = Num.NaN
   \/ (exists q, sampleRate st = Num.Fin q /\ (q == 0)%Q) ->
   process h opts sesx outfile
   = {| stdout := [EmptyString; msgNoRate]; written := None; exit := Completed |})
  /\ (forall q, sampleRate st = Num.Fin q -> (0 < q)%Q ->
      ~ In msgNoRate (stdout (process h opts sesx outfile))).
Proof.
  intros Hv Hs. unfold process. rewrite Hv, Hs. split.
  - intro H. apply truthy_false in H. unfold convert. now rewrite H.
  - intros q Hq Hpos. apply convert_with_rate.
    rewrite Hq. now apply truthy_positive.
Qed.

(** ** Signature check *)

(** The file is refused only when the test of the first line fails and
    the test of the second line fails too. *)
Lemma notValid_first_marker (sesx : list string) :
  Str.startsWith (Str.toLowerCase (Str.trim (nth 0 sesx EmptyString))) "<?xml" = true ->
  notValid sesx = Ok false.
Proof. intro H. unfold notValid. now rewrite H. Qed.

Lemma notValid_second_marker (l0 l1 : string) (rest : list string) :
  Str.startsWith (Str.trim l1) "<!DOCTYPE sesx>" = true ->
  notValid (l0 :: l1 :: rest) = Ok false.
Proof.
  intro H. unfold notValid. cbn [nth nth_error]. rewrite H.
  now destruct (Str.startsWith _ "<?xml").
Qed.

(** C3. A file with only one of the two markers is not refused: it is
    converted and the playlist is written, whichever marker is the one
    that is missing.  Only a file with neither marker gets the
    message. *)
Theorem signature_one_marker_accepted :
  main (Sample.host Sample.noDoctype) (Sample.opts "out.m3u") = Sample.savedM3U
  /\ main (Sample.host Sample.noXml) (Sample.opts "out.m3u") = Sample.savedM3U
  /\ main (Sample.host Sample.noMarker) (Sample.opts "out.m3u")
     = {| stdout := [EmptyString; msgNotValid]; written := None; exit := Completed |}.
Proof. repeat split; vm_compute; reflexivity. Qed.

Lemma notValid_refuses (sesx : list string) :
  notValid sesx = Ok true <->
  Str.startsWith (Str.toLowerCase (Str.trim (nth 0 sesx EmptyString))) "<?xml" = false
  /\ exists l1, nth_error sesx 1 = Some l1
                /\ Str.startsWith (Str.trim l1) "<!DOCTYPE sesx>" = false.
Proof.
  unfold notValid.
  destruct (Str.startsWith (Str.toLowerCase _) "<?xml").
  - split; [discriminate|]. intros [H _]. discriminate H.
  - destruct (nth_error sesx 1) as [l1|].
    + split.
      * intro H. injection H as H. apply negb_true_iff in H.
        split; [reflexivity|]. now exists l1.
      * intros [_ [l [E H]]]. injection E as <-. now rewrite H.
    + split; [discriminate|]. intros [_ [l [E _]]]. discriminate E.
Qed.

(** After the test of the arguments the out file selects a renderer. *)
Lemma render_defined (h : Host) (opts : options) (infile outfile : string)
    (rest : list string) (playlist : list entry) :
  badArgs h (infile :: outfile :: rest) = false ->
  render h opts outfile playlist <> Ok None.
Proof.
  unfold badArgs, render. intro H.
  apply orb_false_iff in H. destruct H as [_ H].
  apply andb_false_iff in H.
  destruct (extOf h outfile =? ".cue")%string.
  - now destruct (makeCue h opts playlist).
  - destruct (extOf h outfile =? ".m3u")%string.
    + now destruct (makeM3U h opts playlist).
    + destruct H as [H|H]; discriminate H.
Qed.

(** ** M3U lines *)

Lemma m3uEntries_plain (h : Host) (playlist : list entry) :
  m3uEntries h None playlist
  = Ok (flat_map
          (fun e => [extinf e; match path e with Some s => s | None => EmptyString end])
          playlist).
Proof.
  induction playlist as [|e r IH]; [reflexivity|].
  simpl. now rewrite IH.
Qed.

(** C1. The EXTINF line carries the duration as a 32-bit integer and
    then the fixed text [e.name], whatever the name of the entry is;
    on the example session the file written reads so. *)
Theorem m3u_extinf_literal :
  (forall (s d : Num.number) (p : option string) (n : string),
      extinf {| startPoint := s; duration := d; path := p; name := n |}
      = "#EXTINF:" ++ Str.ofZ (Num.ToInt32 d) ++ ",e.name")
  /\ main (Sample.host Sample.session) (Sample.opts "out.m3u") = Sample.savedM3U.
Proof. split; [reflexivity|vm_compute; reflexivity]. Qed.

(** ** The delta option *)

Lemma makeCue_same_delta (h : Host) (o1 o2 : options) (playlist : list entry) :
  opt_source o1 = opt_source o2 -> delta o1 = delta o2 ->
  makeCue h o1 playlist = makeCue h o2 playlist.
Proof. unfold makeCue. now intros -> ->. Qed.

Lemma delta_zero (o : options) :
  delta (withDelta (Some "0") o) = delta (withDelta None o).
Proof. reflexivity. Qed.

Lemma convert_zero_delta (h : Host) (o : options) (sesx : list string)
    (st : scanner) (outfile : string) :
  convert h (withDelta (Some "0") o) sesx st outfile
  = convert h (withDelta None o) sesx st outfile.
Proof.
  unfold convert. cbn [withDelta opt_info opt_track].
  destruct (build sesx st (selection (opt_track o))) as [warnings raw].
  unfold render.
  now rewrite (makeCue_same_delta h (withDelta (Some "0") o) (withDelta None o)).
Qed.

Lemma convert_not_cue (h : Host) (o : options) (d : option string)
    (sesx : list string) (st : scanner) (outfile : string) :
  (extOf h outfile =? ".cue")%string = false ->
  convert h (withDelta d o) sesx st outfile = convert h o sesx st outfile.
Proof. intro E. unfold convert, render. now rewrite E. Qed.

Lemma main_cases (h : Host) (o1 o2 : options) :
  args o1 = args o2 ->
  (forall sesx st outfile,
      nth 1 (args o2) EmptyString = outfile ->
      convert h o1 sesx st outfile = convert h o2 sesx st outfile) ->
  main h o1 = main h o2.
Proof.
  intros Ha Hc. unfold main. rewrite Ha.
  destruct (badArgs h (args o2)); [reflexivity|].
  destruct (args o2) as [|infile [|outfile rest]]; try reflexivity.
  destruct (readFileSync h infile) as [text|]; [|reflexivity].
  unfold process. destruct (notValid _) as [[|]|e]; try reflexivity.
  destruct (scan _) as [st|e]; [|reflexivity].
  now apply Hc.
Qed.

(** ** CUE timestamps *)

Lemma trunc_floor (x : Q) : (0 <= x)%Q -> Num.trunc x = Qfloor x.
Proof.
  destruct x as [n d]. unfold Qle, Num.trunc, Qfloor. simpl. intro H.
  apply Z.quot_div_nonneg; lia.
Qed.

Lemma wrap32_small (z : Z) : (0 <= z < 2 ^ 31)%Z -> Num.wrap32 z = z.
Proof.
  intro H. unfold Num.wrap32.
  rewrite Z.mod_small by lia.
  destruct (Z.geb_spec z (2 ^ 31)); [lia|reflexivity].
Qed.

Lemma Qfloor_nonneg (x : Q) : (0 <= x)%Q -> (0 <= Qfloor x)%Z.
Proof. intro H. apply (Qfloor_resp_le 0 x H). Qed.

Lemma Qfloor_below (x : Q) (n : Z) : (x < inject_Z n)%Q -> (Qfloor x < n)%Z.
Proof.
  intro H. rewrite Zlt_Qlt.
  eapply Qle_lt_trans; [apply Qfloor_le|exact H].
Qed.

(** Minutes and remainder of a non-negative time. *)
Lemma minutes_bounds (t : Q) :
  (0 <= t)%Q ->
  let r := (t - 60 * inject_Z (Num.trunc (t / 60)))%Q in
  (0 <= t / 60)%Q /\ (0 <= r)%Q /\ (r < 60)%Q.
Proof.
  intro Ht. cbv zeta.
  assert (Hx : (0 <= t / 60)%Q).
  { apply Qle_shift_div_l; [reflexivity|]. lra. }
  split; [exact Hx|].
  rewrite (trunc_floor _ Hx).
  pose proof (Qfloor_le (t / 60)) as Hlo.
  pose proof (Qlt_floor (t / 60)) as Hhi.
  rewrite inject_Z_plus in Hhi.
  assert (E : (t == 60 * (t / 60))%Q) by (field).
  set (f := inject_Z (Qfloor (t / 60))) in *.
  set (x := (t / 60)%Q) in *.
  change (inject_Z 1) with 1%Q in Hhi.
  split; lra.
Qed.

Lemma ToInt32_floor (q : Q) :
  (0 <= q)%Q -> (q <= 2147483647)%Q -> Num.ToInt32 (Num.Fin q) = Qfloor q.
Proof.
  intros H0 H1. unfold Num.ToInt32. rewrite (trunc_floor _ H0).
  apply wrap32_small. split; [now apply Qfloor_nonneg|].
  apply Qfloor_below. eapply Qle_lt_trans; [exact H1|reflexivity].
Qed.

(** For a time that is not negative and a quotient within 31 bits the
    two coercions [|0] of [toCueTS] round down. *)
Lemma toCueTS_floor (t : Num.number) :
  Num.le (Num.ofZ 0) t ->
  Num.le (Num.div t (Num.ofZ 60)) (Num.ofZ 2147483647) ->
  toCueTS t
  = pad2 (floorOf (Num.div t (Num.ofZ 60))) ++ ":"
    ++ pad2 (floorOf (Num.rem t (Num.ofZ 60))) ++ ":00".
Proof.
  destruct t as [| | |t]; intros H0 H1.
  - destruct H0.
  - vm_compute in H1. destruct H1.
  - destruct H0.
  - change (0 <= t)%Q in H0.
    destruct (minutes_bounds t H0) as [Hx [Hr0 Hr60]].
    unfold toCueTS. cbv zeta. unfold pad2.
    change (Num.rem (Num.Fin t) (Num.ofZ 60))
      with (Num.Fin (t - 60 * inject_Z (Num.trunc (t / 60)))).
    change (Num.div (Num.Fin t) (Num.ofZ 60)) with (Num.round (t / 60)) in *.
    pose proof (round_nonneg (t / 60) Hx) as Hm.
    destruct (Num.round (t / 60)) as [| | |m]; cbn [Num.le] in Hm, H1;
      try contradiction.
    rewrite (ToInt32_floor m Hm H1).
    rewrite (ToInt32_floor (t - 60 * inject_Z (Num.trunc (t / 60))) Hr0)
      by (apply Qlt_le_weak; eapply Qlt_trans; [exact Hr60|reflexivity]).
    reflexivity.
Qed.

(** C4, as amended.  Let [d] be the delta option coerced to a 32-bit
    integer and [t] the sum of the entry's start point and [d].  When
    [0 <= t] and the quotient [t / 60] is at most [2^31 - 1], the INDEX
    timestamp is [MM:SS:00] with [MM = floor(t / 60)] and
    [SS = floor(t % 60)], each padded with zeros to at least two
    digits, the sum, the quotient and the remainder being those of the
    language. *)
Theorem cue_timestamp_floor (opts : options) (e : entry) :
  let d := Num.ofZ (Num.ToInt32 (Num.ofValue (opt_delta opts))) in
  let t := Num.add (startPoint e) d in
  Num.le (Num.ofZ 0) t ->
  Num.le (Num.div t (Num.ofZ 60)) (Num.ofZ 2147483647) ->
  cueIndex (delta opts) e = floorTS (startPoint e) d.
Proof.
  cbv zeta. intros H0 H1. unfold cueIndex, floorTS, delta.
  now apply toCueTS_floor.
Qed.

(** C4, as stated, fails.  A delta of -30 seconds on an entry that
    starts at 0 gives minutes [00], not [floor(-30 / 60) = -1]; a delta
    of half a second on an entry that starts at half a second gives
    seconds [00], not [floor(1 % 60) = 1], because the option is
    coerced to an integer. *)
Lemma cue_timestamp_counterexample :
  (cueIndex (delta (withDelta (Some "-30") (Sample.opts "out.cue")))
            (Sample.entryAt (Num.Fin 0) "Art - Song") = "00:-30:00"
   /\ floorTS (Num.Fin 0) (Num.Fin (-30)) = "-1:-30:00"
   /\ cueIndex (delta (withDelta (Some "-30") (Sample.opts "out.cue")))
               (Sample.entryAt (Num.Fin 0) "Art - Song")
      <> floorTS (Num.Fin 0) (Num.Fin (-30)))
  /\ (cueIndex (delta (withDelta (Some "0.5") (Sample.opts "out.cue")))
               (Sample.entryAt (Num.Fin (1 # 2)) "Art - Song") = "00:00:00"
      /\ floorTS (Num.Fin (1 # 2)) (Num.Fin (1 # 2)) = "00:01:00"
      /\ cueIndex (delta (withDelta (Some "0.5") (Sample.opts "out.cue")))
                  (Sample.entryAt (Num.Fin (1 # 2)) "Art - Song")
         <> floorTS (Num.Fin (1 # 2)) (Num.Fin (1 # 2))).
Proof.
  repeat split; try (vm_compute; reflexivity); vm_compute; discriminate.
Qed.

(** ** The statements at concrete inputs *)

Lemma makeCue_without_separator_witness :
  Exists noSeparator [Sample.entryAt (Num.Fin 2) "X"]
  /\ makeCue (Sample.host Sample.session) (Sample.opts "out.cue")
             [Sample.entryAt (Num.Fin 2) "X"]
     = Throw TypeError.
Proof.
  assert (H : Exists noSeparator [Sample.entryAt (Num.Fin 2) "X"])
    by (apply Exists_cons_hd; reflexivity).
  split; [exact H|].
  exact (makeCue_without_separator _ _ _ H).
Defined.

Lemma cue_timestamp_floor_witness :
  Num.le (Num.ofZ 0)
         (Num.add (startPoint (Sample.entryAt (Num.ofString "0.9999999999999999")
                                              "Art - Song"))
                  (Num.ofZ (Num.ToInt32 (Num.ofValue (Some "59")))))
  /\ Num.le (Num.div
               (Num.add (startPoint (Sample.entryAt (Num.ofString "0.9999999999999999")
                                                    "Art - Song"))
                        (Num.ofZ (Num.ToInt32 (Num.ofValue (Some "59")))))
               (Num.ofZ 60))
            (Num.ofZ 2147483647)
  /\ cueIndex (delta (withDelta (Some "59") (Sample.opts "out.cue")))
              (Sample.entryAt (Num.ofString "0.9999999999999999") "Art - Song")
     = floorTS (startPoint (Sample.entryAt (Num.ofString "0.9999999999999999")
                                           "Art - Song"))
               (Num.ofZ (Num.ToInt32 (Num.ofValue (Some "59"))))
  /\ floorTS (startPoint (Sample.entryAt (Num.ofString "0.9999999999999999")
                                         "Art - Song"))
             (Num.ofZ (Num.ToInt32 (Num.ofValue (Some "59"))))
     = "01:00:00".
Proof.
  assert (H0 : Num.le (Num.ofZ 0)
                 (Num.add (startPoint (Sample.entryAt (Num.ofString "0.9999999999999999")
                                                      "Art - Song"))
                          (Num.ofZ (Num.ToInt32 (Num.ofValue (Some "59"))))))
    by (vm_compute; discriminate).
  assert (H1 : Num.le (Num.div
                         (Num.add (startPoint (Sample.entryAt
                                                 (Num.ofString "0.9999999999999999")
                                                 "Art - Song"))
                                  (Num.ofZ (Num.ToInt32 (Num.ofValue (Some "59")))))
                         (Num.ofZ 60))
                      (Num.ofZ 2147483647))
    by (vm_compute; discriminate).
  split; [exact H0|]. split; [exact H1|]. split.
  - exact (cue_timestamp_floor
             (withDelta (Some "59") (Sample.opts "out.cue"))
             (Sample.entryAt (Num.ofString "0.9999999999999999") "Art - Song")
             H0 H1).
  - vm_compute. reflexivity.
Defined.

Lemma sample_rate_gate_witness :
  (notValid (Sample.sesxOf Sample.noRate) = Ok false
   /\ scan (Sample.sesxOf Sample.noRate) = Ok (Sample.scanned Sample.noRate)
   /\ sampleRate (Sample.scanned Sample.noRate) = Num.NaN
   /\ process (Sample.host Sample.noRate) (Sample.opts "out.m3u")
              (Sample.sesxOf Sample.noRate) "out.m3u"
      = {| stdout := [EmptyString; msgNoRate]; written := None; exit := Completed |})
  /\ (notValid (Sample.sesxOf More.tinyRate) = Ok false
      /\ scan (Sample.sesxOf More.tinyRate) = Ok (Sample.scanned More.tinyRate)
      /\ sampleRate (Sample.scanned More.tinyRate) = Num.Fin 0
      /\ (0 == 0)%Q
      /\ process (Sample.host More.tinyRate) (Sample.opts "out.m3u")
                 (Sample.sesxOf More.tinyRate) "out.m3u"
         = {| stdout := [EmptyString; msgNoRate]; written := None;
              exit := Completed |})
  /\ (notValid (Sample.sesxOf Sample.session) = Ok false
      /\ scan (Sample.sesxOf Sample.session) = Ok (Sample.scanned Sample.session)
      /\ sampleRate (Sample.scanned Sample.session) = Num.Fin 44100
      /\ (0 < 44100)%Q
      /\ ~ In msgNoRate
             (stdout (process (Sample.host Sample.session) (Sample.opts "out.m3u")
                              (Sample.sesxOf Sample.session) "out.m3u"))).
Proof.
  assert (Hv : notValid (Sample.sesxOf Sample.noRate) = Ok false)
    by (vm_compute; reflexivity).
  assert (Hs : scan (Sample.sesxOf Sample.noRate) = Ok (Sample.scanned Sample.noRate))
    by (vm_compute; reflexivity).
  assert (Hn : sampleRate (Sample.scanned Sample.noRate) = Num.NaN)
    by (vm_compute; reflexivity).
  assert (Hv0 : notValid (Sample.sesxOf More.tinyRate) = Ok false)
    by (vm_compute; reflexivity).
  assert (Hs0 : scan (Sample.sesxOf More.tinyRate) = Ok (Sample.scanned More.tinyRate))
    by (vm_compute; reflexivity).
  assert (Hq0 : sampleRate (Sample.scanned More.tinyRate) = Num.Fin 0)
    by (vm_compute; reflexivity).
  assert (Hz : (0 == 0)%Q) by reflexivity.
  assert (Hv' : notValid (Sample.sesxOf Sample.session) = Ok false)
    by (vm_compute; reflexivity).
  assert (Hs' : scan (Sample.sesxOf Sample.session) = Ok (Sample.scanned Sample.session))
    by (vm_compute; reflexivity).
  assert (Hq : sampleRate (Sample.scanned Sample.session) = Num.Fin 44100)
    by (vm_compute; reflexivity).
  assert (Hp : (0 < 44100)%Q) by reflexivity.
  split; [|split].
  - split; [exact Hv|]. split; [exact Hs|]. split; [exact Hn|].
    exact (proj1 (sample_rate_gate _ _ _ _ _ Hv Hs) (or_introl Hn)).
  - split; [exact Hv0|]. split; [exact Hs0|]. split; [exact Hq0|].
    split; [exact Hz|].
    exact (proj1 (sample_rate_gate _ _ _ _ _ Hv0 Hs0)
                 (or_intror (ex_intro _ 0%Q (conj Hq0 Hz)))).
  - split; [exact Hv'|]. split; [exact Hs'|]. split; [exact Hq|].
    split; [exact Hp|].
    exact (proj2 (sample_rate_gate _ _ _ _ _ Hv' Hs') _ Hq Hp).
Defined.

Lemma playlist_sorted_stable_witness :
  Forall numeric
    (snd (build (Sample.sesxOf Sample.mix) (Sample.scanned Sample.mix)
                (selection (Some "0,1"))))
  /\ (Permutation
        (snd (build (Sample.sesxOf Sample.mix) (Sample.scanned Sample.mix)
                    (selection (Some "0,1"))))
        (sort byStart
           (snd (build (Sample.sesxOf Sample.mix) (Sample.scanned Sample.mix)
                       (selection (Some "0,1")))))
      /\ StronglySorted byStartLe
           (sort byStart
              (snd (build (Sample.sesxOf Sample.mix) (Sample.scanned Sample.mix)
                          (selection (Some "0,1")))))
      /\ forall v,
           filter (startsAt v)
             (sort byStart
                (snd (build (Sample.sesxOf Sample.mix) (Sample.scanned Sample.mix)
                            (selection (Some "0,1")))))
           = filter (startsAt v)
               (snd (build (Sample.sesxOf Sample.mix) (Sample.scanned Sample.mix)
                           (selection (Some "0,1")))))
  /\ map (fun e => (name e, startPoint e))
         (sort byStart
            (snd (build (Sample.sesxOf Sample.mix) (Sample.scanned Sample.mix)
                        (selection (Some "0,1")))))
     = [ ("a2", Num.Fin 0); ("b2", Num.Fin 1); ("a1", Num.Fin 2); ("b1", Num.Fin 2) ].
Proof.
  assert (H : Forall numeric
                (snd (build (Sample.sesxOf Sample.mix) (Sample.scanned Sample.mix)
                            (selection (Some "0,1"))))).
  { vm_compute. repeat (apply Forall_cons; [discriminate|]). apply Forall_nil. }
  split; [exact H|]. split.
  - exact (proj2 (playlist_sorted_stable
                    (Sample.sesxOf Sample.mix) (Sample.scanned Sample.mix)
                    (selection (Some "0,1"))) H).
  - vm_compute. reflexivity.
Defined.

Lemma name_before_track_aborts_witness :
  notValid (Sample.header ++ Sample.nameLine "Mix" :: Sample.body)%list = Ok false
  /\ Forall (fun x => isTrackHeader x = false) Sample.header
  /\ isNameLine (Sample.nameLine "Mix") = true
  /\ scan (Sample.header ++ Sample.nameLine "Mix" :: Sample.body)%list
     = Throw TypeError
  /\ process (Sample.host Sample.nameFirst) (Sample.opts "out.m3u")
             (Sample.header ++ Sample.nameLine "Mix" :: Sample.body)%list "out.m3u"
     = aborted.
Proof.
  assert (Hv : notValid (Sample.header ++ Sample.nameLine "Mix" :: Sample.body)%list
               = Ok false) by (vm_compute; reflexivity).
  assert (Hp : Forall (fun x => isTrackHeader x = false) Sample.header)
    by (repeat (apply Forall_cons; [vm_compute; reflexivity|]); apply Forall_nil).
  assert (Hl : isNameLine (Sample.nameLine "Mix") = true)
    by (vm_compute; reflexivity).
  split; [exact Hv|]. split; [exact Hp|]. split; [exact Hl|].
  exact (name_before_track_aborts _ _ _ _ _ _ Hv Hp Hl).
Defined.

Lemma m3u_null_path_aborts_witness :
  Num.truthy (sampleRate (Sample.scanned Sample.orphan)) = true
  /\ opt_info (Sample.withSource "D:/audio" (Sample.opts "out.m3u")) = false
  /\ extOf (Sample.host Sample.orphan) "out.m3u" = ".m3u"
  /\ opt_source (Sample.withSource "D:/audio" (Sample.opts "out.m3u"))
     = Some "D:/audio"
  /\ "D:/audio" <> EmptyString
  /\ Exists nullPath
       (snd (build (Sample.sesxOf Sample.orphan) (Sample.scanned Sample.orphan)
                   (selection
                      (opt_track (Sample.withSource "D:/audio" (Sample.opts "out.m3u"))))))
  /\ makeM3U (Sample.host Sample.orphan)
             (Sample.withSource "D:/audio" (Sample.opts "out.m3u"))
             (sort byStart
                (snd (build (Sample.sesxOf Sample.orphan) (Sample.scanned Sample.orphan)
                            (selection
                               (opt_track
                                  (Sample.withSource "D:/audio" (Sample.opts "out.m3u")))))))
     = Throw TypeError
  /\ convert (Sample.host Sample.orphan)
             (Sample.withSource "D:/audio" (Sample.opts "out.m3u"))
             (Sample.sesxOf Sample.orphan) (Sample.scanned Sample.orphan) "out.m3u"
     = {| stdout :=
            EmptyString
            :: fst (build (Sample.sesxOf Sample.orphan) (Sample.scanned Sample.orphan)
                          (selection
                             (opt_track
                                (Sample.withSource "D:/audio" (Sample.opts "out.m3u")))));
          written := None; exit := Uncaught TypeError |}.
Proof.
  assert (Hr : Num.truthy (sampleRate (Sample.scanned Sample.orphan)) = true)
    by (vm_compute; reflexivity).
  assert (Hx : extOf (Sample.host Sample.orphan) "out.m3u" = ".m3u")
    by (vm_compute; reflexivity).
  assert (Hd : "D:/audio" <> EmptyString) by discriminate.
  assert (He : Exists nullPath
                 (snd (build (Sample.sesxOf Sample.orphan) (Sample.scanned Sample.orphan)
                             (selection
                                (opt_track
                                   (Sample.withSource "D:/audio" (Sample.opts "out.m3u")))))))
    by (vm_compute; apply Exists_cons_hd; reflexivity).
  split; [exact Hr|]. split; [reflexivity|]. split; [exact Hx|].
  split; [reflexivity|]. split; [exact Hd|]. split; [exact He|].
  exact (m3u_null_path_aborts
           (Sample.host Sample.orphan)
           (Sample.withSource "D:/audio" (Sample.opts "out.m3u"))
           (Sample.sesxOf Sample.orphan) (Sample.scanned Sample.orphan)
           "out.m3u" "D:/audio" Hr eq_refl Hx eq_refl Hd He).
Defined.

(** ** Runs of the example sessions *)

Example trim_line : Str.trim "  <name>A b</name> " = "<name>A b</name>".
Proof. reflexivity. Qed.

Example split_name :
  (Str.split "Art - Song" " - ", Str.split "X" " - ", Str.split "a - " " - ")
  = (["Art"; "Song"], ["X"], ["a"; EmptyString]).
Proof. reflexivity. Qed.

Example split_selection : selection (Some "0, 3,-1,x,1.9") = [0; 3; -1; 0; 1]%Z.
Proof. vm_compute. reflexivity. Qed.

Example unescape_all : unescapeAmp "A &amp; B &amp;amp;" = "A & B &amp;".
Proof. reflexivity. Qed.

Example numbers_of_strings :
  (Num.ofString "44100", Num.ofString " 1.5e2 ", Num.ofString "",
   Num.ofString "n/a", Num.ofString "-Infinity", Num.ofString "0x1F")
  = (Num.Fin 44100, Num.Fin 150, Num.Fin 0, Num.NaN, Num.NInf, Num.Fin 31).
Proof. vm_compute. reflexivity. Qed.

Example int32_of_numbers :
  (Num.ToInt32 (Num.ofString "-1.9"), Num.ToInt32 (Num.ofString "4294967297"),
   Num.ToInt32 (Num.ofString "2147483648"), Num.ToInt32 Num.NaN)
  = (-1, 1, -2147483648, 0)%Z.
Proof. vm_compute. reflexivity. Qed.

Example timestamps :
  (toCueTS (Num.ofString "3725.9"), toCueTS (Num.Fin 2), toCueTS Num.NaN)
  = ("62:05:00", "00:02:00", "00:00:00").
Proof. vm_compute. reflexivity. Qed.

Example numbers_rounded :
  (Num.ofString "1e-400", Num.ofString "1e400", Num.ofString "-1e400",
   Num.ToInt32 (Num.ofString "1e23"),
   Num.add (Num.ofString "0.9999999999999999") (Num.ofZ 59),
   Num.ofString "9007199254740993",
   Num.sub (Num.div (Num.ofZ 44109) (Num.ofZ 44100))
           (Num.div (Num.ofZ 9) (Num.ofZ 44100)))
  = (Num.Fin 0, Num.PInf, Num.NInf, (-167772160)%Z, Num.Fin 60,
     Num.Fin 9007199254740992,
     Num.Fin (9007199254740991 # 9007199254740992)).
Proof. vm_compute. reflexivity. Qed.

Example extinf_of_offBeat :
  makeM3U (Sample.host More.offBeat) (Sample.opts "out.m3u")
          (snd (build (Sample.sesxOf More.offBeat) (Sample.scanned More.offBeat)
                      (selection None)))
  = Ok (Str.join [ "#EXTM3U"; "#EXTINF:0,e.name"; "C:\music\a.wav"; EmptyString ]
                 Str.CRLF).
Proof. vm_compute. reflexivity. Qed.

Example scan_of_session :
  scan (Sample.sesxOf Sample.session)
  = Ok {| tracks := [{| track_name := Some "Track 1"; track_line := 4;
                        track_clips := [6; 7]%nat |}];
          files := [{| file_path := "C:\music\a.wav"; file_id := Some "0" |};
                    {| file_path := "C:\music\b.wav"; file_id := Some "1" |}];
          sampleRate := Num.Fin 44100; _track := Some 0%nat; _name := true |}.
Proof. vm_compute. reflexivity. Qed.

(** The session of two clips named [Art - Song] and [X]: the CUE run
    ends on the [TypeError] of the second name. *)
Example cue_of_session :
  main (Sample.host Sample.session) (Sample.opts "out.cue") = aborted.
Proof. vm_compute. reflexivity. Qed.

Example cue_of_duo :
  main (Sample.host Sample.duo) (Sample.opts "out.cue")
  = {| stdout := [EmptyString; "Saving to: out.cue"; msgDone];
       written :=
         Some ("out.cue",
               Str.join
                 [ "PERFORMER " ++ Str.quoted "sesx2pl";
                   "TITLE " ++ Str.quoted "Playlist";
                   "FILE " ++ Str.quoted "INSERT-FILENAME-TO-SOURCE.mp3" ++ " MP3";
                   "  TRACK 01 AUDIO";
                   "    TITLE " ++ Str.quoted "Song";
                   "    PERFORMER " ++ Str.quoted "Art";
                   "    INDEX 01 00:00:00";
                   "  TRACK 02 AUDIO";
                   "    TITLE " ++ Str.quoted "Z";
                   "    PERFORMER " ++ Str.quoted "X & Y";
                   "    INDEX 01 00:02:00";
                   EmptyString ] Str.CRLF);
       exit := Completed |}.
Proof. vm_compute. reflexivity. Qed.

Example cue_of_duo_shifted :
  option_map (fun w => Str.includes (snd w) "INDEX 01 00:07:00")
    (written (main (Sample.host Sample.duo)
                   (withDelta (Some "5.9") (Sample.opts "out.cue"))))
  = Some true.
Proof. vm_compute. reflexivity. Qed.

Example info_of_session :
  main (Sample.host Sample.session)
       {| opt_track := None; opt_source := None; opt_delta := None;
          opt_info := true; args := ["in.sesx"; "out.cue"] |}
  = {| stdout := [ EmptyString;
                   "Audition sesx information:" ++ Str.LF;
                   "Number of tracks: 1 - (Track 1)";
                   "  # of entries in track 0: 2";
                   EmptyString ];
       written := None; exit := Completed |}.
Proof. vm_compute. reflexivity. Qed.

Example missing_tracks_warned :
  stdout (main (Sample.host Sample.session)
               (Sample.withTrack "0,3,-1" (Sample.opts "out.m3u")))
  = [ EmptyString; "Project has no track 3"; "Project has no track -1";
      "Saving to: out.m3u"; msgDone ].
Proof. vm_compute. reflexivity. Qed.

Example order_of_mix :
  map name
    (sort byStart
       (snd (build (Sample.sesxOf Sample.mix) (Sample.scanned Sample.mix)
                   (selection (Some "0,1")))))
  = ["a2"; "b2"; "a1"; "b1"].
Proof. vm_compute. reflexivity. Qed.

Example substituted_paths :
  option_map snd
    (written (main (Sample.host Sample.session)
                   (Sample.withSource "D:/audio" (Sample.opts "out.m3u"))))
  = Some (Str.join [ "#EXTM3U";
                     "#EXTINF:1,e.name"; "D:/audio/a.wav";
                     "#EXTINF:1,e.name"; "D:/audio/b.wav";
                     EmptyString ] Str.CRLF).
Proof. vm_compute. reflexivity. Qed.

Example one_line_file :
  main (Sample.host "<sesx>") (Sample.opts "out.m3u") = aborted.
Proof. vm_compute. reflexivity. Qed.

(** * Further properties *)

(** ** Line shapes *)

Lemma prefix_comparable (s p q : string) :
  String.prefix p s = true -> String.prefix q s = true ->
  String.prefix p q || String.prefix q p = true.
Proof.
  revert p q. induction s as [|c s IH]; intros p q Hp Hq;
    destruct p as [|a p]; try reflexivity;
    destruct q as [|b q]; try reflexivity; try discriminate Hp.
  rewrite !prefix_cons in *.
  apply andb_true_iff in Hp, Hq. destruct Hp as [Ea Hp], Hq as [Eb Hq].
  apply Ascii.eqb_eq in Ea, Eb. subst a b. rewrite Ascii.eqb_refl. simpl.
  now apply IH.
Qed.

Lemma shapes_exclusive (s p q : string) :
  String.prefix p q || String.prefix q p = false ->
  Str.startsWith s p = true -> Str.startsWith s q = false.
Proof.
  unfold Str.startsWith. intros N Hp.
  destruct (String.prefix q s) eqn:Hq; [|reflexivity].
  now rewrite (prefix_comparable s p q Hp Hq) in N.
Qed.

Ltac other_shape H :=
  match type of H with
  | _ ?l = true =>
      first [ unfold isTrackHeader in H | unfold isNameLine in H
            | unfold isClipLine in H | unfold isFileLine in H
            | unfold isSessionLine in H ];
      unfold isTrackHeader, isNameLine, isClipLine, isFileLine, isSessionLine;
      repeat split; (eapply shapes_exclusive; [|exact H]; reflexivity)
  end.

Lemma header_only (l : string) :
  isTrackHeader l = true ->
  isNameLine l = false /\ isClipLine l = false
  /\ isFileLine l = false /\ isSessionLine l = false.
Proof. intro H. other_shape H. Qed.

Lemma name_only (l : string) :
  isNameLine l = true ->
  isTrackHeader l = false /\ isClipLine l = false
  /\ isFileLine l = false /\ isSessionLine l = false.
Proof. intro H. other_shape H. Qed.

Lemma clip_only (l : string) :
  isClipLine l = true ->
  isTrackHeader l = false /\ isNameLine l = false
  /\ isFileLine l = false /\ isSessionLine l = false.
Proof. intro H. other_shape H. Qed.

Lemma file_only (l : string) :
  isFileLine l = true ->
  isTrackHeader l = false /\ isNameLine l = false
  /\ isClipLine l = false /\ isSessionLine l = false.
Proof. intro H. other_shape H. Qed.

Lemma session_only (l : string) :
  isSessionLine l = true ->
  isTrackHeader l = false /\ isNameLine l = false
  /\ isClipLine l = false /\ isFileLine l = false.
Proof. intro H. other_shape H. Qed.

(** ** One step of the scanner *)

(** The step written with the line shapes and the five successor states. *)
Lemma scanLine_shape (st : scanner) (i : nat) (l : string) :
  scanLine st i l =
  if isTrackHeader l then Ok (openTrack st i)
  else if negb (_name st) && isNameLine l then
    match _track st with
    | Some k => Ok (nameTrack st k (getRX rxTrackName (Str.trim l)))
    | None => Throw TypeError
    end
  else
    match _track st, isClipLine l with
    | Some k, true => Ok (addClip st k i)
    | _, _ =>
        if isFileLine l then
          match getRX rxPath (Str.trim l) with
          | Some p =>
              if (p =? "")%string then Ok st
              else Ok (addFile st p (fileIdOf (Str.trim l)))
          | None => Ok st
          end
        else if isSessionLine l then
          Ok (setRate st (Num.ofValue (getRX rxSampleRate (Str.trim l))))
        else Ok st
    end.
Proof. reflexivity. Qed.

Lemma scanLine_stepped (st : scanner) (i : nat) (l : string) (st' : scanner) :
  scanLine st i l = Ok st' -> stepped st i l st'.
Proof.
  rewrite scanLine_shape.
  destruct (isTrackHeader l) eqn:Hh.
  { intro E. injection E as <-. now apply step_header. }
  destruct (negb (_name st) && isNameLine l) eqn:Hn.
  { apply andb_true_iff in Hn. destruct Hn as [Hn Hl].
    apply negb_true_iff in Hn.
    destruct (_track st) as [k|] eqn:Ht; [|discriminate].
    intro E. injection E as <-. now apply step_name. }
  assert (Hrest :
    (if isFileLine l then
       match getRX rxPath (Str.trim l) with
       | Some p =>
           if (p =? "")%string then Ok st
           else Ok (addFile st p (fileIdOf (Str.trim l)))
       | None => Ok st
       end
     else if isSessionLine l then
       Ok (setRate st (Num.ofValue (getRX rxSampleRate (Str.trim l))))
     else Ok st) = Ok st' ->
    (isClipLine l = true -> _track st = None) -> stepped st i l st').
  { intros E Hc. destruct (isFileLine l) eqn:Hf.
    - destruct (file_only l Hf) as [_ [_ [_ Hs]]].
      destruct (getRX rxPath (Str.trim l)) as [p|] eqn:Hp.
      + destruct (p =? "")%string eqn:Ep; injection E as <-.
        * now apply step_skip.
        * apply step_file; auto. now apply String.eqb_neq.
      + injection E as <-. now apply step_skip.
    - destruct (isSessionLine l) eqn:Hs; injection E as <-.
      + now apply step_session.
      + now apply step_skip. }
  destruct (_track st) as [k|] eqn:Ht.
  - destruct (isClipLine l) eqn:Hc.
    + intro E. injection E as <-. now apply (step_clip st i l k).
    + intro E. apply Hrest; [exact E|discriminate].
  - intro E. apply Hrest; [exact E|reflexivity].
Qed.

(** ** Invariants of the scan *)

Lemma update_length {A : Type} (k : nat) (f : A -> A) (l : list A) :
  List.length (update k f l) = List.length l.
Proof.
  revert k. induction l as [|x r IH]; intros [|k]; simpl; auto.
Qed.

Lemma update_map {A B : Type} (g : A -> B) (k : nat) (f : A -> A) (l : list A) :
  (forall x, g (f x) = g x) -> map g (update k f l) = map g l.
Proof.
  intro H. revert k.
  induction l as [|x r IH]; intros [|k]; simpl; rewrite ?H, ?IH; reflexivity.
Qed.

Lemma update_nth {A : Type} (k : nat) (f : A -> A) (l : list A) (j : nat) :
  nth_error (update k f l) j
  = if Nat.eqb j k then option_map f (nth_error l j) else nth_error l j.
Proof.
  revert k j. induction l as [|x r IH]; intros [|k] [|j]; simpl; auto;
    now destruct (Nat.eqb j k).
Qed.

Lemma update_Forall {A : Type} (P Q : A -> Prop) (k : nat) (f : A -> A)
    (l : list A) :
  (forall x, P x -> Q x) ->
  (forall x, nth_error l k = Some x -> P x -> Q (f x)) ->
  Forall P l -> Forall Q (update k f l).
Proof.
  intros Hpq. revert k. induction l as [|x r IH]; intros k Hf Hl.
  - destruct k; constructor.
  - inversion Hl as [|? ? Hx Hr]; subst. destruct k as [|k]; simpl.
    + constructor; [now apply Hf|]. eapply Forall_impl; eauto.
    + constructor; [now apply Hpq|]. apply IH; [|exact Hr].
      intros y Hy. now apply Hf.
Qed.

Lemma stepped_header (st : scanner) (i : nat) (l : string) (st' : scanner) :
  stepped st i l st' ->
  (isTrackHeader l = true /\ st' = openTrack st i)
  \/ (isTrackHeader l = false
      /\ map track_line (tracks st') = map track_line (tracks st)
      /\ _track st' = _track st).
Proof.
  intros [H|k Hn _ _|k Hc _|p Hf _ _|Hs|Hh _ _].
  - now left.
  - right. destruct (name_only l Hn) as [Hh _]. split; [exact Hh|].
    split; [|reflexivity]. now apply update_map.
  - right. destruct (clip_only l Hc) as [Hh _]. split; [exact Hh|].
    split; [|reflexivity]. now apply update_map.
  - right. destruct (file_only l Hf) as [Hh _]. now split.
  - right. destruct (session_only l Hs) as [Hh _]. now split.
  - right. now split.
Qed.

Lemma stepped_trackOK (st : scanner) (i : nat) (l : string) (st' : scanner) :
  stepped st i l st' -> trackOK st -> trackOK st'.
Proof.
  unfold trackOK.
  intros [H|k Hn _ Ht|k Hc Ht|p Hf _ _|Hs|Hh _ _] Hok; cbn; auto.
  - now rewrite length_app, Nat.add_comm.
  - rewrite Ht in *. now rewrite update_length.
  - rewrite Ht in *. now rewrite update_length.
Qed.

Lemma clipsOK_later (sesx : list string) (i : nat) (tr : track) :
  clipsOK sesx i tr -> clipsOK sesx (S i) tr.
Proof.
  unfold clipsOK. apply Forall_impl. intros c [Hc H]. split; [lia|exact H].
Qed.

Lemma nth_of_nth_error (sesx : list string) (i : nat) (l : string) :
  nth_error sesx i = Some l -> nth i sesx EmptyString = l.
Proof. intro H. now apply nth_error_nth. Qed.

Lemma stepped_scanInv (sesx : list string) (i : nat) (l : string)
    (st st' : scanner) :
  nth_error sesx i = Some l -> stepped st i l st' ->
  scanInv sesx i st -> scanInv sesx (S i) st'.
Proof.
  intros Hl Hstep [Hok [Hcur Hclips]].
  pose proof (nth_of_nth_error _ _ _ Hl) as Hnth.
  split; [now apply (stepped_trackOK st i l)|].
  assert (Hkeep : isTrackHeader l = false -> tracks st' = tracks st ->
                  _track st' = _track st ->
                  currentOK sesx (S i) st' /\ Forall (clipsOK sesx (S i)) (tracks st')).
  { intros Hh Et E. split.
    - intros k tr Hk Htr. rewrite E in Hk. rewrite Et in Htr.
      destruct (Hcur k tr Hk Htr) as [Hlt Hno]. split; [lia|].
      intros j Hj. destruct (Nat.eq_dec j i) as [->|Hne].
      + now rewrite Hnth.
      + apply Hno. lia.
    - rewrite Et. eapply Forall_impl; [|exact Hclips].
      intros tr. apply clipsOK_later. }
  destruct Hstep as [H|k Hn _ Ht|k Hc Ht|p Hf _ _|Hs|Hh _ _].
  - (* a new track *)
    split.
    + intros k tr Hk Htr. cbn in Hk, Htr. injection Hk as <-.
      rewrite nth_error_app2 in Htr by lia. rewrite Nat.sub_diag in Htr.
      injection Htr as <-. cbn. split; [lia|]. intros j Hj. lia.
    + cbn. apply Forall_app. split.
      * eapply Forall_impl; [|exact Hclips]. intros tr. apply clipsOK_later.
      * constructor; [|constructor]. constructor.
  - (* the name of the current track *)
    destruct (name_only l Hn) as [Hh _]. split.
    + intros k' tr Hk Htr. cbn in Hk, Htr. rewrite Ht in Hk. injection Hk as <-.
      rewrite update_nth, Nat.eqb_refl in Htr.
      destruct (nth_error (tracks st) k) as [tr0|] eqn:E0; [|discriminate].
      injection Htr as <-. cbn.
      destruct (Hcur k tr0 Ht E0) as [Hlt Hno]. split; [lia|].
      intros j Hj. destruct (Nat.eq_dec j i) as [->|Hne].
      * now rewrite Hnth.
      * apply Hno. lia.
    + cbn. eapply update_Forall; [| |exact Hclips].
      * intros tr. apply clipsOK_later.
      * intros tr _ Htr. apply clipsOK_later in Htr. exact Htr.
  - (* a clip of the current track *)
    destruct (clip_only l Hc) as [Hh _]. split.
    + intros k' tr Hk Htr. cbn in Hk, Htr. rewrite Ht in Hk. injection Hk as <-.
      rewrite update_nth, Nat.eqb_refl in Htr.
      destruct (nth_error (tracks st) k) as [tr0|] eqn:E0; [|discriminate].
      injection Htr as <-. cbn.
      destruct (Hcur k tr0 Ht E0) as [Hlt Hno]. split; [lia|].
      intros j Hj. destruct (Nat.eq_dec j i) as [->|Hne].
      * now rewrite Hnth.
      * apply Hno. lia.
    + cbn. eapply update_Forall; [| |exact Hclips].
      * intros tr. apply clipsOK_later.
      * intros tr Etr Htr. destruct (Hcur k tr Ht Etr) as [Hlt Hno].
        unfold clipsOK, pushClip. cbn. apply Forall_app. split.
        -- apply clipsOK_later in Htr. exact Htr.
        -- constructor; [|constructor]. split; [lia|]. split.
           ++ now rewrite Hnth.
           ++ intros j Hj. destruct (Nat.eq_dec j i) as [->|Hne].
              ** now rewrite Hnth.
              ** apply Hno. lia.
  - destruct (file_only l Hf) as [Hh _]. now apply Hkeep.
  - destruct (session_only l Hs) as [Hh _]. now apply Hkeep.
  - now apply Hkeep.
Qed.

Lemma scanFrom_scanInv (sesx : list string) :
  forall todo done st st',
    (done ++ todo)%list = sesx ->
    scanInv sesx (List.length done) st ->
    scanFrom st (List.length done) todo = Ok st' ->
    scanInv sesx (List.length sesx) st'.
Proof.
  induction todo as [|l r IH]; intros done st st' E Hinv Hscan.
  - simpl in Hscan. injection Hscan as <-.
    rewrite app_nil_r in E. subst done. exact Hinv.
  - simpl in Hscan. destruct (scanLine st (List.length done) l) as [st1|e] eqn:E1;
      [|discriminate].
    simpl in Hscan.
    assert (Hl : nth_error sesx (List.length done) = Some l).
    { rewrite <- E, nth_error_app2 by lia. now rewrite Nat.sub_diag. }
    apply (IH (done ++ [l])%list st1 st').
    + now rewrite <- app_assoc.
    + rewrite length_app, Nat.add_comm. cbn.
      eapply stepped_scanInv; eauto. now apply scanLine_stepped.
    + now rewrite length_app, Nat.add_comm.
Qed.

Lemma scan_scanInv (sesx : list string) (st : scanner) :
  scan sesx = Ok st -> scanInv sesx (List.length sesx) st.
Proof.
  intro H. apply (scanFrom_scanInv sesx sesx [] scanner0 st); auto.
  split; [reflexivity|].
  split; [intros k tr Hk; discriminate Hk|constructor].
Qed.

(** ** What a scan that returns has collected *)

(** X1. After a scan that returned, every clip index a track holds is
    the index of a line of the file, that line is a clip line, it comes
    after the track's own header, and no other track header stands
    between the two: the builder never reads past the file and every
    clip belongs to the track opened last before it. *)
Theorem scan_clips_valid (sesx : list string) (st : scanner) :
  scan sesx = Ok st ->
  forall tr c, In tr (tracks st) -> In c (track_clips tr) ->
    (track_line tr < c < List.length sesx)%nat
    /\ (exists l, nth_error sesx c = Some l /\ lineAt sesx c = l
                  /\ isClipLine l = true)
    /\ forall j, (track_line tr < j <= c)%nat ->
                 isTrackHeader (nth j sesx EmptyString) = false.
Proof.
  intros Hs tr c Htr Hc.
  destruct (scan_scanInv sesx st Hs) as [_ [_ Hclips]].
  rewrite Forall_forall in Hclips. specialize (Hclips tr Htr).
  unfold clipsOK in Hclips. rewrite Forall_forall in Hclips.
  destruct (Hclips c Hc) as [Hlt [Hclip Hno]].
  split; [exact Hlt|]. split; [|exact Hno].
  destruct (nth_error sesx c) as [l|] eqn:E.
  - exists l. split; [reflexivity|]. unfold lineAt. rewrite E.
    split; [reflexivity|]. now rewrite (nth_of_nth_error _ _ _ E) in Hclip.
  - apply nth_error_None in E. lia.
Qed.

Lemma scanFrom_headers (todo : list string) :
  forall st i st', scanFrom st i todo = Ok st' ->
    map track_line (tracks st')
    = (map track_line (tracks st) ++ positions isTrackHeader i todo)%list.
Proof.
  induction todo as [|l r IH]; intros st i st' H; simpl in H.
  - injection H as <-. now rewrite app_nil_r.
  - destruct (scanLine st i l) as [st1|e] eqn:E1; [|discriminate].
    simpl in H. rewrite (IH _ _ _ H). simpl.
    destruct (stepped_header _ _ _ _ (scanLine_stepped _ _ _ _ E1))
      as [[Hh ->]|[Hh [Hm _]]]; rewrite Hh.
    + cbn. now rewrite map_app, <- app_assoc.
    + now rewrite Hm.
Qed.

Lemma scanFrom_trackOK (todo : list string) :
  forall st i st', scanFrom st i todo = Ok st' -> trackOK st -> trackOK st'.
Proof.
  induction todo as [|l r IH]; intros st i st' H Hok; simpl in H.
  - now injection H as <-.
  - destruct (scanLine st i l) as [st1|e] eqn:E1; [|discriminate].
    simpl in H. apply (IH _ _ _ H).
    eapply stepped_trackOK; [apply scanLine_stepped; exact E1|exact Hok].
Qed.

(** X2. After a scan that returned there is one track per track-header
    line, in the order of the file, each recording the index of its
    header; and the current track is the last of them, or none when
    the file has no header. *)
Theorem scan_tracks_are_headers (sesx : list string) (st : scanner) :
  scan sesx = Ok st ->
  map track_line (tracks st) = positions isTrackHeader 0 sesx
  /\ List.length (tracks st) = List.length (positions isTrackHeader 0 sesx)
  /\ match _track st with
     | Some k => S k = List.length (tracks st)
     | None => tracks st = []
     end.
Proof.
  intro Hs.
  assert (Hm : map track_line (tracks st) = positions isTrackHeader 0 sesx)
    by (now rewrite (scanFrom_headers sesx scanner0 0 st Hs)).
  split; [exact Hm|]. split.
  - now rewrite <- Hm, length_map.
  - now apply (scanFrom_trackOK sesx scanner0 0 st Hs).
Qed.

Lemma totalClips_app (a b : list track) :
  totalClips (a ++ b) = (totalClips a + totalClips b)%nat.
Proof. unfold totalClips. now rewrite map_app, list_sum_app. Qed.

Lemma totalClips_update_same (k : nat) (f : track -> track) (ts : list track) :
  (forall t, track_clips (f t) = track_clips t) ->
  totalClips (update k f ts) = totalClips ts.
Proof.
  intro H. unfold totalClips. f_equal.
  apply (update_map (fun t => List.length (track_clips t))).
  intro t. now rewrite H.
Qed.

Lemma totalClips_pushClip (k i : nat) (ts : list track) :
  (k < List.length ts)%nat ->
  totalClips (update k (pushClip i) ts) = S (totalClips ts).
Proof.
  revert k. induction ts as [|t r IH]; intros k Hk; [simpl in Hk; lia|].
  destruct k as [|k]; unfold totalClips in *; simpl.
  - rewrite length_app. simpl. lia.
  - simpl in Hk. rewrite IH by lia. lia.
Qed.

Lemma scanFrom_clip_total (todo : list string) :
  forall st i st', scanFrom st i todo = Ok st' -> trackOK st ->
    totalClips (tracks st')
    = (totalClips (tracks st) + clipLinesAfterHeader (opened st) todo)%nat.
Proof.
  induction todo as [|l r IH]; intros st i st' H Hok; simpl in H.
  - injection H as <-. simpl. lia.
  - destruct (scanLine st i l) as [st1|e] eqn:E1; [|discriminate].
    simpl in H. apply scanLine_stepped in E1.
    pose proof (stepped_trackOK _ _ _ _ E1 Hok) as Hok1.
    rewrite (IH _ _ _ H Hok1). simpl.
    destruct E1 as [Hh|k Hn _ Ht|k Hc Ht|p Hf _ _|Hs|Hh _ Hc].
    + rewrite Hh. unfold opened. cbn [tracks openTrack _track].
      rewrite totalClips_app. unfold totalClips at 2. cbn. lia.
    + destruct (name_only l Hn) as [Hh [Hc _]]. rewrite Hh, Hc, andb_false_r.
      cbn [tracks nameTrack]. rewrite totalClips_update_same by reflexivity.
      reflexivity.
    + destruct (clip_only l Hc) as [Hh _]. rewrite Hh, Hc.
      unfold trackOK in Hok. rewrite Ht in Hok.
      unfold opened. cbn [_track addClip tracks]. rewrite Ht. cbn [andb].
      rewrite totalClips_pushClip by lia. lia.
    + destruct (file_only l Hf) as [Hh [_ [Hc _]]]. rewrite Hh, Hc, andb_false_r.
      reflexivity.
    + destruct (session_only l Hs) as [Hh [_ [Hc _]]]. rewrite Hh, Hc, andb_false_r.
      reflexivity.
    + rewrite Hh. destruct (isClipLine l).
      * unfold opened. rewrite (Hc eq_refl). reflexivity.
      * now rewrite andb_false_r.
Qed.

(** X3. After a scan that returned, the clips held by all tracks
    together are as many as the clip lines that come after the first
    track header: a clip line ahead of every header is dropped, and no
    later one is. *)
Theorem scan_clip_total (sesx : list string) (st : scanner) :
  scan sesx = Ok st ->
  totalClips (tracks st) = clipLinesAfterHeader false sesx.
Proof.
  intro Hs. now rewrite (scanFrom_clip_total sesx scanner0 0 st Hs).
Qed.

Lemma scanFrom_files (todo : list string) :
  forall st i st', scanFrom st i todo = Ok st' ->
    files st' = (files st ++ filesOf todo)%list.
Proof.
  induction todo as [|l r IH]; intros st i st' H; simpl in H.
  - injection H as <-. now rewrite app_nil_r.
  - destruct (scanLine st i l) as [st1|e] eqn:E1; [|discriminate].
    simpl in H. rewrite (IH _ _ _ H). simpl.
    rewrite scanLine_shape in E1.
    destruct (isTrackHeader l) eqn:Hh.
    { destruct (header_only l Hh) as [_ [_ [Hf _]]]. rewrite Hf.
      now injection E1 as <-. }
    destruct (negb (_name st) && isNameLine l) eqn:Hn.
    { apply andb_true_iff in Hn. destruct Hn as [_ Hn].
      destruct (name_only l Hn) as [_ [_ [Hf _]]]. rewrite Hf.
      destruct (_track st); [|discriminate]. now injection E1 as <-. }
    assert (Hrest :
      (if isFileLine l then
         match getRX rxPath (Str.trim l) with
         | Some p =>
             if (p =? "")%string then Ok st
             else Ok (addFile st p (fileIdOf (Str.trim l)))
         | None => Ok st
         end
       else if isSessionLine l then
         Ok (setRate st (Num.ofValue (getRX rxSampleRate (Str.trim l))))
       else Ok st) = Ok st1 ->
      (files st1 ++ filesOf r)%list
      = (files st ++
         (if isFileLine l then
            match getRX rxPath (Str.trim l) with
            | Some p =>
                if (p =? "")%string then filesOf r
                else {| file_path := p; file_id := fileIdOf (Str.trim l) |}
                     :: filesOf r
            | None => filesOf r
            end
          else filesOf r))%list).
    { destruct (isFileLine l).
      - destruct (getRX rxPath (Str.trim l)) as [p|];
          [destruct (p =? "")%string|]; intro E; injection E as <-;
          cbn; rewrite <- ?app_assoc; reflexivity.
      - destruct (isSessionLine l); intro E; injection E as <-; reflexivity. }
    destruct (_track st) as [k|].
    + destruct (isClipLine l) eqn:Hc.
      * destruct (clip_only l Hc) as [_ [_ [Hf _]]]. rewrite Hf.
        now injection E1 as <-.
      * now apply Hrest.
    + now apply Hrest.
Qed.

Lemma filesOf_fileOK (lines : list string) : Forall fileOK (filesOf lines).
Proof.
  induction lines as [|l r IH]; simpl; [constructor|].
  destruct (isFileLine l); [|exact IH].
  destruct (getRX rxPath (Str.trim l)) as [p|]; [|exact IH].
  destruct (p =? "")%string eqn:Ep; [exact IH|].
  constructor; [|exact IH]. split; cbn.
  - now apply String.eqb_neq.
  - unfold fileIdOf. destruct (getRX rxId (Str.trim l)) as [s|]; [|discriminate].
    destruct (s =? "")%string eqn:Es; [discriminate|].
    intro E. injection E as ->. discriminate Es.
Qed.

(** X4. After a scan that returned, the file references are those of
    the file lines with a non-empty path, in file order, wherever the
    lines stand and whatever the tracks are; no reference has an empty
    path and none has the empty string for its id. *)
Theorem scan_files (sesx : list string) (st : scanner) :
  scan sesx = Ok st ->
  files st = filesOf sesx /\ Forall fileOK (files st).
Proof.
  intro Hs.
  assert (E : files st = filesOf sesx)
    by (now rewrite (scanFrom_files sesx scanner0 0 st Hs)).
  split; [exact E|]. rewrite E. apply filesOf_fileOK.
Qed.

Lemma scanFrom_rate (todo : list string) :
  forall st i st', scanFrom st i todo = Ok st' ->
    sampleRate st' = rateOf (sampleRate st) todo.
Proof.
  induction todo as [|l r IH]; intros st i st' H; simpl in H.
  - now injection H as <-.
  - destruct (scanLine st i l) as [st1|e] eqn:E1; [|discriminate].
    simpl in H. rewrite (IH _ _ _ H). simpl. f_equal.
    apply scanLine_stepped in E1.
    destruct E1 as [Hh|k Hn _ _|k Hc _|p Hf _ _|Hs|_ Hs _].
    + destruct (header_only l Hh) as [_ [_ [_ Hs]]]. now rewrite Hs.
    + destruct (name_only l Hn) as [_ [_ [_ Hs]]]. now rewrite Hs.
    + destruct (clip_only l Hc) as [_ [_ [_ Hs]]]. now rewrite Hs.
    + destruct (file_only l Hf) as [_ [_ [_ Hs]]]. now rewrite Hs.
    + now rewrite Hs.
    + now rewrite Hs.
Qed.

Lemma rateOf_no_session (lines : list string) (r : Num.number) :
  Forall (fun l => isSessionLine l = false) lines -> rateOf r lines = r.
Proof.
  induction 1 as [|l rest Hl _ IH]; simpl; [reflexivity|]. now rewrite Hl.
Qed.

(** X5. After a scan that returned, the sample rate is the one the last
    session line gives, whatever stands around it; in a file with no
    session line it is still 0, and the run that follows a passed
    signature check ends on the sample-rate message. *)
Theorem scan_rate (h : Host) (opts : options) (sesx : list string)
    (st : scanner) (outfile : string) :
  scan sesx = Ok st ->
  sampleRate st = rateOf (Num.ofZ 0) sesx
  /\ (Forall (fun l => isSessionLine l = false) sesx ->
      sampleRate st = Num.ofZ 0
      /\ (notValid sesx = Ok false ->
          process h opts sesx outfile
          = {| stdout := [EmptyString; msgNoRate]; written := None;
               exit := Completed |})).
Proof.
  intro Hs.
  assert (E : sampleRate st = rateOf (Num.ofZ 0) sesx)
    by (apply (scanFrom_rate sesx scanner0 0 st Hs)).
  split; [exact E|]. intro Hno.
  rewrite (rateOf_no_session _ _ Hno) in E. split; [exact E|].
  intro Hv. unfold process. rewrite Hv, Hs. unfold convert. now rewrite E.
Qed.

(** X6. Once a track's name was captured, a further name line changes
    nothing: the step returns the scanner as it was. *)
Theorem scanLine_name_once (st : scanner) (i : nat) (l : string) :
  _name st = true -> isNameLine l = true -> scanLine st i l = Ok st.
Proof.
  intros Hn Hl. rewrite scanLine_shape.
  destruct (name_only l Hl) as [Hh [Hc [Hf Hs]]].
  rewrite Hh, Hn, Hc, Hf, Hs. cbn. now destruct (_track st).
Qed.

Lemma scanLine_throws (st : scanner) (i : nat) (l : string) (e : error) :
  scanLine st i l = Throw e ->
  _track st = None /\ _name st = false /\ isNameLine l = true.
Proof.
  rewrite scanLine_shape.
  destruct (isTrackHeader l); [discriminate|].
  destruct (negb (_name st) && isNameLine l) eqn:Hn.
  - apply andb_true_iff in Hn. destruct Hn as [Hn Hl].
    apply negb_true_iff in Hn. destruct (_track st); [discriminate|]. auto.
  - destruct (_track st), (isClipLine l), (isFileLine l), (isSessionLine l),
      (getRX rxPath (Str.trim l)) as [p|];
      try destruct (p =? "")%string; discriminate.
Qed.

Lemma scanFrom_with_track (todo : list string) :
  forall st i, _track st <> None -> exists st', scanFrom st i todo = Ok st'.
Proof.
  induction todo as [|l r IH]; intros st i Ht; simpl; [now exists st|].
  destruct (scanLine st i l) as [st1|e] eqn:E1.
  - simpl. apply IH. apply scanLine_stepped in E1.
    destruct (stepped_header _ _ _ _ E1) as [[_ ->]|[_ [_ E]]].
    + discriminate.
    + now rewrite E.
  - apply scanLine_throws in E1. destruct E1 as [E1 _]. contradiction.
Qed.

Lemma scanFrom_throws (todo : list string) :
  forall st i e, _track st = None -> _name st = false ->
    scanFrom st i todo = Throw e ->
    exists pre l post,
      todo = (pre ++ l :: post)%list
      /\ Forall (fun x => isTrackHeader x = false) pre
      /\ isNameLine l = true.
Proof.
  induction todo as [|l r IH]; intros st i e Ht Hn H; simpl in H; [discriminate|].
  destruct (isTrackHeader l) eqn:Hh.
  - rewrite scanLine_shape, Hh in H. simpl in H.
    destruct (scanFrom_with_track r (openTrack st i) (S i)) as [st' E];
      [discriminate|]. rewrite E in H. discriminate.
  - destruct (scanLine_no_track st i l Ht Hn Hh) as [E|[st1 [E [Ht1 Hn1]]]];
      rewrite E in H; simpl in H.
    + apply scanLine_throws in E. destruct E as [_ [_ Hl]].
      exists [], l, r. repeat split; [constructor|exact Hl].
    + destruct (IH _ _ _ Ht1 Hn1 H) as [pre [l0 [post [-> [Hpre Hl0]]]]].
      exists (l :: pre), l0, post. repeat split; [|exact Hl0].
      now constructor.
Qed.

(** X7. The scan throws exactly on the files that have a name line
    ahead of every track header; on every other file it returns. *)
Theorem scan_throws_iff (sesx : list string) :
  scan sesx = Throw TypeError <->
  exists pre l post,
    sesx = (pre ++ l :: post)%list
    /\ Forall (fun x => isTrackHeader x = false) pre
    /\ isNameLine l = true.
Proof.
  split.
  - intro H. now apply (scanFrom_throws sesx scanner0 0 TypeError).
  - intros [pre [l [post [-> [Hpre Hl]]]]].
    now apply scanFrom_name_before_track.
Qed.

(** ** Field extractor *)

Lemma prefix_split (p s : string) :
  String.prefix p s = true -> s = p ++ Str.drop (String.length p) s.
Proof.
  revert s. induction p as [|a p IH]; intros s H; [reflexivity|].
  destruct s as [|b s]; [discriminate H|].
  rewrite prefix_cons in H. apply andb_true_iff in H. destruct H as [E H].
  apply Ascii.eqb_eq in E. subst b. simpl. f_equal. now apply IH.
Qed.

Lemma prefix_append (p t : string) : String.prefix p (p ++ t) = true.
Proof.
  induction p as [|a p IH]; [now destruct t|].
  simpl append. rewrite prefix_cons, Ascii.eqb_refl. exact IH.
Qed.

Lemma drop_append (p t : string) : Str.drop (String.length p) (p ++ t) = t.
Proof. induction p as [|a p IH]; [now destruct t|exact IH]. Qed.

Lemma lazyUntil_sound (stop : ascii) (s v : string) :
  lazyUntil stop s = Some v ->
  clean stop v = true /\ exists b, s = v ++ String stop b.
Proof.
  revert v. induction s as [|c r IH]; intros v H; [discriminate|].
  simpl in H. destruct (c =? stop)%char eqn:Ec.
  - injection H as <-. apply Ascii.eqb_eq in Ec. subst c.
    split; [reflexivity|]. now exists r.
  - destruct (Str.isLineTerminator c) eqn:Et; [discriminate|].
    destruct (lazyUntil stop r) as [w|]; [|discriminate].
    injection H as <-. destruct (IH w eq_refl) as [Hc [b ->]].
    split; [simpl; now rewrite Ec, Et|]. now exists b.
Qed.

Lemma lazyUntil_clean (stop : ascii) (v b : string) :
  clean stop v = true -> lazyUntil stop (v ++ String stop b) = Some v.
Proof.
  induction v as [|c r IH]; intro H; simpl.
  - now rewrite Ascii.eqb_refl.
  - simpl in H. apply andb_true_iff in H. destruct H as [H Hr].
    apply andb_true_iff in H. destruct H as [Hc Ht].
    apply negb_true_iff in Hc, Ht. rewrite Hc, Ht. now rewrite IH.
Qed.

Lemma append_assoc (a b c : string) : (a ++ b) ++ c = a ++ b ++ c.
Proof. induction a as [|x a IH]; simpl; [reflexivity|now rewrite IH]. Qed.

(** X8. What [getRX] returns was read from the text: the text holds
    the pattern's prefix, then the value, then the closing character,
    and the value has no closing character and no line terminator in
    it. *)
Theorem getRX_sound (rx : regexp) (str v : string) :
  getRX rx str = Some v ->
  clean (rx_stop rx) v = true
  /\ exists a b, str = a ++ rx_prefix rx ++ v ++ String (rx_stop rx) b.
Proof.
  unfold getRX. induction str as [|c r IH]; simpl.
  - unfold matchAt. destruct (String.prefix (rx_prefix rx) EmptyString) eqn:Hp;
      [|discriminate].
    destruct (rx_prefix rx); [|discriminate Hp]. simpl. discriminate.
  - destruct (matchAt rx (String c r)) as [w|] eqn:Hm.
    + intro E. injection E as ->. unfold matchAt in Hm.
      destruct (String.prefix (rx_prefix rx) (String c r)) eqn:Hp; [|discriminate].
      apply lazyUntil_sound in Hm. destruct Hm as [Hc [b Hb]].
      split; [exact Hc|]. exists EmptyString, b.
      rewrite (prefix_split _ _ Hp) at 1. now rewrite Hb.
    + intro E. destruct (IH E) as [Hc [a [b ->]]].
      split; [exact Hc|]. now exists (String c a), b.
Qed.

Lemma prefix_shorter (p x y : string) :
  String.prefix p (x ++ y) = true -> (String.length p <= String.length x)%nat ->
  String.prefix p x = true.
Proof.
  revert x. induction p as [|a p IH]; intros x H L; [now destruct x|].
  destruct x as [|b x]; [simpl in L; lia|].
  simpl append in H. rewrite prefix_cons in *.
  apply andb_true_iff in H. destruct H as [E H]. rewrite E. simpl.
  apply IH; [exact H|]. simpl in L. lia.
Qed.

Lemma append_length (a b : string) :
  String.length (a ++ b) = (String.length a + String.length b)%nat.
Proof. induction a as [|x a IH]; simpl; [reflexivity|now rewrite IH]. Qed.

Lemma exec_reads_first (rx : regexp) (a v b : string) :
  clean (rx_stop rx) v = true ->
  noEarlier (rx_prefix rx) a = true ->
  exec rx (a ++ rx_prefix rx ++ v ++ String (rx_stop rx) b) = Some v.
Proof.
  intros Hv. induction a as [|c r IH]; intro Ha.
  - simpl append. destruct (rx_prefix rx ++ v ++ String (rx_stop rx) b) eqn:E.
    + simpl. unfold matchAt. rewrite <- E. rewrite prefix_append, drop_append.
      rewrite lazyUntil_clean by exact Hv. reflexivity.
    + simpl. unfold matchAt. rewrite <- E. rewrite prefix_append, drop_append.
      rewrite lazyUntil_clean by exact Hv. reflexivity.
  - simpl in Ha. apply andb_true_iff in Ha. destruct Ha as [Hn Hr].
    apply negb_true_iff in Hn. simpl append. simpl exec.
    assert (Hm : matchAt rx (String c (r ++ rx_prefix rx ++ v ++ String (rx_stop rx) b))
                 = None).
    { unfold matchAt.
      destruct (String.prefix (rx_prefix rx)
                  (String c (r ++ rx_prefix rx ++ v ++ String (rx_stop rx) b)))
        eqn:Hp; [|reflexivity].
      exfalso.
      assert (Hp' : String.prefix (rx_prefix rx)
                      ((String c r ++ rx_prefix rx) ++ v ++ String (rx_stop rx) b)
                    = true).
      { rewrite append_assoc. exact Hp. }
      apply prefix_shorter in Hp'.
      - simpl in Hp', Hn. rewrite Hp' in Hn. discriminate.
      - rewrite append_length. simpl. lia. }
    rewrite Hm. now apply IH.
Qed.

(** X9. Writing and reading back: in a text where the pattern's prefix
    occurs first in front of a value with no closing character and no
    line terminator, followed by the closing character, [getRX]
    returns that value, whatever comes before and after. *)
Theorem getRX_reads_first (rx : regexp) (a v b : string) :
  clean (rx_stop rx) v = true ->
  noEarlier (rx_prefix rx) a = true ->
  getRX rx (a ++ rx_prefix rx ++ v ++ String (rx_stop rx) b) = Some v.
Proof. apply exec_reads_first. Qed.

(** ** Splitting and joining *)

Lemma split_go_nonempty (sep : string) (s : string) :
  forall k cur, Str.split_go sep k cur s <> [].
Proof.
  induction s as [|c r IH]; intros k cur; cbn [Str.split_go];
    [intro H; discriminate H|].
  destruct k; [|apply IH].
  destruct (String.prefix sep (String c r)); [intro H; discriminate H|apply IH].
Qed.

Lemma split_go_skip (sep cur : string) (u s : string) :
  Str.split_go sep (String.length u) cur (u ++ s) = Str.split_go sep 0 cur s.
Proof.
  induction u as [|c u IH]; [reflexivity|]. simpl. exact IH.
Qed.

Lemma join_cons (sep x : string) (l : list string) :
  l <> [] -> Str.join (x :: l) sep = x ++ sep ++ Str.join l sep.
Proof. destruct l; [contradiction|reflexivity]. Qed.

Lemma split_go_join (sep : string) (n : nat) :
  sep <> EmptyString ->
  forall s cur, (String.length s <= n)%nat ->
    Str.join (Str.split_go sep 0 cur s) sep = cur ++ s.
Proof.
  intro Hsep. induction n as [|n IH]; intros s cur L.
  - destruct s; [|simpl in L; lia]. simpl. now rewrite append_empty.
  - destruct s as [|c r]; [simpl; now rewrite append_empty|].
    simpl in L. cbn [Str.split_go].
    destruct (String.prefix sep (String c r)) eqn:Hp.
    + destruct sep as [|a sep']; [contradiction|].
      pose proof (prefix_split _ _ Hp) as E. simpl in E.
      injection E as Ea Er. subst a.
      assert (Hlen : forall x, (String.length (String x sep') - 1)%nat
                                = String.length sep') by (intro; simpl; lia).
      rewrite Hlen, Er, split_go_skip.
      rewrite join_cons by apply split_go_nonempty.
      rewrite IH.
      * simpl. rewrite <- Er. reflexivity.
      * assert (String.length r
                = (String.length sep' + String.length (Str.drop (String.length sep') r))%nat)
          by (rewrite Er at 1; apply append_length).
        lia.
    + rewrite IH by lia. apply append_snoc.
Qed.

(** X10. Splitting loses nothing: for a non-empty separator the parts
    joined with the separator give the text back, and there is always
    at least one part (so [sesx[0]] exists for every file, the empty
    one included). *)
Theorem split_join (s sep : string) :
  sep <> EmptyString ->
  Str.join (Str.split s sep) sep = s /\ Str.split s sep <> [].
Proof.
  intro H. split; [|apply split_go_nonempty].
  unfold Str.split. now rewrite (split_go_join sep (String.length s)).
Qed.

Lemma replace_go_absent (pat by_ s : string) :
  Str.includes s pat = false -> Str.replace_go pat by_ 0 s = s.
Proof.
  induction s as [|c r IH]; intro H; [reflexivity|].
  simpl in H. apply orb_false_iff in H. destruct H as [Hp Hr].
  simpl. rewrite Hp. now rewrite IH.
Qed.

(** X11. A name part without the entity is written to the CUE sheet
    unchanged. *)
Theorem unescapeAmp_absent (s : string) :
  Str.includes s "&amp;" = false -> unescapeAmp s = s.
Proof. apply replace_go_absent. Qed.

(** ** Joining clips to files *)

(** X12. [getFilePathById] returns the path of the first file
    reference that carries the id: references after it, with the same
    id or not, are not looked at. *)
Theorem getFilePathById_first (pre : list file) (f : file) (post : list file)
    (id : option string) :
  noFileFor pre id -> sameId (file_id f) id = true ->
  getFilePathById (pre ++ f :: post) id = Some (file_path f).
Proof.
  intros Hpre Hf. induction Hpre as [|g r Hg _ IH]; simpl.
  - now rewrite Hf.
  - now rewrite Hg.
Qed.

(** X13. The lookup gives [null] exactly when no file reference carries
    the id; that is always so for a clip line without a [fileID]
    attribute, and after a scan also for an empty [fileID]. *)
Theorem getFilePathById_null (fs : list file) (id : option string) :
  (getFilePathById fs id = None <-> noFileFor fs id)
  /\ getFilePathById fs None = None
  /\ (Forall fileOK fs -> getFilePathById fs (Some EmptyString) = None).
Proof.
  assert (H : forall i, getFilePathById fs i = None <-> noFileFor fs i).
  { intro i. unfold noFileFor. induction fs as [|g r IH]; simpl.
    - split; [constructor|reflexivity].
    - destruct (sameId (file_id g) i) eqn:E.
      + split; [discriminate|]. intro F. inversion F; congruence.
      + rewrite IH. split; [now constructor|]. intro F. now inversion F. }
  split; [apply H|]. split.
  - apply H. unfold noFileFor. apply Forall_forall. intros g _.
    unfold sameId. now destruct (file_id g).
  - intro Hok. apply H. unfold noFileFor.
    eapply Forall_impl; [|exact Hok]. intros g [_ Hid].
    unfold sameId. destruct (file_id g) as [s|]; [|reflexivity].
    destruct (s =? "")%string eqn:E; [|reflexivity].
    apply String.eqb_eq in E. subst s. contradiction.
Qed.

(** ** Times of an entry *)

(** X14. For a clip whose start and end attributes read as finite
    numbers, the end not before the start, and a positive sample rate,
    the entry starts at the quotient start/rate and lasts the quotient
    end/rate less the start point, each rounded as the language rounds;
    the start point is not after the end time, and when it is finite
    the duration is not negative. *)
Theorem clipEntry_times (sesx : list string) (fs : list file) (rate x y : Q)
    (i : nat) :
  Num.ofValue (getRX rxStartPoint (lineAt sesx i)) = Num.Fin x ->
  Num.ofValue (getRX rxEndPoint (lineAt sesx i)) = Num.Fin y ->
  (0 < rate)%Q -> (x <= y)%Q ->
  let e := clipEntry sesx fs (Num.Fin rate) i in
  let finish := Num.div (Num.Fin y) (Num.Fin rate) in
  startPoint e = Num.div (Num.Fin x) (Num.Fin rate)
  /\ duration e = Num.sub finish (startPoint e)
  /\ Num.le (startPoint e) finish
  /\ (forall a, startPoint e = Num.Fin a -> Num.le (Num.ofZ 0) (duration e)).
Proof.
  intros Hx Hy Hr Hxy. cbv zeta. unfold clipEntry. cbn [startPoint duration].
  rewrite Hx, Hy.
  assert (Hd : forall z, Num.div (Num.Fin z) (Num.Fin rate) = Num.round (z / rate)).
  { intro z. unfold Num.div. destruct (Qeq_bool rate 0) eqn:E; [|reflexivity].
    apply Qeq_bool_iff in E. rewrite E in Hr. destruct (Qlt_irrefl _ Hr). }
  rewrite !Hd.
  assert (Hle : Num.le (Num.round (x / rate)) (Num.round (y / rate))).
  { apply round_mono. apply Qmult_le_compat_r; [exact Hxy|].
    apply Qlt_le_weak, Qinv_lt_0_compat, Hr. }
  split; [reflexivity|]. split; [reflexivity|]. split; [exact Hle|].
  intros a Ha. rewrite Ha in *.
  destruct (Num.round (y / rate)) as [| | |b]; cbn [Num.le] in Hle;
    try contradiction.
  - exact I.
  - cbn [Num.sub Num.neg Num.add]. apply round_nonneg. lra.
Qed.

(** ** Selecting tracks *)

(** X15. A selected index inside the track list adds the entries of
    that track's clips, in clip order, and no warning; an index that is
    negative or not below the number of tracks adds its warning and no
    entry. *)
Theorem buildTrack_bounds (sesx : list string) (st : scanner) (t : Z) :
  ((0 <= t < Z.of_nat (List.length (tracks st)))%Z ->
   exists tr, nth_error (tracks st) (Z.to_nat t) = Some tr
              /\ buildTrack sesx st t
                 = ([], map (clipEntry sesx (files st) (sampleRate st))
                            (track_clips tr)))
  /\ (~ (0 <= t < Z.of_nat (List.length (tracks st)))%Z ->
      buildTrack sesx st t = ([noTrack t], [])).
Proof.
  unfold buildTrack, trackAt. split; intro H.
  - destruct (Z.ltb_spec t 0); [lia|].
    destruct (nth_error (tracks st) (Z.to_nat t)) as [tr|] eqn:E.
    + now exists tr.
    + apply nth_error_None in E. lia.
  - destruct (Z.ltb_spec t 0); [reflexivity|].
    destruct (nth_error (tracks st) (Z.to_nat t)) as [tr|] eqn:E; [|reflexivity].
    assert (Z.to_nat t < List.length (tracks st))%nat
      by (apply nth_error_Some; congruence).
    lia.
Qed.

(** ** CUE sheet *)

Lemma split_two (s sep : string) :
  sep <> EmptyString -> Str.includes s sep = true ->
  exists a b rest, Str.split s sep = a :: b :: rest.
Proof.
  intro Hsep. unfold Str.split. generalize EmptyString as cur.
  induction s as [|c r IH]; intros cur H.
  - simpl in H. rewrite orb_false_r in H.
    destruct sep; [contradiction|discriminate H].
  - cbn [Str.includes] in H. cbn [Str.split_go].
    destruct (String.prefix sep (String c r)) eqn:Hp.
    + pose proof (split_go_nonempty sep r (String.length sep - 1) EmptyString) as Hn.
      destruct (Str.split_go sep (String.length sep - 1) EmptyString r) as [|b rest];
        [contradiction|]. now exists cur, b, rest.
    + simpl in H. now apply IH.
Qed.

Lemma cueTrack_with_separator (d : Num.number) (i : nat) (e : entry) :
  hasSeparator e ->
  exists title performer,
    cueTrack d i e
    = Ok [ "  TRACK " ++ Str.padStart (Str.ofNat (i + 1)) 2 "0" ++ " AUDIO";
           title; performer; "    INDEX 01 " ++ cueIndex d e ].
Proof.
  intro H. unfold hasSeparator in H.
  destruct (split_two _ " - " ltac:(discriminate) H) as [a [b [rest E]]].
  unfold cueTrack, nameParts. rewrite E. cbn [map]. now eexists _, _.
Qed.

Lemma separator_dec (e : entry) : noSeparator e \/ hasSeparator e.
Proof.
  unfold noSeparator, hasSeparator. destruct (Str.includes (name e) " - "); auto.
Qed.

Lemma cueTracks_all_separated (d : Num.number) (playlist : list entry) :
  Forall hasSeparator playlist ->
  forall i, exists body,
    cueTracks d i playlist = Ok body
    /\ List.length body = (4 * List.length playlist)%nat
    /\ forall k e, nth_error playlist k = Some e ->
         nth_error body (4 * k)
         = Some ("  TRACK " ++ Str.padStart (Str.ofNat (i + k + 1)) 2 "0" ++ " AUDIO")
         /\ nth_error body (4 * k + 3) = Some ("    INDEX 01 " ++ cueIndex d e).
Proof.
  induction 1 as [|e r He _ IH]; intro i.
  - exists []. split; [reflexivity|]. split; [reflexivity|].
    intros k e H. destruct k; discriminate H.
  - destruct (cueTrack_with_separator d i e He) as [t [p E]].
    destruct (IH (S i)) as [body [Eb [Lb Hb]]].
    eexists. simpl cueTracks. rewrite E, Eb. split; [reflexivity|].
    split; [simpl; rewrite Lb; lia|].
    intros k e' Hk. destruct k as [|k].
    + injection Hk as <-. rewrite Nat.add_0_r. split; reflexivity.
    + simpl in Hk. destruct (Hb k e' Hk) as [H1 H2].
      replace (4 * S k)%nat with (4 + 4 * k)%nat by lia.
      replace (4 + 4 * k + 3)%nat with (4 + (4 * k + 3))%nat by lia.
      replace (i + S k + 1)%nat with (S i + k + 1)%nat by lia.
      split; [exact H1|exact H2].
Qed.

(** C5. The builder and the M3U renderer do not read [delta]: what
    they produce, and every run that does not write a CUE file, is the
    same for every value of the option.  The CUE renderer adds the
    option, coerced to a 32-bit integer, to the start point of each
    entry: when every name holds the separator, the sheet it returns
    has four lines per entry after the header, and the fourth, the
    INDEX line, carries the timestamp of that entry's start point plus
    that integer.  With delta [0] the CUE text and the whole run are
    those of a run without the option. *)
Theorem delta_only_in_cue (h : Host) (opts : options) (d : option string)
    (playlist : list entry) :
  let shift := Num.ofZ (Num.ToInt32 (Num.ofValue (opt_delta opts))) in
  (forall sesx st,
      build sesx st (selection (opt_track (withDelta d opts)))
      = build sesx st (selection (opt_track opts)))
  /\ makeM3U h (withDelta d opts) playlist = makeM3U h opts playlist
  /\ (extOf h (nth 1 (args opts) EmptyString) = ".cue"
      \/ main h (withDelta d opts) = main h opts)
  /\ (Forall hasSeparator playlist ->
      exists body,
        makeCue h opts playlist
        = Ok (Str.join (cueHead h opts ++ body ++ [EmptyString])%list Str.CRLF)
        /\ List.length body = (4 * List.length playlist)%nat
        /\ forall k e, nth_error playlist k = Some e ->
             nth_error body (4 * k + 3)
             = Some ("    INDEX 01 " ++ toCueTS (Num.add (startPoint e) shift)))
  /\ makeCue h (withDelta (Some "0") opts) playlist
     = makeCue h (withDelta None opts) playlist
  /\ main h (withDelta (Some "0") opts) = main h (withDelta None opts).
Proof.
  cbv zeta.
  split; [reflexivity|]. split; [reflexivity|]. split; [|split; [|split]].
  - destruct (extOf h (nth 1 (args opts) EmptyString) =? ".cue")%string eqn:E.
    + left. now apply String.eqb_eq.
    + right. apply main_cases; [reflexivity|].
      intros sesx st outfile <-. now apply convert_not_cue.
  - intro F.
    destruct (cueTracks_all_separated (delta opts) playlist F 0) as [body [E [L H]]].
    exists body. unfold makeCue. rewrite E. split; [reflexivity|].
    split; [exact L|]. intros k e Hk. exact (proj2 (H k e Hk)).
  - now apply makeCue_same_delta.
  - apply main_cases; [reflexivity|].
    intros sesx st outfile _. apply convert_zero_delta.
Qed.

Lemma delta_only_in_cue_witness :
  Forall hasSeparator More.inOrder
  /\ (exists body,
        makeCue (Sample.host Sample.duo) (More.shifted "90.7") More.inOrder
        = Ok (Str.join (cueHead (Sample.host Sample.duo) (More.shifted "90.7")
                        ++ body ++ [EmptyString])%list Str.CRLF)
        /\ List.length body = (4 * List.length More.inOrder)%nat
        /\ forall k e, nth_error More.inOrder k = Some e ->
             nth_error body (4 * k + 3)
             = Some ("    INDEX 01 "
                     ++ toCueTS (Num.add (startPoint e)
                                         (Num.ofZ (Num.ToInt32
                                                     (Num.ofValue (Some "90.7")))))))
  /\ makeCue (Sample.host Sample.duo) (More.shifted "90.7") More.inOrder
     = Ok (Str.join
             [ "PERFORMER " ++ Str.quoted "sesx2pl";
               "TITLE " ++ Str.quoted "Playlist";
               "FILE " ++ Str.quoted "INSERT-FILENAME-TO-SOURCE.mp3" ++ " MP3";
               "  TRACK 01 AUDIO";
               "    TITLE " ++ Str.quoted "Song";
               "    PERFORMER " ++ Str.quoted "Art";
               "    INDEX 01 01:30:00";
               "  TRACK 02 AUDIO";
               "    TITLE " ++ Str.quoted "Y";
               "    PERFORMER " ++ Str.quoted "X";
               "    INDEX 01 01:32:00";
               EmptyString ] Str.CRLF).
Proof.
  assert (F : Forall hasSeparator More.inOrder)
    by (repeat (apply Forall_cons; [reflexivity|]); apply Forall_nil).
  split; [exact F|]. split.
  - exact (proj1 (proj2 (proj2 (proj2
             (delta_only_in_cue (Sample.host Sample.duo) (More.shifted "90.7")
                                None More.inOrder)))) F).
  - vm_compute. reflexivity.
Defined.

(** X16. [makeCue] throws exactly when some entry's name holds no
    separator; on every other playlist it returns a sheet. *)
Theorem makeCue_throws_iff (h : Host) (opts : options) (playlist : list entry) :
  makeCue h opts playlist = Throw TypeError <-> Exists noSeparator playlist.
Proof.
  split.
  - intro H.
    assert (D : Exists noSeparator playlist \/ Forall hasSeparator playlist).
    { clear H. induction playlist as [|e r IH]; [right; constructor|].
      destruct (separator_dec e) as [N|S]; [left; now constructor|].
      destruct IH as [X|F]; [left; now constructor|right; now constructor]. }
    destruct D as [X|F]; [exact X|].
    destruct (cueTracks_all_separated (delta opts) playlist F 0) as [body [E _]].
    unfold makeCue in H. rewrite E in H. discriminate H.
  - intro H. unfold makeCue. now rewrite cueTracks_without_separator.
Qed.

(** X17. When every name holds the separator the sheet is the three
    header lines, four lines per entry and a final empty line, joined
    by CR LF; the blocks are numbered from 1 in playlist order, and the
    INDEX line of each block is the timestamp of that entry's start
    point plus delta. *)
Theorem makeCue_sheet (h : Host) (opts : options) (playlist : list entry) :
  Forall hasSeparator playlist ->
  exists body,
    makeCue h opts playlist
    = Ok (Str.join (cueHead h opts ++ body ++ [EmptyString])%list Str.CRLF)
    /\ List.length body = (4 * List.length playlist)%nat
    /\ forall k e, nth_error playlist k = Some e ->
         nth_error body (4 * k)
         = Some ("  TRACK " ++ Str.padStart (Str.ofNat (k + 1)) 2 "0" ++ " AUDIO")
         /\ nth_error body (4 * k + 3)
            = Some ("    INDEX 01 " ++ cueIndex (delta opts) e).
Proof.
  intro F.
  destruct (cueTracks_all_separated (delta opts) playlist F 0) as [body [E [L H]]].
  exists body. unfold makeCue. rewrite E. split; [reflexivity|].
  split; [exact L|exact H].
Qed.

(** ** M3U playlist *)

Lemma m3uEntries_falsy (h : Host) (subs : option string) (playlist : list entry) :
  subs = None \/ subs = Some EmptyString ->
  exists body, m3uEntries h subs playlist = Ok body.
Proof.
  intro Hs. induction playlist as [|e r [body IH]]; [now exists []|].
  simpl. unfold m3uEntry, m3uPath.
  destruct Hs as [->| ->]; simpl; rewrite IH; now eexists.
Qed.

Lemma m3uEntries_all_paths (h : Host) (subs : option string) (playlist : list entry) :
  Forall hasPath playlist -> exists body, m3uEntries h subs playlist = Ok body.
Proof.
  induction 1 as [|e r He _ [body IH]]; [now exists []|].
  simpl. unfold m3uEntry, m3uPath. unfold hasPath in He.
  destruct subs as [dir|]; [destruct (dir =? "")%string|];
    destruct (path e); try contradiction; simpl; rewrite IH; now eexists.
Qed.

(** X18. [makeM3U] throws exactly when the source option is a
    non-empty string and some entry has no path; without the option,
    or with all paths resolved, it returns a playlist. *)
Theorem makeM3U_throws_iff (h : Host) (opts : options) (playlist : list entry) :
  makeM3U h opts playlist = Throw TypeError <->
  exists dir, opt_source opts = Some dir /\ dir <> EmptyString
              /\ Exists nullPath playlist.
Proof.
  split.
  - intro H. unfold makeM3U in H.
    assert (D : Exists nullPath playlist \/ Forall hasPath playlist).
    { clear H. induction playlist as [|e r IH]; [right; constructor|].
      assert (De : nullPath e \/ hasPath e)
        by (unfold nullPath, hasPath; destruct (path e); [right; discriminate|now left]).
      destruct De as [N|P]; [left; now constructor|].
      destruct IH as [X|F]; [left; now constructor|right; now constructor]. }
    destruct D as [X|F].
    + destruct (opt_source opts) as [dir|] eqn:Es.
      * destruct (dir =? "")%string eqn:Ed.
        -- apply String.eqb_eq in Ed. subst dir.
           destruct (m3uEntries_falsy h (Some EmptyString) playlist) as [b Eb];
             [now right|]. rewrite Eb in H. discriminate H.
        -- exists dir. split; [reflexivity|]. split; [|exact X].
           now apply String.eqb_neq.
      * destruct (m3uEntries_falsy h None playlist) as [b Eb]; [now left|].
        rewrite Eb in H. discriminate H.
    + destruct (m3uEntries_all_paths h (opt_source opts) playlist F) as [b Eb].
      rewrite Eb in H. discriminate H.
  - intros [dir [Hs [Hd Hx]]]. now apply (makeM3U_null_path h opts dir).
Qed.

(** ** The whole run *)

(** X19. With the info option the run writes no file, whatever the
    arguments, the host and the contents of the source file. *)
Theorem info_never_writes (h : Host) (opts : options) :
  opt_info opts = true -> written (main h opts) = None.
Proof.
  intro Hi. unfold main.
  destruct (badArgs h (args opts)); [reflexivity|].
  destruct (args opts) as [|infile [|outfile rest]]; try reflexivity.
  destruct (readFileSync h infile) as [text|]; [|reflexivity].
  unfold process. destruct (notValid _) as [[|]|e]; try reflexivity.
  destruct (scan _) as [st|e]; [|reflexivity].
  unfold convert. rewrite Hi. now destruct (negb _).
Qed.

(** X20. A file is written only at the end of a run that completes:
    it is the file named by the second argument, its extension in lower
    case is [.cue] or [.m3u], the source file was read, the info option
    is off, the host accepted the write, and the last line printed is
    [Done.]. *)
Theorem written_only_when_done (h : Host) (opts : options) (f d : string) :
  written (main h opts) = Some (f, d) ->
  exit (main h opts) = Completed
  /\ opt_info opts = false
  /\ writeFileSync h f d = true
  /\ (extOf h f = ".cue" \/ extOf h f = ".m3u")
  /\ last (stdout (main h opts)) EmptyString = msgDone
  /\ exists infile rest text,
       args opts = infile :: f :: rest /\ readFileSync h infile = Some text.
Proof.
  unfold main. destruct (badArgs h (args opts)) eqn:Hb; [discriminate|].
  destruct (args opts) as [|infile [|outfile rest]]; try discriminate.
  destruct (readFileSync h infile) as [text|] eqn:Hr; [|discriminate].
  unfold process. destruct (notValid _) as [[|]|e]; try discriminate.
  destruct (scan _) as [st|e]; [|discriminate].
  unfold convert. destruct (negb _); [discriminate|].
  destruct (opt_info opts); [discriminate|].
  destruct (build _ _ _) as [warnings raw].
  destruct (render h opts outfile (sort byStart raw)) as [[data|]|e] eqn:Hren;
    try discriminate.
  unfold save. cbv zeta.
  destruct (writeFileSync h outfile data) eqn:Hw; [|discriminate].
  cbn [written exit stdout]. intro E. injection E as <- <-.
  split; [reflexivity|]. split; [reflexivity|]. split; [exact Hw|].
  split.
  - unfold badArgs in Hb. apply orb_false_iff in Hb. destruct Hb as [_ Hb].
    apply andb_false_iff in Hb.
    destruct Hb as [Hb|Hb]; apply negb_false_iff, String.eqb_eq in Hb; auto.
  - split; [apply last_last|]. now exists infile, rest, text.
Qed.

(** X21. The signature check itself throws exactly on a file of one
    line whose line does not start with the XML marker: the second line
    it then reads is [undefined].  The run ends there on the uncaught
    [TypeError]. *)
Theorem notValid_throws_iff (h : Host) (opts : options) (sesx : list string)
    (outfile : string) :
  (notValid sesx = Throw TypeError <->
   Str.startsWith (Str.toLowerCase (Str.trim (nth 0 sesx EmptyString))) "<?xml" = false
   /\ (List.length sesx <= 1)%nat)
  /\ (notValid sesx = Throw TypeError -> process h opts sesx outfile = aborted).
Proof.
  split.
  - unfold notValid.
    destruct (Str.startsWith (Str.toLowerCase _) "<?xml").
    + split; [discriminate|]. intros [H _]. discriminate H.
    + destruct (nth_error sesx 1) as [l1|] eqn:E.
      * split; [discriminate|]. intros [_ L].
        assert (1 < List.length sesx)%nat by (apply nth_error_Some; congruence).
        lia.
      * split; [|reflexivity]. intros _. split; [reflexivity|].
        now apply nth_error_None.
  - intro H. unfold process. now rewrite H.
Qed.

(** ** Track names *)

(** X22. On a line that reads [<name>N</name>] once trimmed, with no
    [<] and no line terminator in [N], the first name line after a
    track header gives the current track the name [N] and nothing else
    changes but the flag that a name was captured. *)
Theorem scanLine_captures_name (st : scanner) (i k : nat) (raw n : string) :
  Str.trim raw = "<name>" ++ n ++ "</name>" ->
  clean "<" n = true ->
  _name st = false -> _track st = Some k ->
  scanLine st i raw = Ok (nameTrack st k (Some n)).
Proof.
  intros Ht Hc Hn Hk.
  assert (Hl : isNameLine raw = true)
    by (unfold isNameLine, Str.startsWith; rewrite Ht; apply prefix_append).
  destruct (name_only raw Hl) as [Hh _].
  rewrite scanLine_shape, Hh, Hn, Hl, Hk. cbn [negb andb]. rewrite Ht.
  change ("<name>" ++ n ++ "</name>")
    with ("<name" ++ rx_prefix rxTrackName ++ n ++ String (rx_stop rxTrackName) "/name>").
  unfold getRX. now rewrite exec_reads_first.
Qed.

(** ** Order of the playlist *)

Lemma le_not_positive (a b : Num.number) :
  Num.le a b -> Num.positive (Num.sub a b) = false.
Proof.
  destruct a as [| | |x], b as [| | |y];
    cbn [Num.le Num.sub Num.neg Num.add Num.positive]; try contradiction; auto.
  intro H. apply not_true_is_false. intro P. apply round_positive in P. lra.
Qed.

(** X23. A list of entries that is already in non-decreasing order of
    start point comes out of the sort as it went in. *)
Theorem sorted_unchanged (l : list entry) :
  StronglySorted byStartLe l -> sort byStart l = l.
Proof.
  induction 1 as [|x r Hr IH Hx]; [reflexivity|].
  simpl. rewrite IH. destruct r as [|y r']; [reflexivity|].
  simpl. inversion Hx as [|? ? Hxy _]; subst.
  unfold byStart. now rewrite (le_not_positive _ _ Hxy).
Qed.

(** ** Info report *)

Lemma entryCounts_nth (ts : list track) :
  forall i k t, nth_error ts k = Some t ->
    nth_error (entryCounts i ts) k
    = Some ("  # of entries in track " ++ Str.ofNat (i + k) ++ ": "
            ++ Str.ofNat (List.length (track_clips t))).
Proof.
  induction ts as [|t0 r IH]; intros i k t H; [destruct k; discriminate H|].
  destruct k as [|k]; simpl in *.
  - injection H as <-. now rewrite Nat.add_0_r.
  - rewrite (IH (S i) k t H). now rewrite Nat.add_succ_r.
Qed.

Lemma entryCounts_length (ts : list track) :
  forall i, List.length (entryCounts i ts) = List.length ts.
Proof. induction ts as [|t r IH]; intro i; simpl; [reflexivity|now rewrite IH]. Qed.

(** X24. The info report has two heading lines, then one line per
    track in track order, numbered from 0 and giving that track's
    number of clips, then an empty line. *)
Theorem report_lines (ts : list track) :
  List.length (report ts) = (List.length ts + 3)%nat
  /\ (forall k t, nth_error ts k = Some t ->
        nth_error (report ts) (2 + k)
        = Some ("  # of entries in track " ++ Str.ofNat k ++ ": "
                ++ Str.ofNat (List.length (track_clips t))))
  /\ last (report ts) "x" = EmptyString.
Proof.
  unfold report. cbv zeta. split; [|split].
  - cbn [app List.length]. rewrite length_app, entryCounts_length. simpl. lia.
  - intros k t H. cbn [app Nat.add nth_error].
    rewrite nth_error_app1.
    + apply (entryCounts_nth ts 0 k t H).
    + rewrite entryCounts_length. apply nth_error_Some. congruence.
  - rewrite app_assoc. apply last_last.
Qed.

(** ** Integer options *)

Lemma wrap32_range (z : Z) : (- 2 ^ 31 <= Num.wrap32 z < 2 ^ 31)%Z.
Proof.
  unfold Num.wrap32.
  pose proof (Z.mod_pos_bound z (2 ^ 32) ltac:(lia)) as H.
  destruct (Z.geb_spec (z mod 2 ^ 32) (2 ^ 31)); lia.
Qed.

Lemma ToInt32_range (a : Num.number) : (- 2 ^ 31 <= Num.ToInt32 a < 2 ^ 31)%Z.
Proof. destruct a; simpl; try lia. apply wrap32_range. Qed.

(** X25. The delta the CUE renderer adds is always an integer of 32
    bits, 0 when the option is absent or is not a number; and every
    selected track index is an integer of 32 bits, one per
    comma-separated item of the option, at least one. *)
Theorem integer_options (opts : options) :
  (exists d, delta opts = Num.ofZ d /\ (- 2 ^ 31 <= d < 2 ^ 31)%Z)
  /\ (opt_delta opts = None -> delta opts = Num.ofZ 0)
  /\ (forall s, opt_delta opts = Some s -> Num.ofString s = Num.NaN ->
                delta opts = Num.ofZ 0)
  /\ Forall (fun t => (- 2 ^ 31 <= t < 2 ^ 31)%Z) (selection (opt_track opts))
  /\ selection (opt_track opts) <> [].
Proof.
  split; [|split; [|split; [|split]]].
  - exists (deltaZ opts). split; [reflexivity|apply ToInt32_range].
  - intro H. unfold delta. now rewrite H.
  - intros s H N. unfold delta. rewrite H. simpl. now rewrite N.
  - unfold selection. apply Forall_forall. intros t Ht.
    apply in_map_iff in Ht. destruct Ht as [e [<- _]]. apply ToInt32_range.
  - unfold selection, Str.split. intro E. apply map_eq_nil in E.
    now apply split_go_nonempty in E.
Qed.

(** ** The further properties at concrete inputs *)

Lemma scan_clips_valid_witness :
  scan (Sample.sesxOf Sample.mix) = Ok (Sample.scanned Sample.mix)
  /\ forall tr c,
       In tr (tracks (Sample.scanned Sample.mix)) -> In c (track_clips tr) ->
       (track_line tr < c < List.length (Sample.sesxOf Sample.mix))%nat
       /\ (exists l, nth_error (Sample.sesxOf Sample.mix) c = Some l
                     /\ lineAt (Sample.sesxOf Sample.mix) c = l
                     /\ isClipLine l = true)
       /\ forall j, (track_line tr < j <= c)%nat ->
                    isTrackHeader (nth j (Sample.sesxOf Sample.mix) EmptyString) = false.
Proof.
  assert (H : scan (Sample.sesxOf Sample.mix) = Ok (Sample.scanned Sample.mix))
    by (vm_compute; reflexivity).
  split; [exact H|]. exact (scan_clips_valid _ _ H).
Defined.

Lemma scan_tracks_are_headers_witness :
  scan (Sample.sesxOf Sample.mix) = Ok (Sample.scanned Sample.mix)
  /\ map track_line (tracks (Sample.scanned Sample.mix))
     = positions isTrackHeader 0 (Sample.sesxOf Sample.mix)
  /\ List.length (tracks (Sample.scanned Sample.mix))
     = List.length (positions isTrackHeader 0 (Sample.sesxOf Sample.mix))
  /\ match _track (Sample.scanned Sample.mix) with
     | Some k => S k = List.length (tracks (Sample.scanned Sample.mix))
     | None => tracks (Sample.scanned Sample.mix) = []
     end.
Proof.
  assert (H : scan (Sample.sesxOf Sample.mix) = Ok (Sample.scanned Sample.mix))
    by (vm_compute; reflexivity).
  split; [exact H|]. exact (scan_tracks_are_headers _ _ H).
Defined.

Lemma scan_clip_total_witness :
  scan (Sample.sesxOf Sample.mix) = Ok (Sample.scanned Sample.mix)
  /\ totalClips (tracks (Sample.scanned Sample.mix))
     = clipLinesAfterHeader false (Sample.sesxOf Sample.mix).
Proof.
  assert (H : scan (Sample.sesxOf Sample.mix) = Ok (Sample.scanned Sample.mix))
    by (vm_compute; reflexivity).
  split; [exact H|]. exact (scan_clip_total _ _ H).
Defined.

Lemma scan_files_witness :
  scan (Sample.sesxOf Sample.session) = Ok (Sample.scanned Sample.session)
  /\ files (Sample.scanned Sample.session) = filesOf (Sample.sesxOf Sample.session)
  /\ Forall fileOK (files (Sample.scanned Sample.session)).
Proof.
  assert (H : scan (Sample.sesxOf Sample.session) = Ok (Sample.scanned Sample.session))
    by (vm_compute; reflexivity).
  split; [exact H|]. exact (scan_files _ _ H).
Defined.

Lemma scan_rate_witness :
  scan (Sample.sesxOf More.noSession) = Ok (Sample.scanned More.noSession)
  /\ Forall (fun l => isSessionLine l = false) (Sample.sesxOf More.noSession)
  /\ notValid (Sample.sesxOf More.noSession) = Ok false
  /\ sampleRate (Sample.scanned More.noSession)
     = rateOf (Num.ofZ 0) (Sample.sesxOf More.noSession)
  /\ sampleRate (Sample.scanned More.noSession) = Num.ofZ 0
  /\ process (Sample.host More.noSession) (Sample.opts "out.m3u")
             (Sample.sesxOf More.noSession) "out.m3u"
     = {| stdout := [EmptyString; msgNoRate]; written := None; exit := Completed |}.
Proof.
  assert (H : scan (Sample.sesxOf More.noSession) = Ok (Sample.scanned More.noSession))
    by (vm_compute; reflexivity).
  assert (F : Forall (fun l => isSessionLine l = false) (Sample.sesxOf More.noSession))
    by (vm_compute; repeat (apply Forall_cons; [reflexivity|]); apply Forall_nil).
  assert (V : notValid (Sample.sesxOf More.noSession) = Ok false)
    by (vm_compute; reflexivity).
  split; [exact H|]. split; [exact F|]. split; [exact V|].
  split; [exact (proj1 (scan_rate (Sample.host More.noSession) (Sample.opts "out.m3u")
                                  _ _ "out.m3u" H))|].
  split.
  - exact (proj1 (proj2 (scan_rate (Sample.host More.noSession) (Sample.opts "out.m3u")
                                   _ _ "out.m3u" H) F)).
  - exact (proj2 (proj2 (scan_rate (Sample.host More.noSession) (Sample.opts "out.m3u")
                                   _ _ "out.m3u" H) F) V).
Defined.

Lemma scanLine_name_once_witness :
  _name (Sample.scanned Sample.session) = true
  /\ isNameLine (Sample.nameLine "Other") = true
  /\ scanLine (Sample.scanned Sample.session) 9 (Sample.nameLine "Other")
     = Ok (Sample.scanned Sample.session).
Proof.
  assert (H : _name (Sample.scanned Sample.session) = true)
    by (vm_compute; reflexivity).
  assert (L : isNameLine (Sample.nameLine "Other") = true)
    by (vm_compute; reflexivity).
  split; [exact H|]. split; [exact L|]. exact (scanLine_name_once _ 9%nat _ H L).
Defined.

Lemma getRX_sound_witness :
  getRX rxName (Sample.clip "0" "Art - Song" "0" "44100") = Some "Art - Song"
  /\ clean (rx_stop rxName) "Art - Song" = true
  /\ exists a b,
       Sample.clip "0" "Art - Song" "0" "44100"
       = a ++ rx_prefix rxName ++ "Art - Song" ++ String (rx_stop rxName) b.
Proof.
  assert (H : getRX rxName (Sample.clip "0" "Art - Song" "0" "44100")
              = Some "Art - Song") by (vm_compute; reflexivity).
  split; [exact H|]. exact (getRX_sound _ _ _ H).
Defined.

Lemma getRX_reads_first_witness :
  clean (rx_stop rxName) "Art - Song" = true
  /\ noEarlier (rx_prefix rxName) More.beforeName = true
  /\ getRX rxName
       (More.beforeName ++ rx_prefix rxName ++ "Art - Song"
        ++ String (rx_stop rxName) More.afterName)
     = Some "Art - Song".
Proof.
  assert (C : clean (rx_stop rxName) "Art - Song" = true)
    by (vm_compute; reflexivity).
  assert (N : noEarlier (rx_prefix rxName) More.beforeName = true)
    by (vm_compute; reflexivity).
  split; [exact C|]. split; [exact N|].
  exact (getRX_reads_first rxName More.beforeName "Art - Song" More.afterName C N).
Defined.

Lemma split_join_witness :
  "," <> EmptyString
  /\ Str.join (Str.split "0,2,,x" ",") "," = "0,2,,x"
  /\ Str.split "0,2,,x" "," <> [].
Proof.
  assert (H : "," <> EmptyString) by discriminate.
  split; [exact H|]. exact (split_join "0,2,,x" "," H).
Defined.

Lemma unescapeAmp_absent_witness :
  Str.includes "Art" "&amp;" = false /\ unescapeAmp "Art" = "Art".
Proof.
  assert (H : Str.includes "Art" "&amp;" = false) by (vm_compute; reflexivity).
  split; [exact H|]. exact (unescapeAmp_absent "Art" H).
Defined.

Lemma getFilePathById_first_witness :
  noFileFor [More.fileA] (Some "1")
  /\ sameId (file_id More.fileB) (Some "1") = true
  /\ getFilePathById ([More.fileA] ++ More.fileB :: [More.fileB'])%list (Some "1")
     = Some (file_path More.fileB).
Proof.
  assert (H : noFileFor [More.fileA] (Some "1"))
    by (apply Forall_cons; [reflexivity|apply Forall_nil]).
  assert (E : sameId (file_id More.fileB) (Some "1") = true) by reflexivity.
  split; [exact H|]. split; [exact E|].
  exact (getFilePathById_first [More.fileA] More.fileB [More.fileB'] (Some "1") H E).
Defined.

Lemma getFilePathById_null_witness :
  Forall fileOK [More.fileA; More.fileB]
  /\ getFilePathById [More.fileA; More.fileB] (Some EmptyString) = None.
Proof.
  assert (H : Forall fileOK [More.fileA; More.fileB]).
  { repeat (apply Forall_cons; [split; discriminate|]). apply Forall_nil. }
  split; [exact H|].
  exact (proj2 (proj2 (getFilePathById_null [More.fileA; More.fileB] None)) H).
Defined.

Lemma clipEntry_times_witness :
  Num.ofValue (getRX rxStartPoint (lineAt (Sample.sesxOf More.offBeat) 6))
  = Num.Fin 9
  /\ Num.ofValue (getRX rxEndPoint (lineAt (Sample.sesxOf More.offBeat) 6))
     = Num.Fin 44109
  /\ (0 < 44100)%Q /\ (9 <= 44109)%Q
  /\ (startPoint More.offBeatEntry = Num.div (Num.Fin 9) (Num.Fin 44100)
      /\ duration More.offBeatEntry
         = Num.sub (Num.div (Num.Fin 44109) (Num.Fin 44100))
                   (startPoint More.offBeatEntry)
      /\ Num.le (startPoint More.offBeatEntry)
                (Num.div (Num.Fin 44109) (Num.Fin 44100))
      /\ (forall a, startPoint More.offBeatEntry = Num.Fin a ->
                    Num.le (Num.ofZ 0) (duration More.offBeatEntry)))
  /\ duration More.offBeatEntry = Num.Fin (9007199254740991 # 9007199254740992).
Proof.
  assert (Hx : Num.ofValue (getRX rxStartPoint (lineAt (Sample.sesxOf More.offBeat) 6))
               = Num.Fin 9) by (vm_compute; reflexivity).
  assert (Hy : Num.ofValue (getRX rxEndPoint (lineAt (Sample.sesxOf More.offBeat) 6))
               = Num.Fin 44109) by (vm_compute; reflexivity).
  assert (Hp : (0 < 44100)%Q) by reflexivity.
  assert (Hl : (9 <= 44109)%Q) by (vm_compute; discriminate).
  split; [exact Hx|]. split; [exact Hy|]. split; [exact Hp|]. split; [exact Hl|].
  split.
  - exact (clipEntry_times (Sample.sesxOf More.offBeat) [] 44100 9 44109 6
                           Hx Hy Hp Hl).
  - vm_compute. reflexivity.
Defined.

Lemma buildTrack_bounds_witness :
  (0 <= 0 < Z.of_nat (List.length (tracks (Sample.scanned Sample.session))))%Z
  /\ ~ (0 <= 3 < Z.of_nat (List.length (tracks (Sample.scanned Sample.session))))%Z
  /\ (exists tr,
        nth_error (tracks (Sample.scanned Sample.session)) (Z.to_nat 0) = Some tr
        /\ buildTrack (Sample.sesxOf Sample.session) (Sample.scanned Sample.session) 0
           = ([], map (clipEntry (Sample.sesxOf Sample.session)
                                 (files (Sample.scanned Sample.session))
                                 (sampleRate (Sample.scanned Sample.session)))
                      (track_clips tr)))
  /\ buildTrack (Sample.sesxOf Sample.session) (Sample.scanned Sample.session) 3
     = ([noTrack 3], []).
Proof.
  assert (H0 : (0 <= 0 < Z.of_nat (List.length (tracks (Sample.scanned Sample.session))))%Z)
    by (vm_compute; split; [discriminate|reflexivity]).
  assert (H3 : ~ (0 <= 3 < Z.of_nat (List.length (tracks (Sample.scanned Sample.session))))%Z)
    by (vm_compute; intros [_ H]; discriminate H).
  split; [exact H0|]. split; [exact H3|]. split.
  - exact (proj1 (buildTrack_bounds _ _ 0%Z) H0).
  - exact (proj2 (buildTrack_bounds _ _ 3%Z) H3).
Defined.

Lemma makeCue_sheet_witness :
  Forall hasSeparator More.inOrder
  /\ exists body,
       makeCue (Sample.host Sample.duo) (Sample.opts "out.cue") More.inOrder
       = Ok (Str.join (cueHead (Sample.host Sample.duo) (Sample.opts "out.cue")
                       ++ body ++ [EmptyString])%list Str.CRLF)
       /\ List.length body = (4 * List.length More.inOrder)%nat
       /\ forall k e, nth_error More.inOrder k = Some e ->
            nth_error body (4 * k)
            = Some ("  TRACK " ++ Str.padStart (Str.ofNat (k + 1)) 2 "0" ++ " AUDIO")
            /\ nth_error body (4 * k + 3)
               = Some ("    INDEX 01 " ++ cueIndex (delta (Sample.opts "out.cue")) e).
Proof.
  assert (H : Forall hasSeparator More.inOrder)
    by (repeat (apply Forall_cons; [reflexivity|]); apply Forall_nil).
  split; [exact H|]. exact (makeCue_sheet _ _ _ H).
Defined.

Lemma info_never_writes_witness :
  opt_info More.infoOpts = true
  /\ written (main (Sample.host Sample.session) More.infoOpts) = None.
Proof.
  split; [reflexivity|].
  exact (info_never_writes (Sample.host Sample.session) More.infoOpts eq_refl).
Defined.

Lemma written_only_when_done_witness :
  written (main (Sample.host Sample.session) (Sample.opts "out.m3u"))
  = Some ("out.m3u", Sample.m3uOfSession)
  /\ exit (main (Sample.host Sample.session) (Sample.opts "out.m3u")) = Completed
  /\ opt_info (Sample.opts "out.m3u") = false
  /\ writeFileSync (Sample.host Sample.session) "out.m3u" Sample.m3uOfSession = true
  /\ (extOf (Sample.host Sample.session) "out.m3u" = ".cue"
      \/ extOf (Sample.host Sample.session) "out.m3u" = ".m3u")
  /\ last (stdout (main (Sample.host Sample.session) (Sample.opts "out.m3u")))
          EmptyString = msgDone
  /\ exists infile rest text,
       args (Sample.opts "out.m3u") = infile :: "out.m3u" :: rest
       /\ readFileSync (Sample.host Sample.session) infile = Some text.
Proof.
  assert (H : written (main (Sample.host Sample.session) (Sample.opts "out.m3u"))
              = Some ("out.m3u", Sample.m3uOfSession)) by (vm_compute; reflexivity).
  split; [exact H|]. exact (written_only_when_done _ _ _ _ H).
Defined.

Lemma notValid_throws_iff_witness :
  notValid ["<sesx>"] = Throw TypeError
  /\ process (Sample.host "<sesx>") (Sample.opts "out.m3u") ["<sesx>"] "out.m3u"
     = aborted.
Proof.
  assert (H : notValid ["<sesx>"] = Throw TypeError) by (vm_compute; reflexivity).
  split; [exact H|].
  exact (proj2 (notValid_throws_iff (Sample.host "<sesx>") (Sample.opts "out.m3u")
                                    ["<sesx>"] "out.m3u") H).
Defined.

Lemma scanLine_captures_name_witness :
  Str.trim (Sample.nameLine "Track 1") = "<name>" ++ "Track 1" ++ "</name>"
  /\ clean "<" "Track 1" = true
  /\ _name (openTrack scanner0 4) = false
  /\ _track (openTrack scanner0 4) = Some 0%nat
  /\ scanLine (openTrack scanner0 4) 5 (Sample.nameLine "Track 1")
     = Ok (nameTrack (openTrack scanner0 4) 0 (Some "Track 1")).
Proof.
  assert (T : Str.trim (Sample.nameLine "Track 1") = "<name>" ++ "Track 1" ++ "</name>")
    by (vm_compute; reflexivity).
  assert (C : clean "<" "Track 1" = true) by (vm_compute; reflexivity).
  split; [exact T|]. split; [exact C|]. split; [reflexivity|]. split; [reflexivity|].
  exact (scanLine_captures_name (openTrack scanner0 4) 5 0 (Sample.nameLine "Track 1")
                                "Track 1" T C eq_refl eq_refl).
Defined.

Lemma sorted_unchanged_witness :
  StronglySorted byStartLe More.inOrder /\ sort byStart More.inOrder = More.inOrder.
Proof.
  assert (H : StronglySorted byStartLe More.inOrder).
  { apply SSorted_cons.
    - apply SSorted_cons; [apply SSorted_nil|apply Forall_nil].
    - apply Forall_cons; [|apply Forall_nil]. vm_compute. discriminate. }
  split; [exact H|]. exact (sorted_unchanged _ H).
Defined.

Lemma report_lines_witness :
  nth_error (tracks (Sample.scanned Sample.mix)) 1
  = Some {| track_name := Some "B"; track_line := 8; track_clips := [10; 11]%nat |}
  /\ nth_error (report (tracks (Sample.scanned Sample.mix))) (2 + 1)
     = Some ("  # of entries in track " ++ Str.ofNat 1 ++ ": " ++ Str.ofNat 2).
Proof.
  assert (H : nth_error (tracks (Sample.scanned Sample.mix)) 1
              = Some {| track_name := Some "B"; track_line := 8;
                        track_clips := [10; 11]%nat |})
    by (vm_compute; reflexivity).
  split; [exact H|].
  exact (proj1 (proj2 (report_lines (tracks (Sample.scanned Sample.mix)))) 1%nat _ H).
Defined.

Lemma integer_options_witness :
  opt_delta (Sample.opts "out.cue") = None
  /\ delta (Sample.opts "out.cue") = Num.ofZ 0.
Proof.
  split; [reflexivity|].
  exact (proj1 (proj2 (integer_options (Sample.opts "out.cue"))) eq_refl).
Defined.
